(** * PokerStars hand-history parser: a shallow embedding and its properties

    The development follows [poker/room/pokerstars.py]:

    - Python strings are [string]s, read as sequences of 8-bit code points;
    - the [re] patterns of the module are terms of a small regex syntax,
      run by a backtracking matcher with the priorities of Python's engine
      (ordered alternation, greedy and lazy repetition, named groups);
    - an instance of [PokerStarsHandHistory] is its attribute dictionary, a
      [gmap string value]; methods are computations in a state-and-exception
      monad whose state survives a raised exception, as a Python object does;
    - the modules the file imports but which are not part of it
      ([constants], [card], [hand], the base classes of [handhistory]) are
      an interface, the class [Externals], or are modelled from the
      specification where a definition says so. *)

From stdpp Require Import gmap strings list pretty.
From Stdlib Require Import Ascii String ZArith Lia.

Open Scope string_scope.
Open Scope Z_scope.
Open Scope list_scope.

(** ** Python string primitives *)

Module Py.

Definition code (a : ascii) : N := N_of_ascii a.

Definition in_range (lo hi : N) (a : ascii) : bool :=
  ((lo <=? code a) && (code a <=? hi))%N.

(** [\d] of a pattern compiled without [re.UNICODE]. *)
Definition is_digit (a : ascii) : bool := in_range 48 57 a.

(** [\s] of a pattern compiled without [re.UNICODE]: [ \t\n\r\f\v]. *)
Definition is_space (a : ascii) : bool :=
  in_range 9 13 a || (code a =? 32)%N.

(** [\w] of a pattern compiled without [re.UNICODE]: [[a-zA-Z0-9_]]. *)
Definition is_word (a : ascii) : bool :=
  in_range 48 57 a || in_range 65 90 a || in_range 97 122 a
  || (code a =? 95)%N.

(** Characters removed by [unicode.strip()], within the first 256 code
    points: the [\s] ones, the separators U+001C..U+001F, U+0085, U+00A0. *)
Definition is_strip_space (a : ascii) : bool :=
  is_space a || in_range 28 31 a || (code a =? 133)%N || (code a =? 160)%N.

Fixpoint lstrip (s : string) : string :=
  match s with
  | String a s' => if is_strip_space a then lstrip s' else s
  | EmptyString => EmptyString
  end.

Fixpoint rstrip (s : string) : string :=
  match s with
  | String a s' =>
      match rstrip s' with
      | EmptyString => if is_strip_space a then EmptyString else String a EmptyString
      | t => String a t
      end
  | EmptyString => EmptyString
  end.

(** [s.strip()] *)
Definition strip (s : string) : string := rstrip (lstrip s).

(** [s.startswith(p)] *)
Fixpoint startswith (p s : string) : bool :=
  match p, s with
  | EmptyString, _ => true
  | String a p', String b s' => if Ascii.eqb a b then startswith p' s' else false
  | String _ _, EmptyString => false
  end.

(** [s.find(sub)], as an option instead of the [-1] sentinel. *)
Fixpoint find (sub s : string) : option nat :=
  if startswith sub s then Some 0%nat
  else match s with
       | String _ s' => S <$> find sub s'
       | EmptyString => None
       end.

(** [sub in s] *)
Definition contains (sub s : string) : bool :=
  match find sub s with Some _ => true | None => false end.

Fixpoint take (n : nat) (s : string) : string :=
  match n, s with
  | S n', String a s' => String a (take n' s')
  | _, _ => EmptyString
  end.

Fixpoint drop (n : nat) (s : string) : string :=
  match n, s with
  | S n', String _ s' => drop n' s'
  | _, _ => s
  end.

(** Clamping of one slice bound, negative bounds counted from the end. *)
Definition bound (len : nat) (i : Z) : nat :=
  if i <? 0 then Z.to_nat (Z.max 0 (Z.of_nat len + i))
  else Nat.min len (Z.to_nat i).

(** [s[lo:hi]] *)
Definition slice (lo hi : Z) (s : string) : string :=
  let n := String.length s in
  take (bound n hi - bound n lo) (drop (bound n lo) s).

(** [s[:hi]] *)
Definition slice_to (hi : Z) (s : string) : string :=
  take (bound (String.length s) hi) s.

(** [s.upper()] and [s.lower()] on the letters [a-z] and [A-Z]. *)
Definition upper_char (a : ascii) : ascii :=
  if in_range 97 122 a then ascii_of_N (code a - 32) else a.
Definition lower_char (a : ascii) : ascii :=
  if in_range 65 90 a then ascii_of_N (code a + 32) else a.

Fixpoint map_chars (f : ascii -> ascii) (s : string) : string :=
  match s with
  | String a s' => String (f a) (map_chars f s')
  | EmptyString => EmptyString
  end.

Definition upper : string -> string := map_chars upper_char.
Definition lower : string -> string := map_chars lower_char.

(** [s.split()]: the maximal runs of non-whitespace characters. *)
Fixpoint split_ws_aux (cur : string) (s : string) : list string :=
  match s with
  | EmptyString => match cur with EmptyString => [] | _ => [cur] end
  | String a s' =>
      if is_strip_space a
      then match cur with
           | EmptyString => split_ws_aux EmptyString s'
           | _ => cur :: split_ws_aux EmptyString s'
           end
      else split_ws_aux (cur +:+ String a EmptyString) s'
  end.

Definition split_ws (s : string) : list string := split_ws_aux EmptyString s.

(** [l[lo:hi]] on lists, for bounds that are never negative in the
    source. *)
Definition lslice {A} (lo hi : nat) (l : list A) : list A :=
  List.firstn (hi - lo) (List.skipn lo l).

(** [l.index(x, start)]: position of the first [x] at or after [start]. *)
Fixpoint index_from {A} `{EqDecision A} (x : A) (start : nat) (l : list A)
  : option nat :=
  match l with
  | [] => None
  | y :: l' =>
      match start with
      | O => if decide (y = x) then Some O else S <$> index_from x O l'
      | S n => S <$> index_from x n l'
      end
  end.

(** [l[i]] with Python's negative indices. *)
Definition getitem {A} (l : list A) (i : Z) : option A :=
  let n := Z.of_nat (List.length l) in
  if (0 <=? i) && (i <? n) then l !! Z.to_nat i
  else if (- n <=? i) && (i <? 0) then l !! Z.to_nat (n + i)
  else None.

(** [l[i] = x] with Python's negative indices; [None] is [IndexError]. *)
Definition setitem {A} (l : list A) (i : Z) (x : A) : option (list A) :=
  let n := Z.of_nat (List.length l) in
  if (0 <=? i) && (i <? n) then Some (<[Z.to_nat i := x]> l)
  else if (- n <=? i) && (i <? 0) then Some (<[Z.to_nat (n + i) := x]> l)
  else None.

End Py.

(** ** Regular expressions of the [re] module

    Only the constructs the patterns of [pokerstars.py] use.  Unnamed
    groups whose text the module never reads are written as plain
    sub-patterns; the numbered groups it does read ([group(1)],
    [group(2)]) are groups named ["1"] and ["2"]. *)

Module Re.

Inductive cset : Type :=
| CAny                          (* [.], any character but a newline *)
| CChar (a : ascii)             (* a literal character *)
| CDigit                        (* [\d] *)
| CNonDigit                     (* [[^\d]] *)
| CSpace                        (* [\s] *)
| CNonSpace                     (* [\S] *)
| CRange (lo hi : ascii)        (* [[A-Z]] *)
| COneOf (l : list ascii).      (* [[\[ ]] *)

Definition cset_mem (cs : cset) (a : ascii) : bool :=
  match cs with
  | CAny => negb (Ascii.eqb a "010")
  | CChar b => Ascii.eqb a b
  | CDigit => Py.is_digit a
  | CNonDigit => negb (Py.is_digit a)
  | CSpace => Py.is_space a
  | CNonSpace => negb (Py.is_space a)
  | CRange lo hi => Py.in_range (Py.code lo) (Py.code hi) a
  | COneOf l => existsb (Ascii.eqb a) l
  end.

Inductive greed : Type := Greedy | Lazy.

Inductive regex : Type :=
| Eps                                   (* the empty pattern *)
| Sym (cs : cset)
| Cat (r1 r2 : regex)
| Alt (r1 r2 : regex)                   (* [r1|r2] *)
| Star (g : greed) (r : regex)          (* [r*] and [r*?] *)
| Group (name : string) (r : regex)     (* [(?P<name>r)] *)
| Bol                                   (* [^] *)
| Eol                                   (* [$] *)
| WordB                                 (* [\b] *)
| Ahead (cs : cset)                     (* [(?=[..])] *)
| Behind (cs : cset).                   (* [(?<=[..])] *)

(** [r+], [r+?] *)
Definition Plus (g : greed) (r : regex) : regex := Cat r (Star g r).

(** [r?], [r??] *)
Definition Opt (g : greed) (r : regex) : regex :=
  match g with Greedy => Alt r Eps | Lazy => Alt Eps r end.

(** A literal string. *)
Fixpoint Lit (s : string) : regex :=
  match s with
  | EmptyString => Eps
  | String a EmptyString => Sym (CChar a)
  | String a s' => Cat (Sym (CChar a)) (Lit s')
  end.

(** Concatenation of a list of patterns. *)
Fixpoint Seq (rs : list regex) : regex :=
  match rs with
  | [] => Eps
  | [r] => r
  | r :: rs' => Cat r (Seq rs')
  end.

(** Captured groups: [match.group(name)] is the lookup, [None] for a
    group that took no part in the match. *)
Abbreviation caps := (gmap string string).

(** The matcher's position: the character before it (for [\b], [^] and
    look-behind), the text still to read, and the groups so far. *)
Record pos : Type := Pos { prev : option ascii; rest : string; groups : caps }.

Definition at_word (o : option ascii) : bool :=
  match o with Some a => Py.is_word a | None => false end.

Definition next (s : string) : option ascii :=
  match s with String a _ => Some a | EmptyString => None end.

(** The text read between two positions of one scan. *)
Definition consumed (from to : string) : string :=
  Py.take (String.length from - String.length to) from.

(** Backtracking matcher in continuation-passing style: [k] is the rest
    of the pattern, and the first success in priority order is the
    result.  A repetition gives up an iteration that reads nothing, as
    the engine does; no repeated sub-pattern of this module can match
    the empty string. *)
Fixpoint run {R} (r : regex) (k : pos -> option R) (p : pos) : option R :=
  match r with
  | Eps => k p
  | Sym cs =>
      match rest p with
      | String a s' =>
          if cset_mem cs a then k (Pos (Some a) s' (groups p)) else None
      | EmptyString => None
      end
  | Cat r1 r2 => run r1 (run r2 k) p
  | Alt r1 r2 =>
      match run r1 k p with
      | Some x => Some x
      | None => run r2 k p
      end
  | Star g r1 =>
      (fix loop (fuel : nat) (p : pos) {struct fuel} : option R :=
         let again (_ : unit) :=
           match fuel with
           | O => None
           | S fuel' =>
               run r1 (fun p' =>
                         if (String.length (rest p') <? String.length (rest p))%nat
                         then loop fuel' p' else None) p
           end in
         match g with
         | Greedy =>
             match again tt with Some x => Some x | None => k p end
         | Lazy =>
             match k p with Some x => Some x | None => again tt end
         end) (String.length (rest p)) p
  | Group name r1 =>
      run r1 (fun p' =>
                k (Pos (prev p') (rest p')
                       (<[name := consumed (rest p) (rest p')]> (groups p')))) p
  | Bol => match prev p with None => k p | Some _ => None end
  | Eol =>
      match rest p with
      | EmptyString => k p
      | String a EmptyString => if Ascii.eqb a "010" then k p else None
      | _ => None
      end
  | WordB =>
      if negb (Bool.eqb (at_word (prev p)) (at_word (next (rest p))))
      then k p else None
  | Ahead cs =>
      match rest p with
      | String a _ => if cset_mem cs a then k p else None
      | EmptyString => None
      end
  | Behind cs =>
      match prev p with
      | Some a => if cset_mem cs a then k p else None
      | None => None
      end
  end.

(** One attempt at a given position: the position after the match. *)
Definition match_at (r : regex) (p : pos) : option pos := run r Some p.

(** [pattern.match(s)]: the groups of the match anchored at the start. *)
Definition match_ (r : regex) (s : string) : option caps :=
  groups <$> match_at r (Pos None s ∅).

(** Left-to-right scan shared by [split] and [findall]: at each position
    try the pattern; after a match that read something, resume behind
    it.  [cur] holds, reversed, the characters passed since the last
    match. *)
Fixpoint scan {A} (r : regex) (emit : string -> pos -> list A)
    (last : string -> list A)
    (fuel : nat) (pv : option ascii) (cur : string) (s : string) : list A :=
  match fuel with
  | O => []
  | S fuel' =>
      match match_at r (Pos pv s ∅) with
      | Some p' =>
          if (String.length (rest p') <? String.length s)%nat
          then emit cur p' ++ scan r emit last fuel' (prev p') EmptyString (rest p')
          else match s with
               | String a s' =>
                   scan r emit last fuel' (Some a) (cur +:+ String a EmptyString) s'
               | EmptyString => last cur
               end
      | None =>
          match s with
          | String a s' =>
              scan r emit last fuel' (Some a) (cur +:+ String a EmptyString) s'
          | EmptyString => last cur
          end
      end
  end.

(** [pattern.split(s)] for a pattern without groups. *)
Definition split (r : regex) (s : string) : list string :=
  scan r (fun cur _ => [cur]) (fun cur => [cur])
       (S (String.length s)) None EmptyString s.

(** [pattern.findall(s)] for a pattern with the single group [g]. *)
Definition findall (r : regex) (g : string) (s : string) : list string :=
  scan r (fun _ p' => match groups p' !! g with Some t => [t] | None => [EmptyString] end)
       (fun _ => [])
       (S (String.length s)) None EmptyString s.

End Re.

(** ** Values of the imported modules *)

(** [decimal.Decimal] for the texts the patterns capture: a coefficient
    and the number of digits behind the point ([Decimal('3.19')] is
    [319] with [2]). *)
Record decimal : Type := Dec { coef : N; frac : nat }.

Module Decimal.

Definition digit (a : ascii) : N := (Py.code a - 48)%N.

(** Reads [\d+] followed by an optional [.\d+]; [seen] tells whether
    a digit was read since the start or the point. *)
Fixpoint read (s : string) (acc : N) (point : option nat) (seen : bool)
  : option decimal :=
  match s with
  | EmptyString =>
      if seen
      then Some (Dec acc (match point with Some n => n | None => O end))
      else None
  | String a s' =>
      if Py.is_digit a
      then read s' (10 * acc + digit a)%N (S <$> point) true
      else if Ascii.eqb a "."
           then match point with
                | None => if seen then read s' acc (Some O) false else None
                | Some _ => None
                end
           else None
  end.

(** [Decimal(text)]; [None] stands for the conversion error. *)
Definition of_string (s : string) : option decimal := read s 0%N None false.

(** [Decimal(0)] *)
Definition zero : decimal := Dec 0 0.

(** [int(text)] for a text of digits. *)
Fixpoint int_read (s : string) (acc : N) (seen : bool) : option Z :=
  match s with
  | EmptyString => if seen then Some (Z.of_N acc) else None
  | String a s' =>
      if Py.is_digit a then int_read s' (10 * acc + digit a)%N true else None
  end.

Definition int (s : string) : option Z := int_read s 0%N false.

End Decimal.

(** [constants.GameType] and [constants.MoneyType], the two members of
    each that the parser assigns. *)
Inductive GameType : Type := TOUR | CASH.
Inductive MoneyType : Type := REAL | PLAY.

(** The imported names the parser calls but does not define.  A
    constructor that raises [ValueError] on a text it does not know
    returns [None]. *)
Class Externals : Type := {
  CardT : Type;
  Card : string -> option CardT;                       (* [card.Card(text)] *)
  ComboT : Type;
  Combo_from_array : list string -> option ComboT;     (* [hand.Combo.from_array] *)
  CurrencyT : Type;
  Currency : string -> option CurrencyT;               (* [constants.Currency(text)] *)
  GameT : Type;
  Game : string -> option GameT;                       (* [constants.Game(text)] *)
  LimitT : Type;
  Limit : string -> option LimitT;                     (* [constants.Limit(text)] *)
  ActionT : Type;
  Action : string -> option ActionT;                   (* [constants.Action(text)] *)
  SHOW : ActionT;
  RETURN : ActionT;
  REMOVED : ActionT;
  WIN : ActionT;
  MUCK : ActionT;
  JOIN : ActionT;
  LEAVE : ActionT;
  TIMED_OUT : ActionT;
  DISCONNECTED : ActionT;
  CONNECTED : ActionT;
  DateT : Type;
  (** The date the base class's [_parse_date] stores for a text. *)
  strptime : string -> option DateT;
}.

(** Exceptions the parser raises or lets through. *)
Inductive exn : Type :=
| AttributeError          (* [.group] on a failed match, [.name] on [None] *)
| IndexError
| ValueError
| TypeError
| StopIteration
| InvalidOperation        (* [Decimal] of a text that is no number *)
| UnknownActionError (action_str : string).

Inductive res (A : Type) : Type :=
| Ok (a : A)
| Raise (e : exn).
Arguments Ok {A} a.
Arguments Raise {A} e.

Global Instance res_ret : MRet res := fun A a => Ok a.
Global Instance res_bind : MBind res := fun A B f r =>
  match r with Ok a => f a | Raise e => Raise e end.

(** [o] if it is there, else raise [e]. *)
Definition or_raise {A} (e : exn) (o : option A) : res A :=
  match o with Some a => Ok a | None => Raise e end.

(** [match.group(name)] on the result of [pattern.match]: a failed match
    is [None] and has no [group]. *)
Definition group (m : option Re.caps) (name : string) : res (option string) :=
  match m with
  | Some c => Ok (c !! name)
  | None => Raise AttributeError
  end.

(** Truth value of a group's text: [None] and [''] are false. *)
Definition truthy (o : option string) : bool :=
  match o with
  | Some (String _ _) => true
  | _ => false
  end.

(** [Decimal(x)] for [x] a group's text: [TypeError] on [None]. *)
Definition Decimal_of (o : option string) : res decimal :=
  match o with
  | None => Raise TypeError
  | Some s => or_raise InvalidOperation (Decimal.of_string s)
  end.

(** [int(x)] for [x] a group's text. *)
Definition int_of (o : option string) : res Z :=
  match o with
  | None => Raise TypeError
  | Some s => or_raise ValueError (Decimal.int s)
  end.

(** [s.index(sub)] *)
Definition str_index (sub s : string) : res nat :=
  or_raise ValueError (Py.find sub s).

(** ** Shared pieces of the patterns *)

Import Re.

Definition any : regex := Sym CAny.            (* [.] *)
Definition digits : regex := Plus Greedy (Sym CDigit).      (* [\d+] *)
Definition spaces : regex := Plus Greedy (Sym CSpace).      (* [\s+] *)
(** [\d+(\.\d+)?] and [\d+(?:\.\d+)?] *)
Definition number : regex :=
  Cat digits (Opt Greedy (Cat (Lit ".") digits)).
(** [[^\d]*?] *)
Definition nondigits_lazy : regex := Star Lazy (Sym CNonDigit).

(** ** [class ActionParser] *)

(** [hh._PlayerAction(name, action, value)]: the value is an amount, a
    combo, the seat text of a join, or [None]. *)
Inductive payload `{Externals} : Type :=
| PNone
| PDecimal (d : decimal)
| PCombo (c : ComboT)
| PStr (s : string).

Record PlayerAction `{Externals} : Type := _PlayerAction {
  pa_name : string;
  pa_action : ActionT;
  pa_value : payload;
}.

Arguments _PlayerAction {_} _ _ _.
Arguments PNone {_}.
Arguments PDecimal {_} _.
Arguments PCombo {_} _.
Arguments PStr {_} _.

Section ActionParser.
Context `{Externals}.

(** [^(?P<name>.+):\s+(?P<action>.+?\b)\s*(?:[^\d]*?(?P<amount>\d+(?:\.\d+)?))?] *)
Definition _player_action_re : regex :=
  Seq [ Bol; Group "name" (Plus Greedy any); Lit ":"; spaces;
        Group "action" (Cat (Plus Lazy any) WordB);
        Star Greedy (Sym CSpace);
        Opt Greedy (Cat nondigits_lazy (Group "amount" number)) ].

(** [^Uncalled bet \([^\d]*?(?P<amount>\d+(?:\.\d+)?)\) returned to\s+(?P<name>.+)$] *)
Definition _uncalled_re : regex :=
  Seq [ Bol; Lit "Uncalled bet ("; nondigits_lazy; Group "amount" number;
        Lit ") returned to"; spaces; Group "name" (Plus Greedy any); Eol ].

(** [^(?P<name>.+?) collected [^\d]*?(?P<amount>\d+(?:\.\d+)?)] *)
Definition _collected_re : regex :=
  Seq [ Bol; Group "name" (Plus Lazy any); Lit " collected ";
        nondigits_lazy; Group "amount" number ].

(** [^(?P<name>.+?) joins the table at seat #(?P<seat>\d+)$] *)
Definition _join_re : regex :=
  Seq [ Bol; Group "name" (Plus Lazy any); Lit " joins the table at seat #";
        Group "seat" digits; Eol ].

(** What a [_parse_*] method returns: [name, action, value]. *)
Definition parsed : Type := string * ActionT * payload.

Definition _parse_show (line : string) : res parsed :=
  i ← str_index ":" line;
  let name := Py.take i line in
  lo ← str_index "[" line;
  hi ← str_index "]" line;
  let cards_str := Py.slice (Z.of_nat lo + 1) (Z.of_nat hi) line in
  combo ← or_raise ValueError (Combo_from_array (Py.split_ws cards_str));
  mret (name, SHOW, PCombo combo).

Definition _parse_uncalled (line : string) : res parsed :=
  let match_ := Re.match_ _uncalled_re line in
  name ← group match_ "name";
  amount ← group match_ "amount";
  d ← Decimal_of amount;
  mret (default "" name, RETURN, PDecimal d).

Definition _parse_removed (line : string) : res parsed :=
  i ← str_index "was removed" line;
  mret (Py.strip (Py.take i line), REMOVED, PNone).

Definition _parse_collected (line : string) : res parsed :=
  let match_ := Re.match_ _collected_re line in
  name ← group match_ "name";
  amount ← group match_ "amount";
  d ← Decimal_of amount;
  mret (default "" name, WIN, PDecimal d).

Definition _parse_muck (line : string) : res parsed :=
  let name :=
    match Py.find ":" line with
    | Some colon_index => Py.take colon_index line
    | None => Py.slice_to (-1) line            (* [find] gave [-1] *)
    end in
  mret (name, MUCK, PNone).

Definition _parse_player_action (line : string) : res parsed :=
  let match_ := Re.match_ _player_action_re line in
  name ← group match_ "name";
  a ← group match_ "action";
  action ← or_raise ValueError (Action (default "" a));
  amt ← group match_ "amount";
  amount ← match Decimal_of amt with
            | Raise TypeError => Ok PNone
            | Raise e => Raise e
            | Ok d => Ok (PDecimal d)
            end;
  mret (default "" name, action, amount).

Definition _parse_join_table (line : string) : res parsed :=
  let match_ := Re.match_ _join_re line in
  name ← group match_ "name";
  seat ← group match_ "seat";
  mret (default "" name, JOIN, from_option PStr PNone seat).

Definition _parse_leave_table (line : string) : res parsed :=
  i ← str_index "leaves the table" line;
  mret (Py.strip (Py.take i line), LEAVE, PNone).

Definition _parse_timed_out (line : string) : res parsed :=
  i ← str_index "has timed out" line;
  mret (Py.strip (Py.take i line), TIMED_OUT, PNone).

Definition _parse_disconnected (line : string) : res parsed :=
  i ← str_index "is disconnected" line;
  mret (Py.strip (Py.take i line), DISCONNECTED, PNone).

Definition _parse_connected (line : string) : res parsed :=
  i ← str_index "is connected" line;
  mret (Py.strip (Py.take i line), CONNECTED, PNone).

(** The table of [parse], in its order. *)
Definition parse_methods : list (string * (string -> res parsed)) :=
  [ ("Uncalled bet", _parse_uncalled);
    (" collected ", _parse_collected);
    (" doesn't show hand", _parse_muck);
    ("mucks hand", _parse_muck);
    ("joins the table", _parse_join_table);
    ("leaves the table", _parse_leave_table);
    ("has timed out", _parse_timed_out);
    ("is connected", _parse_connected);
    ("is disconnected", _parse_disconnected);
    ("was removed", _parse_removed);
    (" shows ", _parse_show);
    (": ", _parse_player_action) ].

(** [ifilter(lambda (substr, _): substr in action_str, parse_methods).next()] *)
Definition first_method (action_str : string)
  : res (string * (string -> res parsed)) :=
  or_raise StopIteration
    (List.find (fun m => Py.contains (fst m) action_str) parse_methods).

(** The end of [parse]: [StopIteration] out of the [try] block becomes
    [UnknownActionError(action_str)], and the triple becomes a
    [_PlayerAction]. *)
Definition finish (action_str : string) (r : res parsed) : res PlayerAction :=
  match r with
  | Raise StopIteration => Raise (UnknownActionError action_str)
  | Raise e => Raise e
  | Ok (name, action, value) => Ok (_PlayerAction name action value)
  end.

(** [ActionParser.parse] *)
Definition parse (action_str : string) : res PlayerAction :=
  finish action_str
    (m ← first_method action_str; snd m (Py.strip action_str)).

End ActionParser.

(** ** Objects of the hand history *)

(** [hh._Player(name, stack, seat, combo)] *)
Record Player `{Externals} : Type := _Player {
  name : string;
  stack : decimal;
  seat : Z;
  combo : option ComboT;
}.
Arguments _Player {_} _ _ _ _.

(** A [_Street] instance: the attributes [cards] and [actions]. *)
Record Street `{Externals} : Type := mkStreet {
  cards : CardT * CardT * CardT;
  actions : option (list PlayerAction);
}.
Arguments mkStreet {_} _ _.

(** What an attribute of the instance can hold. *)
Inductive value `{Externals} : Type :=
| VNone
| VBool (b : bool)
| VInt (z : Z)
| VStr (s : string)
| VDecimal (d : decimal)
| VGameType (g : GameType)
| VCurrency (c : CurrencyT)
| VGame (g : GameT)
| VLimit (l : LimitT)
| VDate (d : DateT)
| VDict (d : gmap string MoneyType)        (* [extra] *)
| VMatch (m : option caps)                 (* [_table_match] *)
| VStrings (l : list string)               (* [_splitted] *)
| VIndices (l : list nat)                  (* [_sections] *)
| VPlayers (l : list Player)               (* the list [players] *)
| VPlayer (p : Player)
| VActions (l : list PlayerAction)         (* a tuple of actions *)
| VStreet (s : Street)
| VCard (c : CardT)
| VNames (l : list string).                (* the tuple [winners] *)
Arguments VNone {_}.
Arguments VBool {_} _.
Arguments VInt {_} _.
Arguments VStr {_} _.
Arguments VDecimal {_} _.
Arguments VGameType {_} _.
Arguments VDict {_} _.
Arguments VMatch {_} _.
Arguments VStrings {_} _.
Arguments VIndices {_} _.
Arguments VNames {_} _.

(** ** The state and the monad of the methods *)

(** [logging.WARNING] and [logging.ERROR] *)
Definition WARNING : Z := 30.
Definition ERROR : Z := 40.

(** The instance's attributes, and the module's logger: its level and
    the messages it has let through. *)
Record state `{Externals} : Type := State {
  self : gmap string value;
  logger_level : Z;
  logged : list string;
}.
Arguments State {_} _ _ _.

Section Monad.
Context `{Externals}.

Definition M (A : Type) : Type := state -> state * res A.

Global Instance M_ret : MRet M := fun A a s => (s, Ok a).
Global Instance M_bind : MBind M := fun A B f m s =>
  match m s with
  | (s', Ok a) => f a s'
  | (s', Raise e) => (s', Raise e)
  end.

Global Instance M_fmap : FMap M := fun A B f m s =>
  match m s with
  | (s', Ok a) => (s', Ok (f a))
  | (s', Raise e) => (s', Raise e)
  end.

Definition raise {A} (e : exn) : M A := fun s => (s, Raise e).

Definition lift {A} (r : res A) : M A := fun s => (s, r).

(** [try: m  except <the exceptions of handles>: h] *)
Definition try_except {A} (m : M A) (handles : exn -> bool) (h : exn -> M A)
  : M A := fun s =>
  match m s with
  | (s', Raise e) => if handles e then h e s' else (s', Raise e)
  | r => r
  end.

Definition is_ValueError (e : exn) : bool :=
  match e with ValueError => true | _ => false end.
Definition is_AttributeError (e : exn) : bool :=
  match e with AttributeError => true | _ => false end.
Definition is_UnknownActionError (e : exn) : bool :=
  match e with UnknownActionError _ => true | _ => false end.

(** [self.attr = v] and [setattr(self, attr, v)] *)
Definition setattr (attr : string) (v : value) : M unit := fun s =>
  (State (<[attr := v]> (self s)) (logger_level s) (logged s), Ok tt).

(** [self.attr] *)
Definition getattr (attr : string) : M value := fun s =>
  (s, or_raise AttributeError (self s !! attr)).

(** [del self.attr] *)
Definition delattr (attr : string) : M unit := fun s =>
  match self s !! attr with
  | Some _ => (State (delete attr (self s)) (logger_level s) (logged s), Ok tt)
  | None => (s, Raise AttributeError)
  end.

(** [logger.warning(msg)]: kept when the logger's level lets warnings
    through. *)
Definition warning (msg : string) : M unit := fun s =>
  (if logger_level s <=? WARNING
   then State (self s) (logger_level s) (logged s ++ [msg])
   else s, Ok tt).

(** Reading an attribute at the type the method uses it at. *)
Definition get_splitted : M (list string) :=
  v ← getattr "_splitted";
  match v with VStrings l => mret l | _ => raise TypeError end.

Definition get_sections : M (list nat) :=
  v ← getattr "_sections";
  match v with VIndices l => mret l | _ => raise TypeError end.

Definition get_players : M (list Player) :=
  v ← getattr "players";
  match v with VPlayers l => mret l | _ => raise TypeError end.

Definition get_table_match : M (option caps) :=
  v ← getattr "_table_match";
  match v with VMatch m => mret m | _ => raise TypeError end.

Definition get_bool (attr : string) : M bool :=
  v ← getattr attr;
  match v with VBool b => mret b | _ => raise TypeError end.

(** [l[i]] on a list, [IndexError] out of range. *)
Definition item {A} (l : list A) (i : Z) : M A :=
  lift (or_raise IndexError (Py.getitem l i)).

(** [e.message] of [UnknownActionError(action_str)]:
    ['Unknown action: %s.' % action_str] *)
Definition message (action_str : string) : string :=
  "Unknown action: " +:+ action_str +:+ ".".

(** The loop every street shares:
<<
    for action_str in lines:
        try:
            actions.append(ap.parse(action_str))
        except UnknownActionError as e:
            logger.warning(e.message)
>>
    [actions] is the list built so far. *)
Fixpoint parse_lines (lines : list string) (actions : list PlayerAction)
  : M (list PlayerAction) :=
  match lines with
  | [] => mret actions
  | action_str :: lines' =>
      match parse action_str with
      | Ok action => parse_lines lines' (actions ++ [action])
      | Raise (UnknownActionError a) =>
          _ ← warning (message a); parse_lines lines' actions
      | Raise e => raise e
      end
  end.

(** [tuple(actions) if actions else None] *)
Definition tuple_or_None (actions : list PlayerAction) : value :=
  match actions with [] => VNone | _ => VActions actions end.

Definition option_actions (actions : list PlayerAction)
  : option (list PlayerAction) :=
  match actions with [] => None | _ => Some actions end.

End Monad.

(** ** [class _Street] *)

Section Street.
Context `{Externals}.

(** [_Street._parse_cards]:
    [(Card(boardline[1:3]), Card(boardline[4:6]), Card(boardline[7:9]))] *)
Definition Street_parse_cards (boardline : string)
  : res (CardT * CardT * CardT) :=
  c1 ← or_raise ValueError (Card (Py.slice 1 3 boardline));
  c2 ← or_raise ValueError (Card (Py.slice 4 6 boardline));
  c3 ← or_raise ValueError (Card (Py.slice 7 9 boardline));
  mret (c1, c2, c3).

(** [_Street._parse_actions] *)
Definition Street_parse_actions (actionlines : list string)
  : M (option (list PlayerAction)) :=
  actions ← parse_lines actionlines [];
  mret (option_actions actions).

(** Modelled from the spec: the constructor of the base class
    [hh._BaseStreet], which is not in this module.  The street "owns a
    street's board cards and its ordered action list": the first line
    it is given is the board line and the others are action lines, as
    the [flop] fixture of the tests builds one. *)
Definition new_Street (lines : list string) : M Street :=
  boardline ← item lines 0;
  cs ← lift (Street_parse_cards boardline);
  acts ← Street_parse_actions (List.skipn 1 lines);
  mret (mkStreet cs acts).

End Street.

(** ** [class PokerStarsHandHistory]: the patterns *)

(** [r" ?\*\*\* ?\n?|\n"] *)
Definition _split_re : regex :=
  Alt (Seq [ Opt Greedy (Lit " "); Lit "***"; Opt Greedy (Lit " ");
             Opt Greedy (Sym (CChar "010")) ])
      (Sym (CChar "010")).

(** The header pattern, compiled with [re.VERBOSE], piece by piece. *)

(** [^PokerStars\s+Hand\s+\#(?P<ident>\d+):\s+] *)
Definition header_room : regex :=
  Seq [ Bol; Lit "PokerStars"; spaces; Lit "Hand"; spaces; Lit "#";
        Group "ident" digits; Lit ":"; spaces ].

(** [\$?(?P<buyin>\d+(\.\d+)?)(\+\$?(?P<rake>\d+(\.\d+)?))?(\s+(?P<currency>[A-Z]+))?] *)
Definition header_buyin : regex :=
  Seq [ Opt Greedy (Lit "$"); Group "buyin" number;
        Opt Greedy (Seq [ Lit "+"; Opt Greedy (Lit "$"); Group "rake" number ]);
        Opt Greedy (Cat spaces
                        (Group "currency" (Plus Greedy (Sym (CRange "A" "Z"))))) ].

(** [(Tournament\s+\#(?P<tournament_ident>\d+),\s+((?P<freeroll>Freeroll)|(..))\s+)?] *)
Definition header_tournament : regex :=
  Opt Greedy
      (Seq [ Lit "Tournament"; spaces; Lit "#";
             Group "tournament_ident" digits; Lit ","; spaces;
             Alt (Group "freeroll" (Lit "Freeroll")) header_buyin;
             spaces ]).

(** [(?P<game>.+?)\s+(?P<limit>(?:Pot\s+|No\s+|)Limit)\s+] *)
Definition header_game : regex :=
  Seq [ Group "game" (Plus Lazy any); spaces;
        Group "limit"
          (Cat (Alt (Cat (Lit "Pot") spaces) (Alt (Cat (Lit "No") spaces) Eps))
               (Lit "Limit"));
        spaces ].

(** [(-\s+Level\s+(?P<tournament_level>\S+)\s+)?] *)
Definition header_level : regex :=
  Opt Greedy
      (Seq [ Lit "-"; spaces; Lit "Level"; spaces;
             Group "tournament_level" (Plus Greedy (Sym CNonSpace)); spaces ]).

(** [((?P<sb>\d+)/(?P<bb>\d+))] *)
Definition header_tour_blinds : regex :=
  Seq [ Group "sb" digits; Lit "/"; Group "bb" digits ].

(** [(\$(?P<cash_sb>\d+(\.\d+)?)/\$(?P<cash_bb>\d+(\.\d+)?)(\s+(?P<cash_currency>\S+))?)] *)
Definition header_cash_blinds : regex :=
  Seq [ Lit "$"; Group "cash_sb" number; Lit "/";
        Lit "$"; Group "cash_bb" number;
        Opt Greedy (Cat spaces
                        (Group "cash_currency" (Plus Greedy (Sym CNonSpace)))) ].

(** [\(( tournament blinds | cash blinds )\)\s+] *)
Definition header_blinds : regex :=
  Seq [ Lit "("; Alt header_tour_blinds header_cash_blinds; Lit ")"; spaces ].

(** [-\s+.+?\s+\[(?P<date>.+?)\]] *)
Definition header_date : regex :=
  Seq [ Lit "-"; spaces; Plus Lazy any; spaces;
        Lit "["; Group "date" (Plus Lazy any); Lit "]" ].

Definition _header_re : regex :=
  Seq [ header_room; header_tournament; header_game; header_level;
        header_blinds; header_date ].

(** [^Table 'G1' G2-max Seat #(?P<button>\d+) is the button], where [G1]
    is the first group, around a greedy [.] star, and [G2] the second,
    around [\d+]. *)
Definition _table_re : regex :=
  Seq [ Bol; Lit "Table '"; Group "1" (Star Greedy any); Lit "' ";
        Group "2" digits; Lit "-max Seat #"; Group "button" digits;
        Lit " is the button" ].

(** [^Seat (?P<seat>\d+): (?P<name>.+?) \(\$?(?P<stack>\d+(\.\d+)?) in chips\)] *)
Definition _seat_re : regex :=
  Seq [ Bol; Lit "Seat "; Group "seat" digits; Lit ": ";
        Group "name" (Plus Lazy any); Lit " ("; Opt Greedy (Lit "$");
        Group "stack" number; Lit " in chips)" ].

(** [^Dealt to (?P<hero_name>.+?) \[(?P<cards>.+?)\]] *)
Definition _hero_re : regex :=
  Seq [ Bol; Lit "Dealt to "; Group "hero_name" (Plus Lazy any); Lit " [";
        Group "cards" (Plus Lazy any); Lit "]" ].

(** [^Total pot [^\d]*?(\d+(?:\.\d+)?) .*\| Rake [^\d]*?(\d+(?:\.\d+)?)] *)
Definition _pot_re : regex :=
  Seq [ Bol; Lit "Total pot "; nondigits_lazy; Group "1" number; Lit " ";
        Star Greedy any; Lit "| Rake "; nondigits_lazy; Group "2" number ].

(** [Seat (?:\d+): (?P<name>.+?)\s?(?:\(.+?\))?], the common start of the
    two summary patterns. *)
Definition summary_seat : regex :=
  Seq [ Bol; Lit "Seat "; digits; Lit ": "; Group "name" (Plus Lazy any);
        Opt Greedy (Sym CSpace);
        Opt Greedy (Seq [ Lit "("; Plus Lazy any; Lit ")" ]) ].

(** [^Seat (?:\d+): (?P<name>.+?)\s?(?:\(.+?\))? collected \([^\d]*?(?P<amount>\d+(?:\.\d+)?)\)] *)
Definition _winner_re : regex :=
  Seq [ summary_seat; Lit " collected ("; nondigits_lazy;
        Group "amount" number; Lit ")" ].

(** [^Seat (?:\d+): (?P<name>.+?)\s?(?:\(.+?\))? showed \[.+?\] and won] *)
Definition _showdown_re : regex :=
  Seq [ summary_seat; Lit " showed ["; Plus Lazy any; Lit "] and won" ].

(** [(?<=[\[ ])(..)(?=[\] ])] *)
Definition _board_re : regex :=
  Seq [ Behind (COneOf ["["%char; " "%char]); Group "1" (Cat any any);
        Ahead (COneOf ["]"%char; " "%char]) ].

(** [(..\b)], the pattern [_parse_hero] compiles. *)
Definition hero_cards_re : regex := Group "1" (Seq [ any; any; WordB ]).

(** ** [class PokerStarsHandHistory]: the methods *)

Section HandHistory.
Context `{Externals}.

(** Python's [a or b] on two groups. *)
Definition py_or (a b : option string) : option string :=
  if truthy a then a else b.

(** The value of an attribute assigned a group's text. *)
Definition VGroup (o : option string) : value :=
  match o with Some s => VStr s | None => VNone end.

(** Modelled from the spec: the constructor of the base class
    [hh._BaseHandHistory], not in this module.  A hand is "constructed
    empty, populated in two phases"; the text it keeps in [raw] is the
    trimmed hand text, and neither phase has run. *)
Definition new_hand (hand_text : string) : gmap string value :=
  <["raw" := VStr (Py.strip hand_text)]>
    (<["header_parsed" := VBool false]>
       (<["parsed" := VBool false]> ∅)).

(** Modelled from the spec: [_split_raw] of the base class
    [hh._SplittableHandHistoryMixin], not in this module.  It splits
    [raw] with [_split_re] into [_splitted], and [_sections] lists the
    positions of the empty pieces, which stand where a marker line
    starts ("sections[0] is before HOLE CARDS, sections[-1] is before
    SUMMARY"). *)
Definition sections_of (splitted : list string) : list nat :=
  List.map fst
    (List.filter (fun ie => negb (truthy (Some (snd ie))))
                 (List.combine (List.seq 0 (List.length splitted)) splitted)).

Definition _split_raw : M unit :=
  v ← getattr "raw";
  match v with
  | VStr raw =>
      let splitted := Re.split _split_re raw in
      _ ← setattr "_splitted" (VStrings splitted);
      setattr "_sections" (VIndices (sections_of splitted))
  | _ => raise TypeError
  end.

(** Modelled from the spec: [_del_split_vars] of the same mixin, which
    drops the two attributes [_split_raw] made. *)
Definition _del_split_vars : M unit :=
  _ ← delattr "_splitted";
  delattr "_sections".

(** Modelled from the spec: [_parse_date] of the base class, which
    stores in [date] the bracketed date of the header, read in the
    room's reference time zone. *)
Definition _parse_date (date_string : option string) : M unit :=
  d ← lift (or_raise ValueError (strptime (default "" date_string)));
  setattr "date" (VDate d).

(** [self.extra[key] = v] *)
Definition setitem_extra (key : string) (v : MoneyType) : M unit :=
  e ← getattr "extra";
  match e with
  | VDict d => setattr "extra" (VDict (<[key := v]> d))
  | _ => raise TypeError
  end.

(** [parse_header], block by block.  First the hand number and the
    blinds: "we cannot use the knowledge of the game type to pick
    between the blind and cash blind captures". *)
Definition header_ident_blinds (match_ : option caps) : M unit :=
  ident ← lift (group match_ "ident");
  _ ← setattr "ident" (VGroup ident);
  sb ← lift (group match_ "sb");
  cash_sb ← lift (group match_ "cash_sb");
  d ← lift (Decimal_of (py_or sb cash_sb));
  _ ← setattr "sb" (VDecimal d);
  bb ← lift (group match_ "bb");
  cash_bb ← lift (group match_ "cash_bb");
  d ← lift (Decimal_of (py_or bb cash_bb));
  setattr "bb" (VDecimal d).

(** [if match.group('tournament_ident'): ... else: ...]; the result is
    the local variable [currency]. *)
Definition header_game_type (match_ : option caps) : M (option string) :=
  tournament_ident ← lift (group match_ "tournament_ident");
  if truthy tournament_ident
  then
    _ ← setattr "game_type" (VGameType TOUR);
    _ ← setattr "tournament_ident" (VGroup tournament_ident);
    tournament_level ← lift (group match_ "tournament_level");
    _ ← setattr "tournament_level" (VGroup tournament_level);
    currency ← lift (group match_ "currency");
    buyin ← lift (group match_ "buyin");
    d ← (if truthy buyin then lift (Decimal_of buyin)
         else mret Decimal.zero);
    _ ← setattr "buyin" (VDecimal d);
    rake ← lift (group match_ "rake");
    d ← (if truthy rake then lift (Decimal_of rake)
         else mret Decimal.zero);
    _ ← setattr "rake" (VDecimal d);
    mret currency
  else
    _ ← setattr "game_type" (VGameType CASH);
    _ ← setattr "tournament_ident" VNone;
    _ ← setattr "tournament_level" VNone;
    currency ← lift (group match_ "cash_currency");
    _ ← setattr "buyin" VNone;
    _ ← setattr "rake" VNone;
    mret currency.

(** [if match.group('freeroll') and not currency: currency = 'USD'] *)
Definition freeroll_default (freeroll currency : option string)
  : option string :=
  if truthy freeroll && negb (truthy currency) then Some "USD" else currency.

(** The money type and the currency, from the local [currency]. *)
Definition header_currency (match_ : option caps) (currency : option string)
  : M unit :=
  freeroll ← lift (group match_ "freeroll");
  let currency := freeroll_default freeroll currency in
  if negb (truthy currency)
  then
    _ ← setitem_extra "money_type" PLAY;
    setattr "currency" VNone
  else
    _ ← setitem_extra "money_type" REAL;
    c ← lift (or_raise ValueError (Currency (default "" currency)));
    setattr "currency" (VCurrency c).

(** The game, the limit and the date; then the header is parsed. *)
Definition header_game_limit_date (match_ : option caps) : M unit :=
  game ← lift (group match_ "game");
  g ← lift (or_raise ValueError (Game (default "" game)));
  _ ← setattr "game" (VGame g);
  limit ← lift (group match_ "limit");
  l ← lift (or_raise ValueError (Limit (default "" limit)));
  _ ← setattr "limit" (VLimit l);
  date ← lift (group match_ "date");
  _ ← _parse_date date;
  setattr "header_parsed" (VBool true).

(** [parse_header] *)
Definition parse_header : M unit :=
  _ ← _split_raw;
  splitted ← get_splitted;
  line ← item splitted 0;
  let match_ := Re.match_ _header_re line in
  _ ← setattr "extra" (VDict ∅);
  _ ← header_ident_blinds match_;
  currency ← header_game_type match_;
  _ ← header_currency match_ currency;
  header_game_limit_date match_.

(** [_parse_table] *)
Definition _parse_table : M unit :=
  splitted ← get_splitted;
  line ← item splitted 1;
  let table_match := Re.match_ _table_re line in
  _ ← setattr "_table_match" (VMatch table_match);
  table_name ← lift (group table_match "1");
  _ ← setattr "table_name" (VGroup table_name);
  g2 ← lift (group table_match "2");
  n ← lift (int_of g2);
  setattr "max_players" (VInt n).

(** Modelled from the spec: [_init_seats] of the base class, not in
    this module: a "fixed-size array" of seats, "unseated slots left
    as explicit empty placeholders"; the placeholder of seat [k] is
    the player the tests expect,
    [_Player(name='Empty Seat k', stack=0, seat=k, combo=None)]. *)
Definition empty_seat (k : nat) : Player :=
  _Player ("Empty Seat " +:+ pretty k) Decimal.zero (Z.of_nat k) None.

Definition _init_seats (player_num : Z) : list Player :=
  List.map empty_seat (List.seq 1 (Z.to_nat player_num)).

(** The loop of [_parse_players], over the lines that follow the table
    line; it stops at the first line that is no seat line. *)
Fixpoint seat_lines (lines : list string) : M unit :=
  match lines with
  | [] => mret tt
  | line :: lines' =>
      match Re.match_ _seat_re line with
      | None => mret tt                                   (* [break] *)
      | Some c =>
          let match_ := Some c in
          seat ← lift (group match_ "seat");
          n ← lift (int_of seat);
          let index := n - 1 in
          name ← lift (group match_ "name");
          stack ← lift (group match_ "stack");
          d ← lift (Decimal_of stack);
          players ← get_players;
          players' ← lift (or_raise IndexError
                            (Py.setitem players index
                               (_Player (default "" name) d n None)));
          _ ← setattr "players" (VPlayers players');
          seat_lines lines'
      end
  end.

(** [_parse_players] *)
Definition _parse_players : M unit :=
  v ← getattr "max_players";
  match v with
  | VInt max_players =>
      _ ← setattr "players" (VPlayers (_init_seats max_players));
      splitted ← get_splitted;
      seat_lines (List.skipn 2 splitted)
  | _ => raise TypeError
  end.

(** [_parse_button] *)
Definition _parse_button : M unit :=
  table_match ← get_table_match;
  b ← lift (group table_match "button");
  button_seat ← lift (int_of b);
  players ← get_players;
  button ← item players (button_seat - 1);
  setattr "button" (VPlayer button).

(** Modelled from the spec: [_get_hero_from_players] of the base
    class, not in this module.  The hero is found by "cross-referencing
    a dealt-to line against the seat list by name"; "a name not found
    in the seat list means no hero -- this is not an error", so the
    miss is the [AttributeError] that [_parse_hero] turns into
    [hero = None]. *)
Fixpoint find_by_name (hero_name : string) (players : list Player)
  : option (Player * nat) :=
  match players with
  | [] => None
  | p :: ps =>
      if String.eqb (name p) hero_name then Some (p, O)
      else prod_map id S <$> find_by_name hero_name ps
  end.

Definition _get_hero_from_players (hero_name : option string)
  : M (Player * nat) :=
  players ← get_players;
  match hero_name with
  | Some n => lift (or_raise AttributeError (find_by_name n players))
  | None => raise AttributeError
  end.

(** [_parse_hero] *)
Definition _parse_hero : M unit :=
  splitted ← get_splitted;
  sections ← get_sections;
  s0 ← item sections 0;
  hole_cards_line ← item splitted (Z.of_nat s0 + 2);
  let match_ := Re.match_ _hero_re hole_cards_line in
  try_except
    (hero_name ← lift (group match_ "hero_name");
     '(hero, hero_index) ← _get_hero_from_players hero_name;
     cards_text ← lift (group match_ "cards");
     let cards := Re.findall hero_cards_re "1" (default "" cards_text) in
     combo ← lift (or_raise ValueError (Combo_from_array cards));
     let hero := _Player (name hero) (stack hero) (seat hero) (Some combo) in
     _ ← setattr "hero" (VPlayer hero);
     players ← get_players;
     players' ← lift (or_raise IndexError
                       (Py.setitem players (Z.of_nat hero_index) hero));
     _ ← setattr "players" (VPlayers players');
     b ← getattr "button";
     h ← getattr "hero";
     match b, h with
     | VPlayer button, VPlayer hero' =>
         if String.eqb (name button) (name hero')
         then setattr "button" (VPlayer hero)
         else mret tt
     | _, _ => raise AttributeError
     end)
    is_AttributeError
    (fun _ => setattr "hero" VNone).

(** [_parse_preflop] *)
Definition _parse_preflop : M unit :=
  splitted ← get_splitted;
  sections ← get_sections;
  s0 ← item sections 0;
  let start := (s0 + 3)%nat in
  stop ← item sections 1;
  actions ← parse_lines (Py.lslice start stop splitted) [];
  setattr "preflop_actions" (tuple_or_None actions).

(** [self._splitted.index(x, start)] *)
Definition index_of (x : string) (start : nat) : M nat :=
  splitted ← get_splitted;
  lift (or_raise ValueError (Py.index_from x start splitted)).

(** [_parse_flop] *)
Definition _parse_flop : M unit :=
  r ← try_except (Some <$> index_of "FLOP" 0) is_ValueError
                 (fun _ => mret None);
  match r with
  | None => setattr "flop" VNone
  | Some i =>
      let start := (i + 1)%nat in
      stop ← index_of "" start;
      splitted ← get_splitted;
      let floplines := Py.lslice start stop splitted in
      flop ← new_Street floplines;
      _ ← setattr "flop" (VStreet flop);
      setattr "flop_actions"
              (match actions flop with Some l => VActions l | None => VNone end)
  end.

(** [_parse_street(street)] *)
Definition _parse_street (street : string) : M unit :=
  let street_attr := Py.lower street +:+ "_actions" in
  try_except
    (i ← index_of (Py.upper street) 0;
     let start := (i + 2)%nat in
     stop ← index_of "" start;
     splitted ← get_splitted;
     let action_lines := Py.lslice start stop splitted in
     actions ← parse_lines action_lines [];
     setattr street_attr (tuple_or_None actions))
    is_ValueError
    (fun _ =>
       _ ← setattr street VNone;
       setattr street_attr VNone).

(** [_parse_showdown] *)
Definition _parse_showdown : M unit :=
  try_except
    (i ← index_of "SHOW DOWN" 0;
     let start := (i + 1)%nat in
     stop ← index_of "" start;
     splitted ← get_splitted;
     let action_lines := Py.lslice start stop splitted in
     actions ← parse_lines action_lines [];
     _ ← setattr "show_down" (VBool true);
     setattr "show_down_actions" (VActions actions))
    is_ValueError
    (fun _ =>
       _ ← setattr "show_down" (VBool false);
       setattr "show_down_actions" VNone).

(** [_parse_pot] *)
Definition _parse_pot : M unit :=
  splitted ← get_splitted;
  sections ← get_sections;
  last ← item sections (-1);
  potline ← item splitted (Z.of_nat last + 2);
  let match_ := Re.match_ _pot_re potline in
  g1 ← lift (group match_ "1");
  d ← lift (Decimal_of g1);
  setattr "total_pot" (VDecimal d).

(** [Card(cards[i]) if len(cards) > i else None] *)
Definition card_at (cards : list string) (i : nat) : M value :=
  match cards !! i with
  | Some c => VCard <$> lift (or_raise ValueError (Card c))
  | None => mret VNone
  end.

(** [_parse_board] *)
Definition _parse_board : M unit :=
  splitted ← get_splitted;
  sections ← get_sections;
  last ← item sections (-1);
  boardline ← item splitted (Z.of_nat last + 3);
  if negb (Py.startswith "Board" boardline) then mret tt
  else
    let cards := Re.findall _board_re "1" boardline in
    turn ← card_at cards 3;
    _ ← setattr "turn" turn;
    river ← card_at cards 4;
    setattr "river" river.

(** The loop of [_parse_winners]; [winners] is the set built so far. *)
Fixpoint winner_lines (show_down : M bool) (lines : list string)
    (winners : gset string) : M (gset string) :=
  match lines with
  | [] => mret winners
  | line :: lines' =>
      sd ← show_down;
      if negb sd && Py.contains "collected" line
      then
        n ← lift (group (Re.match_ _winner_re line) "name");
        winner_lines show_down lines' (winners ∪ {[default "" n]})
      else
        sd ← show_down;
        if sd && Py.contains "won" line
        then
          n ← lift (group (Re.match_ _showdown_re line) "name");
          winner_lines show_down lines' (winners ∪ {[default "" n]})
        else winner_lines show_down lines' winners
  end.

(** [_parse_winners] *)
Definition _parse_winners : M unit :=
  sections ← get_sections;
  last ← item sections (-1);
  let start := (last + 4)%nat in
  splitted ← get_splitted;
  winners ← winner_lines (get_bool "show_down") (List.skipn start splitted) ∅;
  setattr "winners" (VNames (elements winners)).

(** [parse] *)
Definition parse_ : M unit :=
  header_parsed ← get_bool "header_parsed";
  _ ← (if negb header_parsed then parse_header else mret tt);
  _ ← _parse_table;
  _ ← _parse_players;
  _ ← _parse_button;
  _ ← _parse_hero;
  _ ← _parse_preflop;
  _ ← _parse_flop;
  _ ← _parse_street "turn";
  _ ← _parse_street "river";
  _ ← _parse_showdown;
  _ ← _parse_pot;
  _ ← _parse_board;
  _ ← _parse_winners;
  _ ← _del_split_vars;
  setattr "parsed" (VBool true).

(** Modelled from the spec: the property [board] of the base class,
    not in this module: the "optional ordered 3-5 Cards", the flop's
    three and then the turn and the river when they are there; there
    is no board without a flop. *)
Definition board (h : gmap string value) : option (list CardT) :=
  match h !! "flop" with
  | Some (VStreet f) =>
      let '(c1, c2, c3) := cards f in
      Some ([c1; c2; c3] ++
            match h !! "turn" with
            | Some (VCard t) =>
                t :: match h !! "river" with
                     | Some (VCard r) => [r]
                     | _ => []
                     end
            | _ => []
            end)
  | _ => None
  end.

(** A fresh instance on [hand_text], with the logger as the world has
    it, and the run of [hh = PokerStarsHandHistory(text); hh.parse()]. *)
Definition fresh (hand_text : string) (level : Z) (logged : list string)
  : state :=
  State (new_hand hand_text) level logged.

Definition run_parse (hand_text : string) (level : Z) (logged : list string)
  : state * res unit :=
  parse_ (fresh hand_text level logged).

End HandHistory.

(** ** A concrete instance of the imported names

    Enough of [constants], [card] and [hand] to run the parser on hands
    like those of the test suite: the texts the tests use and the
    members they expect. *)

Module Demo.

Inductive action : Type :=
| FOLD | CHECK | CALL | BET | RAISE | POST
| A_SHOW | A_RETURN | A_REMOVED | A_WIN | A_MUCK | A_JOIN | A_LEAVE
| A_TIMED_OUT | A_DISCONNECTED | A_CONNECTED.

Definition one_of (table : list (string * action)) (s : string)
  : option action :=
  snd <$> List.find (fun e => String.eqb (fst e) s) table.

Definition action_of : string -> option action :=
  one_of [ ("folds", FOLD); ("fold", FOLD); ("checks", CHECK);
           ("calls", CALL); ("call", CALL); ("bets", BET);
           ("raises", RAISE); ("raise", RAISE); ("posts", POST) ].

Definition member (l : list string) (s : string) : option string :=
  if existsb (String.eqb s) l then Some s else None.

(** A card is its two characters, a rank and a suit. *)
Definition card (s : string) : option string :=
  match s with
  | String r (String u EmptyString) =>
      if existsb (Ascii.eqb r) (list_ascii_of_string "23456789TJQKA")
         && existsb (Ascii.eqb u) (list_ascii_of_string "cdhs")
      then Some s else None
  | _ => None
  end.

(** A combo is two or four cards, no card twice. *)
Definition combo_from_array (l : list string) : option (list string) :=
  if forallb (fun c => bool_decide (is_Some (card c))) l
     && bool_decide (NoDup l)
     && (Nat.eqb (List.length l) 2 || Nat.eqb (List.length l) 4)
  then Some l else None.

Global Instance externals : Externals := {|
  CardT := string;
  Card := card;
  ComboT := list string;
  Combo_from_array := combo_from_array;
  CurrencyT := string;
  Currency := member ["USD"; "EUR"; "GBP"; "SC"];
  GameT := string;
  Game := member ["Hold'em"; "Omaha"];
  LimitT := string;
  Limit := member ["No Limit"; "Pot Limit"; "Limit"];
  ActionT := action;
  Action := action_of;
  SHOW := A_SHOW;
  RETURN := A_RETURN;
  REMOVED := A_REMOVED;
  WIN := A_WIN;
  MUCK := A_MUCK;
  JOIN := A_JOIN;
  LEAVE := A_LEAVE;
  TIMED_OUT := A_TIMED_OUT;
  DISCONNECTED := A_DISCONNECTED;
  CONNECTED := A_CONNECTED;
  DateT := string;
  strptime := Some;
|}.

(** A tournament hand that ends on the flop, as the first hand of the
    test suite does. *)
Definition flop_hand : string := "
PokerStars Hand #105024000105: Tournament #797469411, $3.19+$0.31 USD Hold'em No Limit - Level I (10/20) - 2013/10/04 19:53:27 CET [2013/10/04 13:53:27 ET]
Table '797469411 15' 9-max Seat #1 is the button
Seat 1: flettl2 (1500 in chips)
Seat 2: santy312 (3000 in chips)
Seat 3: flavio766 (3000 in chips)
Seat 4: strongi82 (3000 in chips)
Seat 5: W2lkm2n (3000 in chips)
Seat 6: MISTRPerfect (3000 in chips)
Seat 7: blak_douglas (3000 in chips)
Seat 8: sinus91 (1500 in chips) is sitting out
Seat 9: STBIJUJA (1500 in chips)
santy312: posts small blind 10
flavio766: posts big blind 20
*** HOLE CARDS ***
Dealt to W2lkm2n [Ac Jh]
strongi82: folds
W2lkm2n: raises 40 to 60
MISTRPerfect: calls 60
blak_douglas: folds
sinus91: folds
STBIJUJA: folds
flettl2: folds
santy312: folds
flavio766: folds
*** FLOP *** [2s 6d 6h]
W2lkm2n: bets 80
MISTRPerfect: folds
Uncalled bet (80) returned to W2lkm2n
W2lkm2n collected 150 from pot
W2lkm2n: doesn't show hand
*** SUMMARY ***
Total pot 150 | Rake 0
Board [2s 6d 6h]
Seat 1: flettl2 (button) folded before Flop (didn't bet)
Seat 2: santy312 (small blind) folded before Flop
Seat 3: flavio766 (big blind) folded before Flop
Seat 4: strongi82 folded before Flop (didn't bet)
Seat 5: W2lkm2n collected (150)
Seat 6: MISTRPerfect folded on the Flop
Seat 7: blak_douglas folded before Flop (didn't bet)
Seat 8: sinus91 folded before Flop (didn't bet)
Seat 9: STBIJUJA folded before Flop (didn't bet)
".

(** A cash-game hand that ends before the flop; the second seat wins. *)
Definition cash_hand : string := "
PokerStars Hand #107030112846: Hold'em No Limit ($0.01/$0.02 USD) - 2013/11/15 9:03:10 AWST [2013/11/14 20:03:10 ET]
Table 'Bellona II' 2-max Seat #1 is the button
Seat 1: alice ($2 in chips)
Seat 2: bob ($2.50 in chips)
alice: posts small blind $0.01
bob: posts big blind $0.02
*** HOLE CARDS ***
Dealt to alice [Ac Jh]
alice: raises $0.04 to $0.06
bob: raises $0.12 to $0.18
alice: folds
Uncalled bet ($0.12) returned to bob
bob collected $0.11 from pot
bob: doesn't show hand
*** SUMMARY ***
Total pot $0.12 | Rake $0.01
Seat 1: alice (button) (small blind) folded before Flop
Seat 2: bob (big blind) collected ($0.11)
".

(** The same kind of hand where the first seat wins: with no board
    line, its summary line stands where the board line would. *)
Definition first_seat_wins : string := "
PokerStars Hand #107030112847: Hold'em No Limit ($0.01/$0.02 USD) - 2013/11/15 9:04:10 AWST [2013/11/14 20:04:10 ET]
Table 'Bellona II' 2-max Seat #2 is the button
Seat 1: alice ($2 in chips)
Seat 2: bob ($2.50 in chips)
bob: posts small blind $0.01
alice: posts big blind $0.02
*** HOLE CARDS ***
Dealt to alice [Ac Jh]
bob: raises $0.04 to $0.06
alice: raises $0.12 to $0.18
bob: folds
Uncalled bet ($0.12) returned to alice
alice collected $0.12 from pot
alice: doesn't show hand
*** SUMMARY ***
Total pot $0.12 | Rake $0
Seat 1: alice (big blind) collected ($0.12)
Seat 2: bob (button) (small blind) folded before Flop
".

(** [cash_hand] with a line the classifier does not know among the
    preflop actions. *)
Definition chat_line : string := "alice said hello".

Definition cash_hand_with_chat : string := "
PokerStars Hand #107030112846: Hold'em No Limit ($0.01/$0.02 USD) - 2013/11/15 9:03:10 AWST [2013/11/14 20:03:10 ET]
Table 'Bellona II' 2-max Seat #1 is the button
Seat 1: alice ($2 in chips)
Seat 2: bob ($2.50 in chips)
alice: posts small blind $0.01
bob: posts big blind $0.02
*** HOLE CARDS ***
Dealt to alice [Ac Jh]
alice: raises $0.04 to $0.06
alice said hello
bob: raises $0.12 to $0.18
alice: folds
Uncalled bet ($0.12) returned to bob
bob collected $0.11 from pot
bob: doesn't show hand
*** SUMMARY ***
Total pot $0.12 | Rake $0.01
Seat 1: alice (button) (small blind) folded before Flop
Seat 2: bob (big blind) collected ($0.11)
".

(** [cash_hand] with a line that reads as the name of a marker among
    the preflop actions. *)
Definition cash_hand_with_marker_name : string := "
PokerStars Hand #107030112846: Hold'em No Limit ($0.01/$0.02 USD) - 2013/11/15 9:03:10 AWST [2013/11/14 20:03:10 ET]
Table 'Bellona II' 2-max Seat #1 is the button
Seat 1: alice ($2 in chips)
Seat 2: bob ($2.50 in chips)
alice: posts small blind $0.01
bob: posts big blind $0.02
*** HOLE CARDS ***
Dealt to alice [Ac Jh]
alice: raises $0.04 to $0.06
TURN
bob: raises $0.12 to $0.18
alice: folds
Uncalled bet ($0.12) returned to bob
bob collected $0.11 from pot
bob: doesn't show hand
*** SUMMARY ***
Total pot $0.12 | Rake $0.01
Seat 1: alice (button) (small blind) folded before Flop
Seat 2: bob (big blind) collected ($0.11)
".

(** A text with a turn but no flop marker. *)
Definition turn_without_flop : string := "
PokerStars Hand #107030112848: Hold'em No Limit ($0.01/$0.02 USD) - 2013/11/15 9:05:10 AWST [2013/11/14 20:05:10 ET]
Table 'Bellona II' 2-max Seat #1 is the button
Seat 1: alice ($2 in chips)
Seat 2: bob ($2.50 in chips)
alice: posts small blind $0.01
bob: posts big blind $0.02
*** HOLE CARDS ***
Dealt to alice [Ac Jh]
alice: calls $0.01
bob: checks
*** TURN *** [2s 6d 6h] [Kc]
bob: checks
alice: checks
*** SUMMARY ***
Total pot $0.04 | Rake $0
Board [2s 6d 6h Kc]
Seat 1: alice (button) (small blind) folded before Flop
Seat 2: bob (big blind) collected ($0.04)
".

(** Two seats under one name, the second on the button. *)
Definition same_name_twice : string := "
PokerStars Hand #107030112849: Hold'em No Limit ($0.01/$0.02 USD) - 2013/11/15 9:06:10 AWST [2013/11/14 20:06:10 ET]
Table 'Bellona II' 2-max Seat #2 is the button
Seat 1: bob ($2 in chips)
Seat 2: bob ($2.50 in chips)
bob: posts small blind $0.01
bob: posts big blind $0.02
*** HOLE CARDS ***
Dealt to bob [Ac Jh]
bob: folds
Uncalled bet ($0.01) returned to bob
bob collected $0.02 from pot
*** SUMMARY ***
Total pot $0.02 | Rake $0
Seat 1: bob (big blind) collected ($0.02)
Seat 2: bob (button) (small blind) folded before Flop
".

End Demo.

(** * Properties *)

(** ** The action classifier *)

Section ClassifierProperties.
Context `{Externals}.

Lemma find_first {A} (P : A -> bool) (l : list A) (i : nat) (x : A) :
  l !! i = Some x ->
  P x = true ->
  (forall j y, (j < i)%nat -> l !! j = Some y -> P y = false) ->
  List.find P l = Some x.
Proof.
  revert i. induction l as [|y l IH]; intros i Hi Hx Hbefore.
  - destruct i; discriminate.
  - destruct i as [|i]; simpl in *.
    + injection Hi as ->. now rewrite Hx.
    + rewrite (Hbefore O y) by (lia || reflexivity).
      apply (IH i); auto.
      intros j z Hj Hz. apply (Hbefore (S j) z); [lia | exact Hz].
Qed.

Lemma find_none {A} (P : A -> bool) (l : list A) :
  (forall x, In x l -> P x = false) -> List.find P l = None.
Proof.
  induction l as [|y l IH]; intros Hall; simpl; [reflexivity|].
  rewrite (Hall y) by now left.
  apply IH. intros x Hx. apply Hall. now right.
Qed.

(** The substrings of the table, in the order [parse] tries them. *)
Lemma parse_methods_keys :
  List.map fst parse_methods =
  [ "Uncalled bet"; " collected "; " doesn't show hand"; "mucks hand";
    "joins the table"; "leaves the table"; "has timed out";
    "is connected"; "is disconnected"; "was removed"; " shows "; ": " ].
Proof. reflexivity. Qed.


(** A line in which no substring of the table occurs is an unknown
    action. *)
Lemma parse_no_match (action_str : string) :
  (forall sub, In sub (List.map fst parse_methods) ->
     Py.contains sub action_str = false) ->
  parse action_str = Raise (UnknownActionError action_str).
Proof.
  intros Hnone. unfold parse, first_method.
  rewrite find_none; [reflexivity|].
  intros [sub f] Hin. simpl. apply Hnone.
  change sub with (fst (sub, f)). now apply in_map.
Qed.

(** Only a line without any of the substrings is an unknown action:
    no method of the table raises [StopIteration]. *)
Lemma method_not_StopIteration (sub : string) (f : string -> res parsed)
    (line : string) :
  In (sub, f) parse_methods -> f line <> Raise StopIteration.
Proof.
  intros Hin. simpl in Hin.
  repeat (destruct Hin as [Hin|Hin]; [injection Hin as <- <-|]);
    try contradiction;
    unfold _parse_uncalled, _parse_collected, _parse_muck, _parse_join_table,
      _parse_leave_table, _parse_timed_out, _parse_connected,
      _parse_disconnected, _parse_removed, _parse_show, _parse_player_action,
      group, Decimal_of, str_index, or_raise, mbind, res_bind, mret, res_ret;
    repeat case_match; congruence.
Qed.

(** What the first eleven entries return when they succeed: the
    action fixed by the entry. *)
Definition entry_action (i : nat) : option ActionT :=
  [ RETURN; WIN; MUCK; MUCK; JOIN; LEAVE; TIMED_OUT; CONNECTED;
    DISCONNECTED; REMOVED; SHOW ] !! i.

Lemma parse_methods_action (i : nat) (sub : string)
    (f : string -> res parsed) (line name : string) (a : ActionT)
    (v : payload) :
  parse_methods !! i = Some (sub, f) ->
  (i < 11)%nat ->
  f line = Ok (name, a, v) ->
  entry_action i = Some a.
Proof.
  intros Hi Hlt Hf.
  do 11 (destruct i as [|i];
         [injection Hi as <- <-;
          unfold _parse_uncalled, _parse_collected, _parse_muck,
            _parse_join_table, _parse_leave_table, _parse_timed_out,
            _parse_connected, _parse_disconnected, _parse_removed,
            _parse_show, group, Decimal_of, str_index, or_raise,
            mbind, res_bind, mret, res_ret in Hf;
          repeat case_match; simplify_eq; reflexivity|]).
  lia.
Qed.

End ClassifierProperties.

(** ** Reasoning about the methods *)

Section MonadLaws.
Context `{Externals}.

Lemma bind_eq {A B} (m : M A) (f : A -> M B) (s : state) :
  (m ≫= f) s =
  match m s with
  | (s', Ok a) => f a s'
  | (s', Raise e) => (s', Raise e)
  end.
Proof. reflexivity. Qed.

Lemma bind_ok {A B} (m : M A) (f : A -> M B) (s t : state) (b : B) :
  (m ≫= f) s = (t, Ok b) ->
  exists s' a, m s = (s', Ok a) /\ f a s' = (t, Ok b).
Proof.
  rewrite bind_eq. destruct (m s) as [s' [a|e]]; [eauto | discriminate].
Qed.

Lemma bind_run {A B} (m : M A) (f : A -> M B) (s s' : state) (a : A) :
  m s = (s', Ok a) -> (m ≫= f) s = f a s'.
Proof. intros E. now rewrite bind_eq, E. Qed.

Lemma bind_raise {A B} (m : M A) (f : A -> M B) (s s' : state) (e : exn) :
  m s = (s', Raise e) -> (m ≫= f) s = (s', Raise e).
Proof. intros E. now rewrite bind_eq, E. Qed.

(** Running one step of a method on a given state. *)
Lemma bind_assoc_run {A B C} (m : M A) (f : A -> M B) (g : B -> M C)
    (s : state) :
  ((m ≫= f) ≫= g) s = (m ≫= (fun a => f a ≫= g)) s.
Proof. rewrite !bind_eq. now destruct (m s) as [s' [a|e]]. Qed.

Lemma ret_run {A B} (a : A) (f : A -> M B) (s : state) :
  (mret a ≫= f) s = f a s.
Proof. reflexivity. Qed.

Lemma raise_run {A B} (e : exn) (f : A -> M B) (s : state) :
  (raise e ≫= f) s = (s, Raise e).
Proof. reflexivity. Qed.

Lemma lift_run {A B} (r : res A) (f : A -> M B) (s : state) :
  (lift r ≫= f) s =
  match r with Ok a => f a s | Raise e => (s, Raise e) end.
Proof. reflexivity. Qed.

Lemma setattr_run {B} (attr : string) (v : value) (f : unit -> M B)
    (s : state) :
  (setattr attr v ≫= f) s =
  f tt (State (<[attr := v]> (self s)) (logger_level s) (logged s)).
Proof. reflexivity. Qed.

Lemma getattr_run {B} (attr : string) (v : value) (f : value -> M B)
    (s : state) :
  self s !! attr = Some v -> (getattr attr ≫= f) s = f v s.
Proof. intros E. rewrite bind_eq. unfold getattr. now rewrite E. Qed.

Lemma getattr_end (attr : string) (v : value) (s : state) :
  self s !! attr = Some v -> getattr attr s = (s, Ok v).
Proof. intros E. unfold getattr. now rewrite E. Qed.

(** *** The result does not depend on the logger

    Two states [agree] when the instance is the same in both; the
    logger may differ. *)
Definition agree (s s' : state) : Prop := self s = self s'.

Definition oblivious {A} (m : M A) : Prop :=
  forall s s', agree s s' ->
    agree (fst (m s)) (fst (m s')) /\ snd (m s) = snd (m s').

Lemma oblivious_ret {A} (a : A) : oblivious (mret a).
Proof. intros s s' E. now split. Qed.

Lemma oblivious_raise {A} (e : exn) : oblivious (@raise _ A e).
Proof. intros s s' E. now split. Qed.

Lemma oblivious_lift {A} (r : res A) : oblivious (lift r).
Proof. intros s s' E. now split. Qed.

Lemma oblivious_bind {A B} (m : M A) (f : A -> M B) :
  oblivious m -> (forall a, oblivious (f a)) -> oblivious (m ≫= f).
Proof.
  intros Hm Hf s s' E. rewrite !bind_eq.
  destruct (Hm s s' E) as [E1 E2].
  destruct (m s) as [t [a|e]], (m s') as [t' [a'|e']];
    simpl in *; try discriminate.
  - injection E2 as <-. now apply Hf.
  - injection E2 as <-. now split.
Qed.

Lemma oblivious_fmap {A B} (g : A -> B) (m : M A) :
  oblivious m -> oblivious (g <$> m).
Proof.
  intros Hm s s' E. unfold fmap, M_fmap.
  destruct (Hm s s' E) as [E1 E2].
  destruct (m s) as [t [a|e]], (m s') as [t' [a'|e']];
    simpl in *; try discriminate; split; congruence.
Qed.

Lemma oblivious_try_except {A} (m : M A) (handles : exn -> bool)
    (h : exn -> M A) :
  oblivious m -> (forall e, oblivious (h e)) ->
  oblivious (try_except m handles h).
Proof.
  intros Hm Hh s s' E. unfold try_except.
  destruct (Hm s s' E) as [E1 E2].
  destruct (m s) as [t [a|e]], (m s') as [t' [a'|e']];
    simpl in *; try discriminate.
  - now split.
  - injection E2 as <-. destruct (handles e); [now apply Hh | now split].
Qed.

Lemma oblivious_setattr (attr : string) (v : value) :
  oblivious (setattr attr v).
Proof. intros s s' E. unfold agree in *. simpl. now rewrite E. Qed.

Lemma oblivious_getattr (attr : string) : oblivious (getattr attr).
Proof. intros s s' E. unfold agree in *. simpl. now rewrite E. Qed.

Lemma oblivious_delattr (attr : string) : oblivious (delattr attr).
Proof.
  intros s s' E. unfold agree, delattr in *. rewrite E.
  destruct (self s' !! attr); simpl; now split.
Qed.

Lemma oblivious_warning (msg : string) : oblivious (warning msg).
Proof.
  intros s s' E. unfold agree, warning in *.
  destruct (logger_level s <=? WARNING), (logger_level s' <=? WARNING);
    now split.
Qed.

(** *** The attributes a method writes *)

Definition writes {A} (m : M A) (attrs : list string) : Prop :=
  forall s k, k ∉ attrs -> self (fst (m s)) !! k = self s !! k.

Lemma writes_ret {A} (a : A) attrs : writes (mret a) attrs.
Proof. now intros s k Hk. Qed.

Lemma writes_raise {A} (e : exn) attrs : writes (@raise _ A e) attrs.
Proof. now intros s k Hk. Qed.

Lemma writes_lift {A} (r : res A) attrs : writes (lift r) attrs.
Proof. now intros s k Hk. Qed.

Lemma writes_bind {A B} (m : M A) (f : A -> M B) attrs :
  writes m attrs -> (forall a, writes (f a) attrs) ->
  writes (m ≫= f) attrs.
Proof.
  intros Hm Hf s k Hk. rewrite bind_eq.
  specialize (Hm s k Hk).
  destruct (m s) as [t [a|e]]; simpl in *; [|exact Hm].
  now rewrite (Hf a t k Hk).
Qed.

Lemma writes_fmap {A B} (g : A -> B) (m : M A) attrs :
  writes m attrs -> writes (g <$> m) attrs.
Proof.
  intros Hm s k Hk. specialize (Hm s k Hk). unfold fmap, M_fmap.
  now destruct (m s) as [t [a|e]].
Qed.

Lemma writes_try_except {A} (m : M A) (handles : exn -> bool)
    (h : exn -> M A) attrs :
  writes m attrs -> (forall e, writes (h e) attrs) ->
  writes (try_except m handles h) attrs.
Proof.
  intros Hm Hh s k Hk. unfold try_except.
  specialize (Hm s k Hk).
  destruct (m s) as [t [a|e]]; simpl in *; [exact Hm|].
  destruct (handles e); [|exact Hm].
  now rewrite (Hh e t k Hk).
Qed.

Lemma writes_setattr (attr : string) (v : value) attrs :
  attr ∈ attrs -> writes (setattr attr v) attrs.
Proof.
  intros Hin s k Hk. simpl. apply lookup_insert_ne. now intros ->.
Qed.

Lemma writes_getattr (attr : string) attrs : writes (getattr attr) attrs.
Proof. now intros s k Hk. Qed.

Lemma writes_delattr (attr : string) attrs :
  attr ∈ attrs -> writes (delattr attr) attrs.
Proof.
  intros Hin s k Hk. unfold delattr.
  destruct (self s !! attr); simpl; [|reflexivity].
  apply lookup_delete_ne. now intros ->.
Qed.

Lemma writes_warning (msg : string) attrs : writes (warning msg) attrs.
Proof.
  intros s k Hk. unfold warning. now destruct (logger_level s <=? WARNING).
Qed.

End MonadLaws.

(** Both judgements are proved by following the structure of the
    method. *)
Ltac step_method rules :=
  first
    [ progress intros
    | rules
    | match goal with
      | |- _ (match ?x with _ => _ end) => destruct x
      | |- _ (match ?x with _ => _ end) _ => destruct x
      | |- _ (match ?x with _ => _ end _) => destruct x
      | |- _ (match ?x with _ => _ end _) _ => destruct x
      | |- _ (if ?x then _ else _) => destruct x
      | |- _ (if ?x then _ else _) _ => destruct x
      | |- _ (let _ := _ in _) => cbv zeta
      | |- _ (let _ := _ in _) _ => cbv zeta
      end ].

Ltac oblivious_rules :=
  first
    [ solve [auto 1 with methods nocore]
    | apply oblivious_bind | apply oblivious_ret | apply oblivious_raise
    | apply oblivious_lift | apply oblivious_fmap | apply oblivious_try_except
    | apply oblivious_setattr | apply oblivious_getattr
    | apply oblivious_delattr | apply oblivious_warning
    | assumption ].

Ltac oblivious_tac := repeat step_method oblivious_rules.

Ltac writes_rules :=
  first
    [ solve [auto 1 with methods nocore]
    | apply writes_bind | apply writes_ret | apply writes_raise
    | apply writes_lift | apply writes_fmap | apply writes_try_except
    | apply writes_setattr; set_solver | apply writes_getattr
    | apply writes_delattr; set_solver | apply writes_warning
    | assumption ].

Ltac writes_tac := repeat step_method writes_rules.

(** Symbolic execution of a method on a state whose attributes are
    known by name. *)
Ltac lookup_attr :=
  cbn [self];
  rewrite ?lookup_insert_ne by (let X := fresh in intros X; discriminate X);
  first [ apply lookup_insert_eq | eassumption ].

Ltac mrun_step :=
  first
    [ progress cbn [self logger_level logged or_raise group]
    | rewrite bind_assoc_run
    | rewrite setattr_run
    | rewrite ret_run
    | rewrite raise_run
    | rewrite lift_run
    | erewrite getattr_run by lookup_attr ].

Ltac mrun := repeat mrun_step.

Create HintDb methods discriminated.

Section MethodFacts.
Context `{Externals}.

Lemma oblivious_get_splitted : oblivious get_splitted.
Proof. unfold get_splitted. oblivious_tac. Qed.
Lemma oblivious_get_sections : oblivious get_sections.
Proof. unfold get_sections. oblivious_tac. Qed.
Lemma oblivious_get_players : oblivious get_players.
Proof. unfold get_players. oblivious_tac. Qed.
Lemma oblivious_get_table_match : oblivious get_table_match.
Proof. unfold get_table_match. oblivious_tac. Qed.
Lemma oblivious_get_bool attr : oblivious (get_bool attr).
Proof. unfold get_bool. oblivious_tac. Qed.
Lemma oblivious_item {A} (l : list A) i : oblivious (item l i).
Proof. unfold item. oblivious_tac. Qed.
Lemma oblivious_index_of x start : oblivious (index_of x start).
Proof. unfold index_of. oblivious_tac. Qed.

Hint Resolve oblivious_get_splitted oblivious_get_sections
  oblivious_get_players oblivious_get_table_match oblivious_get_bool
  oblivious_item oblivious_index_of : methods.

Lemma oblivious_parse_lines lines acc : oblivious (parse_lines lines acc).
Proof.
  revert acc. induction lines as [|l lines IH]; intros acc; simpl;
    oblivious_tac; apply IH.
Qed.
Hint Resolve oblivious_parse_lines : methods.

Lemma oblivious_new_Street lines : oblivious (new_Street lines).
Proof.
  unfold new_Street, Street_parse_actions. oblivious_tac; auto with methods.
Qed.
Hint Resolve oblivious_new_Street : methods.

Lemma oblivious_seat_lines lines : oblivious (seat_lines lines).
Proof.
  induction lines as [|l lines IH]; simpl; oblivious_tac; auto with methods.
Qed.
Hint Resolve oblivious_seat_lines : methods.

Lemma oblivious_winner_lines lines winners :
  oblivious (winner_lines (get_bool "show_down") lines winners).
Proof.
  revert winners. induction lines as [|l lines IH]; intros winners; simpl;
    oblivious_tac; auto with methods.
Qed.
Hint Resolve oblivious_winner_lines : methods.

Lemma oblivious_parse_header : oblivious parse_header.
Proof.
  unfold parse_header, header_ident_blinds, header_game_type, header_currency,
    header_game_limit_date, _split_raw, _parse_date, setitem_extra.
  oblivious_tac; auto with methods.
Qed.

Lemma oblivious_parse_table : oblivious _parse_table.
Proof. unfold _parse_table. oblivious_tac; auto with methods. Qed.

Lemma oblivious_parse_players : oblivious _parse_players.
Proof. unfold _parse_players. oblivious_tac; auto with methods. Qed.

Lemma oblivious_parse_button : oblivious _parse_button.
Proof. unfold _parse_button. oblivious_tac; auto with methods. Qed.

Lemma oblivious_parse_hero : oblivious _parse_hero.
Proof.
  unfold _parse_hero, _get_hero_from_players.
  oblivious_tac; auto with methods.
Qed.

Lemma oblivious_parse_preflop : oblivious _parse_preflop.
Proof. unfold _parse_preflop. oblivious_tac; auto with methods. Qed.

Lemma oblivious_parse_flop : oblivious _parse_flop.
Proof. unfold _parse_flop. oblivious_tac; auto with methods. Qed.

Lemma oblivious_parse_street street : oblivious (_parse_street street).
Proof. unfold _parse_street. oblivious_tac; auto with methods. Qed.

Lemma oblivious_parse_showdown : oblivious _parse_showdown.
Proof. unfold _parse_showdown. oblivious_tac; auto with methods. Qed.

Lemma oblivious_parse_pot : oblivious _parse_pot.
Proof. unfold _parse_pot. oblivious_tac; auto with methods. Qed.

Lemma oblivious_parse_board : oblivious _parse_board.
Proof. unfold _parse_board, card_at. oblivious_tac; auto with methods. Qed.

Lemma oblivious_parse_winners : oblivious _parse_winners.
Proof. unfold _parse_winners. oblivious_tac; auto with methods. Qed.

Hint Resolve oblivious_parse_header oblivious_parse_table
  oblivious_parse_players oblivious_parse_button oblivious_parse_hero
  oblivious_parse_preflop oblivious_parse_flop oblivious_parse_street
  oblivious_parse_showdown oblivious_parse_pot oblivious_parse_board
  oblivious_parse_winners : methods.

Lemma oblivious_parse : oblivious parse_.
Proof.
  unfold parse_, _del_split_vars. oblivious_tac; auto with methods.
Qed.

(** C9.  The full parse is repeatable: two runs on fresh instances of
    the same text, whatever the logger holds at either time, end with
    the same outcome and instances equal attribute for attribute. *)
Theorem parse_deterministic (hand_text : string)
    (level level' : Z) (logged logged' : list string) :
  snd (run_parse hand_text level logged)
    = snd (run_parse hand_text level' logged')
  /\ self (fst (run_parse hand_text level logged))
    = self (fst (run_parse hand_text level' logged')).
Proof.
  destruct (oblivious_parse (fresh hand_text level logged)
                            (fresh hand_text level' logged'))
    as [E1 E2]; [reflexivity|].
  split; assumption.
Qed.

End MethodFacts.

(** ** The header *)

(** The attributes [parse_header] assigns from the header line. *)
Definition header_fields : list string :=
  [ "ident"; "sb"; "bb"; "game_type"; "tournament_ident"; "tournament_level";
    "buyin"; "rake"; "currency"; "game"; "limit"; "date" ].

Section HeaderFailure.
Context `{Externals}.

(** The instance after [_split_raw] and [self.extra = dict()]. *)
Definition after_split (hand_text : string) : gmap string value :=
  let splitted := Re.split _split_re (Py.strip hand_text) in
  <["extra" := VDict ∅]>
    (<["_sections" := VIndices (sections_of splitted)]>
       (<["_splitted" := VStrings splitted]> (new_hand hand_text))).

Lemma parse_header_no_match_run (hand_text line : string)
    (level : Z) (lg : list string) :
  head (Re.split _split_re (Py.strip hand_text)) = Some line ->
  Re.match_ _header_re line = None ->
  parse_header (fresh hand_text level lg)
  = (State (after_split hand_text) level lg, Raise AttributeError).
Proof.
  intros Hline Hno.
  unfold parse_header, header_ident_blinds, fresh, after_split, _split_raw,
    get_splitted, item.
  unfold new_hand. mrun.
  destruct (Re.split _split_re (Py.strip hand_text)) as [|l sp] eqn:Esp;
    [discriminate|].
  injection Hline as ->.
  change (Py.getitem (line :: sp) 0) with (Some line).
  mrun. rewrite Hno. reflexivity.
Qed.

Lemma after_split_lookup (hand_text k : string) :
  k ∉ ["extra"; "_sections"; "_splitted"; "raw"; "header_parsed"; "parsed"] ->
  after_split hand_text !! k = None.
Proof.
  intros Hk. unfold after_split, new_hand.
  rewrite !lookup_insert_ne
    by (intros <-; apply Hk; apply (bool_decide_unpack _); vm_compute; exact I).
  apply lookup_empty.
Qed.

(** C7.  When the first line of the text is not matched by the header
    pattern, [parse_header] raises (the [AttributeError] of
    [match.group] on the failed match is the header-format error), and
    so does the full parse, which goes no further; the instance then
    carries an empty [extra] and the split text but none of the header
    fields, and neither phase is marked done. *)
Theorem header_mismatch_fails (hand_text line : string)
    (level : Z) (lg : list string) :
  head (Re.split _split_re (Py.strip hand_text)) = Some line ->
  Re.match_ _header_re line = None ->
  parse_header (fresh hand_text level lg)
    = (State (after_split hand_text) level lg, Raise AttributeError)
  /\ run_parse hand_text level lg
    = (State (after_split hand_text) level lg, Raise AttributeError)
  /\ (forall k, k ∈ header_fields -> after_split hand_text !! k = None)
  /\ after_split hand_text !! "extra" = Some (VDict ∅)
  /\ after_split hand_text !! "header_parsed" = Some (VBool false)
  /\ after_split hand_text !! "parsed" = Some (VBool false).
Proof.
  intros Hline Hno.
  pose proof (parse_header_no_match_run hand_text line level lg Hline Hno)
    as Hrun.
  repeat split.
  - exact Hrun.
  - unfold run_parse, parse_, get_bool.
    rewrite bind_assoc_run.
    erewrite getattr_run by (unfold fresh, new_hand; lookup_attr).
    cbv beta iota. rewrite ret_run. cbn [negb].
    rewrite (bind_raise _ _ _ _ _ Hrun). reflexivity.
  - intros k Hk. apply after_split_lookup.
    unfold header_fields in Hk.
    repeat (apply elem_of_cons in Hk as [->|Hk];
            [apply (bool_decide_unpack _); vm_compute; exact I|]).
    now apply elem_of_nil in Hk.
Qed.

End HeaderFailure.

(** ** What a match says about the text

    The matcher is related to two declarative readings of a pattern:
    [accepts r p q], a run of [r] from position [p] to position [q],
    and [lang r t], the text [t] is in the language of [r] (assertions
    read as the empty word).  The matcher only ever returns accepted
    runs, and a run only stores in a group a text of the group's
    body. *)

Inductive accepts : regex -> pos -> pos -> Prop :=
| acc_eps p : accepts Eps p p
| acc_sym cs a s' p :
    rest p = String a s' -> cset_mem cs a = true ->
    accepts (Sym cs) p (Pos (Some a) s' (groups p))
| acc_cat r1 r2 p q u :
    accepts r1 p q -> accepts r2 q u -> accepts (Cat r1 r2) p u
| acc_alt_l r1 r2 p q : accepts r1 p q -> accepts (Alt r1 r2) p q
| acc_alt_r r1 r2 p q : accepts r2 p q -> accepts (Alt r1 r2) p q
| acc_star_nil g r p : accepts (Star g r) p p
| acc_star_cons g r p q u :
    accepts r p q ->
    (String.length (rest q) < String.length (rest p))%nat ->
    accepts (Star g r) q u ->
    accepts (Star g r) p u
| acc_group name r p q :
    accepts r p q ->
    accepts (Group name r) p
            (Pos (prev q) (rest q)
                 (<[name := consumed (rest p) (rest q)]> (groups q)))
| acc_bol p : prev p = None -> accepts Bol p p
| acc_eol p :
    rest p = EmptyString \/ rest p = String "010" EmptyString ->
    accepts Eol p p
| acc_wordb p :
    at_word (prev p) <> at_word (next (rest p)) -> accepts WordB p p
| acc_ahead cs a s' p :
    rest p = String a s' -> cset_mem cs a = true -> accepts (Ahead cs) p p
| acc_behind cs a p :
    prev p = Some a -> cset_mem cs a = true -> accepts (Behind cs) p p.

Inductive lang : regex -> string -> Prop :=
| lang_eps : lang Eps EmptyString
| lang_sym cs a : cset_mem cs a = true -> lang (Sym cs) (String a EmptyString)
| lang_cat r1 r2 t1 t2 :
    lang r1 t1 -> lang r2 t2 -> lang (Cat r1 r2) (t1 +:+ t2)
| lang_alt_l r1 r2 t : lang r1 t -> lang (Alt r1 r2) t
| lang_alt_r r1 r2 t : lang r2 t -> lang (Alt r1 r2) t
| lang_star_nil g r : lang (Star g r) EmptyString
| lang_star_cons g r t1 t2 :
    lang r t1 -> lang (Star g r) t2 -> lang (Star g r) (t1 +:+ t2)
| lang_group name r t : lang r t -> lang (Group name r) t
| lang_bol : lang Bol EmptyString
| lang_eol : lang Eol EmptyString
| lang_wordb : lang WordB EmptyString
| lang_ahead cs : lang (Ahead cs) EmptyString
| lang_behind cs : lang (Behind cs) EmptyString.

(** The bodies of the groups of [r] named [n]. *)
Fixpoint bodies (n : string) (r : regex) : list regex :=
  match r with
  | Cat r1 r2 | Alt r1 r2 => bodies n r1 ++ bodies n r2
  | Star _ r1 => bodies n r1
  | Group m r1 => (if String.eqb m n then [r1] else []) ++ bodies n r1
  | _ => []
  end.

(** The sets of groups a run of [r] can fill, one per way through its
    alternatives; repeated sub-patterns are taken to hold no group
    ([star_free] checks it). *)
Fixpoint shapes (r : regex) : list (list string) :=
  match r with
  | Cat r1 r2 =>
      List.flat_map (fun s1 => List.map (fun s2 => s1 ++ s2) (shapes r2))
                    (shapes r1)
  | Alt r1 r2 => shapes r1 ++ shapes r2
  | Group m r1 => List.map (cons m) (shapes r1)
  | _ => [[]]
  end.

Fixpoint group_names (r : regex) : list string :=
  match r with
  | Cat r1 r2 | Alt r1 r2 => group_names r1 ++ group_names r2
  | Star _ r1 => group_names r1
  | Group m r1 => m :: group_names r1
  | _ => []
  end.

Fixpoint star_free (r : regex) : bool :=
  match r with
  | Cat r1 r2 | Alt r1 r2 => star_free r1 && star_free r2
  | Star _ r1 => match group_names r1 with [] => true | _ => false end
  | Group _ r1 => star_free r1
  | _ => true
  end.

Section MatcherSoundness.

Lemma run_star_sound {R} (g : greed) (r1 : regex) (k : pos -> option R)
    (x : R)
    (IH : forall (k : pos -> option R) p, run r1 k p = Some x ->
          exists q, accepts r1 p q /\ k q = Some x) :
  forall p, run (Star g r1) k p = Some x ->
  exists q, accepts (Star g r1) p q /\ k q = Some x.
Proof.
  intros p. simpl. generalize (String.length (rest p)) as fuel.
  intros fuel. revert p.
  induction fuel as [|fuel IHfuel]; intros p Hrun.
  - destruct g; simpl in Hrun.
    + exists p. split; [constructor | exact Hrun].
    + destruct (k p) eqn:Ek; [|discriminate].
      exists p. split; [constructor | congruence].
  - assert (Hagain :
      run r1 (fun p' =>
                if (String.length (rest p') <? String.length (rest p))%nat
                then (fix loop (fuel : nat) (p : pos) {struct fuel} : option R :=
                        let again (_ : unit) :=
                          match fuel with
                          | O => None
                          | S fuel' =>
                              run r1 (fun p' =>
                                        if (String.length (rest p') <? String.length (rest p))%nat
                                        then loop fuel' p' else None) p
                          end in
                        match g with
                        | Greedy =>
                            match again tt with Some x => Some x | None => k p end
                        | Lazy =>
                            match k p with Some x => Some x | None => again tt end
                        end) fuel p'
                else None) p = Some x ->
      exists q, accepts (Star g r1) p q /\ k q = Some x).
    { intros Hr. apply IH in Hr as (q1 & Hacc & Hk).
      destruct (String.length (rest q1) <? String.length (rest p))%nat eqn:Elt;
        [|discriminate].
      apply IHfuel in Hk as (q & Hstar & Hq).
      exists q. split; [|exact Hq].
      eapply acc_star_cons; eauto. now apply Nat.ltb_lt. }
    destruct g; simpl in Hrun.
    + match type of Hrun with
      | match ?a with _ => _ end = _ => destruct a eqn:Ea
      end.
      * apply Hagain. congruence.
      * exists p. split; [constructor | exact Hrun].
    + destruct (k p) eqn:Ek.
      * exists p. split; [constructor | congruence].
      * apply Hagain. exact Hrun.
Qed.

(** The matcher's result is the continuation's result at the end of an
    accepted run. *)
Lemma run_sound {R} (r : regex) (x : R) :
  forall (k : pos -> option R) p, run r k p = Some x ->
  exists q, accepts r p q /\ k q = Some x.
Proof.
  induction r as [|cs|r1 IH1 r2 IH2|r1 IH1 r2 IH2|g r1 IH1|name r1 IH1| | |
                  |cs|cs]; intros k p Hrun.
  - exists p. split; [constructor | exact Hrun].
  - simpl in Hrun. destruct (rest p) as [|a s'] eqn:Er; [discriminate|].
    destruct (cset_mem cs a) eqn:Ec; [|discriminate].
    eexists. split; [|exact Hrun]. now apply acc_sym.
  - simpl in Hrun. apply IH1 in Hrun as (q1 & H1 & Hrun).
    apply IH2 in Hrun as (q & H2 & Hk).
    exists q. split; [|exact Hk]. econstructor; eauto.
  - simpl in Hrun. destruct (run r1 k p) eqn:E1.
    + injection Hrun as ->. apply IH1 in E1 as (q & H1 & Hk).
      exists q. split; [|exact Hk]. now apply acc_alt_l.
    + apply IH2 in Hrun as (q & H2 & Hk).
      exists q. split; [|exact Hk]. now apply acc_alt_r.
  - eapply run_star_sound; eauto.
  - simpl in Hrun. apply IH1 in Hrun as (q & H1 & Hk).
    eexists. split; [|exact Hk]. now apply acc_group.
  - simpl in Hrun. destruct (prev p) eqn:Ep; [discriminate|].
    exists p. split; [|exact Hrun]. now apply acc_bol.
  - simpl in Hrun. destruct (rest p) as [|a [|b s']] eqn:Er.
    + exists p. split; [|exact Hrun]. apply acc_eol. now left.
    + destruct (Ascii.eqb a "010") eqn:Ea; [|discriminate].
      apply Ascii.eqb_eq in Ea as ->.
      exists p. split; [|exact Hrun]. apply acc_eol. now right.
    + discriminate.
  - simpl in Hrun.
    destruct (Bool.eqb (at_word (prev p)) (at_word (next (rest p)))) eqn:Eb;
      [discriminate|].
    exists p. split; [|exact Hrun]. apply acc_wordb.
    intros E. rewrite E, Bool.eqb_reflx in Eb. discriminate.
  - simpl in Hrun. destruct (rest p) as [|a s'] eqn:Er; [discriminate|].
    destruct (cset_mem cs a) eqn:Ec; [|discriminate].
    exists p. split; [|exact Hrun]. eapply acc_ahead; eauto.
  - simpl in Hrun. destruct (prev p) as [a|] eqn:Ep; [|discriminate].
    destruct (cset_mem cs a) eqn:Ec; [|discriminate].
    exists p. split; [|exact Hrun]. eapply acc_behind; eauto.
Qed.

Lemma match_sound (r : regex) (s : string) (c : caps) :
  Re.match_ r s = Some c ->
  exists q, accepts r (Pos None s ∅) q /\ groups q = c.
Proof.
  unfold Re.match_, match_at. intros Hm.
  destruct (run r Some (Pos None s ∅)) as [q0|] eqn:Er; [|discriminate].
  injection Hm as <-.
  apply run_sound in Er as (q & Hacc & [= ->]). eauto.
Qed.

End MatcherSoundness.

Section TextOfRuns.

Lemma app_assoc_string (a b c : string) : (a +:+ b) +:+ c = a +:+ (b +:+ c).
Proof.
  induction a as [|x a IH]; [reflexivity|].
  change (String x ((a +:+ b) +:+ c) = String x (a +:+ (b +:+ c))).
  now f_equal.
Qed.

Lemma app_nil_r_string (a : string) : a +:+ EmptyString = a.
Proof.
  induction a as [|x a IH]; [reflexivity|].
  change (String x (a +:+ EmptyString) = String x a). now f_equal.
Qed.

Lemma length_app_string (a b : string) :
  String.length (a +:+ b) = (String.length a + String.length b)%nat.
Proof.
  induction a as [|x a IH]; [reflexivity|].
  change (S (String.length (a +:+ b)) = S (String.length a + String.length b)).
  now f_equal.
Qed.

Lemma take_app_string (a b : string) : Py.take (String.length a) (a +:+ b) = a.
Proof.
  induction a as [|x a IH]; [now destruct b|].
  change (String x (Py.take (String.length a) (a +:+ b)) = String x a).
  now f_equal.
Qed.

Lemma consumed_app (t s : string) : consumed (t +:+ s) s = t.
Proof.
  unfold consumed. rewrite length_app_string.
  replace (String.length t + String.length s - String.length s)%nat
    with (String.length t) by lia.
  apply take_app_string.
Qed.

(** A run reads a text of the pattern's language off the front of the
    input. *)
Lemma accepts_text (r : regex) (p q : pos) :
  accepts r p q -> exists t, rest p = t +:+ rest q /\ lang r t.
Proof.
  induction 1 as [p|cs a s' p Er Ec|r1 r2 p q u _ IH1 _ IH2|r1 r2 p q _ IH
                 |r1 r2 p q _ IH|g r p|g r p q u _ IH1 Hlt _ IH2
                 |name r p q _ IH|p|p|p|cs a s' p|cs a p].
  - exists EmptyString. split; [reflexivity | constructor].
  - exists (String a EmptyString). split; [exact Er | now constructor].
  - destruct IH1 as (t1 & E1 & L1), IH2 as (t2 & E2 & L2).
    exists (t1 +:+ t2). split; [|now constructor].
    now rewrite E1, E2, app_assoc_string.
  - destruct IH as (t & E & L). exists t. split; [exact E | now apply lang_alt_l].
  - destruct IH as (t & E & L). exists t. split; [exact E | now apply lang_alt_r].
  - exists EmptyString. split; [reflexivity | constructor].
  - destruct IH1 as (t1 & E1 & L1), IH2 as (t2 & E2 & L2).
    exists (t1 +:+ t2). split; [|now constructor].
    now rewrite E1, E2, app_assoc_string.
  - destruct IH as (t & E & L). exists t. split; [exact E | now constructor].
  - exists EmptyString. split; [reflexivity | constructor].
  - exists EmptyString. split; [reflexivity | constructor].
  - exists EmptyString. split; [reflexivity | constructor].
  - exists EmptyString. split; [reflexivity | constructor].
  - exists EmptyString. split; [reflexivity | constructor].
Qed.

(** The text a run leaves in a group is a text of one of the bodies of
    the groups of that name, unless the group held it before. *)
Lemma accepts_group_text (r : regex) (p q : pos) :
  accepts r p q ->
  forall n t, groups q !! n = Some t ->
    groups p !! n = Some t \/ exists body, In body (bodies n r) /\ lang body t.
Proof.
  induction 1 as [p|cs a s' p Er Ec|r1 r2 p q u _ IH1 _ IH2|r1 r2 p q _ IH
                 |r1 r2 p q _ IH|g r p|g r p q u _ IH1 Hlt _ IH2
                 |name r p q Hacc IH|p|p|p|cs a s' p|cs a p];
    intros n t Hn; auto.
  - apply IH2 in Hn as [Hn|(body & Hin & L)].
    + apply IH1 in Hn as [Hn|(body & Hin & L)]; [now left|].
      right. exists body. split; [|exact L]. simpl. apply in_or_app. now left.
    + right. exists body. split; [|exact L]. simpl. apply in_or_app. now right.
  - apply IH in Hn as [Hn|(body & Hin & L)]; [now left|].
    right. exists body. split; [|exact L]. simpl. apply in_or_app. now left.
  - apply IH in Hn as [Hn|(body & Hin & L)]; [now left|].
    right. exists body. split; [|exact L]. simpl. apply in_or_app. now right.
  - apply IH2 in Hn as [Hn|(body & Hin & L)]; [|right; eauto].
    apply IH1 in Hn as [Hn|(body & Hin & L)]; [now left | right; eauto].
  - simpl in Hn. destruct (decide (name = n)) as [->|Hne].
    + rewrite lookup_insert_eq in Hn. injection Hn as <-.
      right. exists r. split.
      * simpl. rewrite String.eqb_refl. now left.
      * destruct (accepts_text _ _ _ Hacc) as (t & E & L).
        now rewrite E, consumed_app.
    + rewrite lookup_insert_ne in Hn by exact Hne.
      apply IH in Hn as [Hn|(body & Hin & L)]; [now left|].
      right. exists body. split; [|exact L]. simpl. apply in_or_app. now right.
Qed.

(** A run fills exactly the groups of one of the pattern's shapes and
    leaves the others as they were. *)
Lemma accepts_shape (r : regex) (p q : pos) :
  accepts r p q -> star_free r = true ->
  exists S, In S (shapes r)
    /\ (forall n, In n S -> is_Some (groups q !! n))
    /\ (forall n, ~ In n S -> groups q !! n = groups p !! n).
Proof.
  induction 1 as [p|cs a s' p Er Ec|r1 r2 p q u _ IH1 _ IH2|r1 r2 p q _ IH
                 |r1 r2 p q _ IH|g r p|g r p q u H1 IH1 Hlt H2 IH2
                 |name r p q Hacc IH|p|p|p|cs a s' p|cs a p];
    intros Hfree; simpl in Hfree;
    try (exists []; split; [now left|split; [intros n []|reflexivity]]).
  - apply andb_prop in Hfree as [F1 F2].
    destruct (IH1 F1) as (S1 & In1 & Set1 & Keep1).
    destruct (IH2 F2) as (S2 & In2 & Set2 & Keep2).
    exists (S1 ++ S2). split; [|split].
    + simpl. apply in_flat_map. exists S1. split; [exact In1|].
      apply in_map_iff. now exists S2.
    + intros n Hn. destruct (in_dec string_dec n S2) as [Hn2|Hn2].
      * now apply Set2.
      * rewrite Keep2 by exact Hn2. apply Set1.
        apply in_app_or in Hn as [Hn|Hn]; [exact Hn | contradiction].
    + intros n Hn. rewrite Keep2, Keep1; [reflexivity| |];
        intros Hin; apply Hn, in_or_app; auto.
  - apply andb_prop in Hfree as [F1 F2].
    destruct (IH F1) as (S1 & In1 & Set1 & Keep1).
    exists S1. split; [|split]; auto. simpl. apply in_or_app. now left.
  - apply andb_prop in Hfree as [F1 F2].
    destruct (IH F2) as (S1 & In1 & Set1 & Keep1).
    exists S1. split; [|split]; auto. simpl. apply in_or_app. now right.
  - exists []. split; [now left|split; [intros n []|]].
    intros n _.
    assert (Hkeep : forall r' p' q', accepts r' p' q' ->
              group_names r' = [] -> groups q' = groups p').
    { clear. induction 1; simpl; intros Hnames; auto;
        try (apply app_eq_nil in Hnames as [N1 N2]); try discriminate;
        try (rewrite IHaccepts2, IHaccepts1 by auto; reflexivity); auto. }
    destruct (group_names r) eqn:En; [|discriminate].
    rewrite (Hkeep _ _ _ H2 En), (Hkeep _ _ _ H1 En). reflexivity.
  - destruct (IH Hfree) as (S1 & In1 & Set1 & Keep1).
    exists (name :: S1). split; [|split].
    + simpl. apply in_map_iff. now exists S1.
    + intros n Hn. simpl. destruct (decide (name = n)) as [->|Hne].
      * rewrite lookup_insert_eq. eauto.
      * rewrite lookup_insert_ne by exact Hne. apply Set1.
        destruct Hn as [Hn|Hn]; [contradiction | exact Hn].
    + intros n Hn. simpl. rewrite lookup_insert_ne.
      * apply Keep1. intros Hin. apply Hn. now right.
      * intros ->. apply Hn. now left.
Qed.

End TextOfRuns.

(** [n] is one of the names of [S]. *)
Definition has (n : string) (S : list string) : bool :=
  existsb (String.eqb n) S.

Section GroupsOfMatch.

Lemma has_In (n : string) (S : list string) : has n S = true <-> In n S.
Proof.
  unfold has. rewrite existsb_exists. split.
  - intros (x & Hin & E). apply String.eqb_eq in E. now subst.
  - intros Hin. exists n. split; [exact Hin | apply String.eqb_refl].
Qed.

Lemma has_not_In (n : string) (S : list string) : has n S = false <-> ~ In n S.
Proof.
  rewrite <- has_In. destruct (has n S); split; congruence.
Qed.

(** The groups of a successful [match]: those of one shape of the
    pattern, each holding a text of a body of that name. *)
Lemma match_groups (r : regex) (s : string) (c : caps) :
  Re.match_ r s = Some c -> star_free r = true ->
  exists S, In S (shapes r)
    /\ (forall n, has n S = true ->
          exists t body, c !! n = Some t /\ In body (bodies n r) /\ lang body t)
    /\ (forall n, has n S = false -> c !! n = None).
Proof.
  intros Hm Hfree. apply match_sound in Hm as (q & Hacc & <-).
  destruct (accepts_shape _ _ _ Hacc Hfree) as (S & HS & Hset & Hkeep).
  exists S. split; [exact HS|]. split.
  - intros n Hn. apply has_In in Hn. destruct (Hset n Hn) as [t Ht].
    exists t. destruct (accepts_group_text _ _ _ Hacc n t Ht) as [Hold|(b & Hb & L)].
    + simpl in Hold. rewrite lookup_empty in Hold. discriminate.
    + eauto.
  - intros n Hn. apply has_not_In in Hn. rewrite (Hkeep n Hn). apply lookup_empty.
Qed.

(** A property of every shape, checked by running over them. *)
Lemma shapes_forall (P : list string -> bool) (r : regex) (S : list string) :
  forallb P (shapes r) = true -> In S (shapes r) -> P S = true.
Proof. intros Hall Hin. rewrite forallb_forall in Hall. now apply Hall. Qed.

(** *** Texts of the sub-patterns for numbers *)

Fixpoint all_chars (f : ascii -> bool) (s : string) : bool :=
  match s with
  | EmptyString => true
  | String a s' => f a && all_chars f s'
  end.

Lemma lang_star_sym (g : greed) (cs : cset) (t : string) :
  lang (Star g (Sym cs)) t -> all_chars (cset_mem cs) t = true.
Proof.
  intros L. remember (Star g (Sym cs)) as r eqn:Er.
  induction L; try discriminate; [reflexivity|].
  injection Er as -> ->. inversion L1 as [|cs' a Ha| | | | | | | | | | |]; subst.
  change (cset_mem cs a && all_chars (cset_mem cs) t2 = true).
  rewrite IHL2 by reflexivity. now rewrite Ha.
Qed.

Lemma lang_plus_sym (g : greed) (cs : cset) (t : string) :
  lang (Plus g (Sym cs)) t ->
  exists a t', t = String a t' /\ cset_mem cs a = true
               /\ all_chars (cset_mem cs) t' = true.
Proof.
  intros L. inversion L as [| |r1 r2 t1 t2 L1 L2| | | | | | | | | |]; subst.
  inversion L1; subst. exists a, t2. split; [reflexivity|]. split; [assumption|].
  now apply lang_star_sym in L2.
Qed.

Lemma lang_lit_char (a : ascii) (t : string) :
  lang (Lit (String a EmptyString)) t -> t = String a EmptyString.
Proof.
  simpl. intros L. inversion L; subst. simpl in *.
  match goal with E : Ascii.eqb _ _ = true |- _ => apply Ascii.eqb_eq in E end.
  now subst.
Qed.

Lemma read_digits (t u : string) (acc : N) (point : option nat) (seen : bool) :
  all_chars Py.is_digit t = true ->
  exists acc',
    Decimal.read (t +:+ u) acc point seen
    = Decimal.read u acc' (Nat.add (String.length t) <$> point)
                   (seen || negb (String.eqb t EmptyString)).
Proof.
  revert acc point seen. induction t as [|a t IH]; intros acc point seen Hall.
  - exists acc. simpl. rewrite orb_false_r. now destruct point.
  - simpl in Hall. apply andb_prop in Hall as [Ha Ht].
    change (String a t +:+ u) with (String a (t +:+ u)).
    simpl. rewrite Ha.
    destruct (IH (10 * acc + Decimal.digit a)%N (S <$> point) true Ht)
      as (acc' & E).
    exists acc'. rewrite E. rewrite orb_true_r. simpl.
    destruct point; simpl; [f_equal; f_equal; lia | reflexivity].
Qed.

Lemma int_read_digits (t : string) (acc : N) (seen : bool) :
  all_chars Py.is_digit t = true ->
  exists z, Decimal.int_read t acc (seen || negb (String.eqb t EmptyString))
            = (if seen || negb (String.eqb t EmptyString)
               then Some z else None).
Proof.
  revert acc seen. induction t as [|a t IH]; intros acc seen Hall.
  - exists (Z.of_N acc). simpl. now rewrite orb_false_r.
  - simpl in Hall. apply andb_prop in Hall as [Ha Ht].
    simpl. rewrite Ha, orb_true_r.
    destruct (IH (10 * acc + Decimal.digit a)%N true Ht) as (z & E).
    exists z. simpl in E. exact E.
Qed.

(** A text of [\d+] is read by [Decimal] and by [int], and is not
    empty. *)
Lemma digits_text (t : string) :
  lang digits t ->
  truthy (Some t) = true
  /\ (exists d, Decimal.of_string t = Some d)
  /\ (exists z, Decimal.int t = Some z).
Proof.
  intros L. apply lang_plus_sym in L as (a & t' & -> & Ha & Ht).
  assert (Hall : all_chars Py.is_digit (String a t') = true)
    by (change (cset_mem CDigit a && all_chars (cset_mem CDigit) t' = true);
        now rewrite Ha, Ht).
  split; [reflexivity|]. split.
  - destruct (read_digits (String a t') EmptyString 0 None false Hall)
      as (acc' & E).
    rewrite app_nil_r_string in E. unfold Decimal.of_string. rewrite E.
    simpl. eauto.
  - unfold Decimal.int. simpl. simpl in Ha. rewrite Ha.
    destruct (int_read_digits t' (10 * 0 + Decimal.digit a)%N true Ht)
      as (z & E).
    simpl in E. eauto.
Qed.

(** A text of [\d+(\.\d+)?] is read by [Decimal], and is not empty. *)
Lemma number_text (t : string) :
  lang number t ->
  truthy (Some t) = true /\ exists d, Decimal.of_string t = Some d.
Proof.
  intros L. unfold number in L.
  inversion L as [| |r1 r2 t1 t2 L1 L2| | | | | | | | | |]; subst.
  apply lang_plus_sym in L1 as (a & t' & -> & Ha & Ht).
  assert (Hall : all_chars Py.is_digit (String a t') = true)
    by (change (cset_mem CDigit a && all_chars (cset_mem CDigit) t' = true);
        now rewrite Ha, Ht).
  split; [reflexivity|].
  destruct (read_digits (String a t') t2 0 None false Hall) as (acc' & E).
  unfold Decimal.of_string. rewrite E. simpl.
  unfold Opt in L2.
  inversion L2 as [| | |r1 r2 t L3|r1 r2 t L3| | | | | | | |]; subst.
  - inversion L3 as [| |r1 r2 t3 t4 L4 L5| | | | | | | | | |]; subst.
    apply lang_lit_char in L4 as ->.
    apply lang_plus_sym in L5 as (b & t'' & -> & Hb & Ht'').
    assert (Hall' : all_chars Py.is_digit (String b t'') = true)
      by (change (cset_mem CDigit b && all_chars (cset_mem CDigit) t'' = true);
          now rewrite Hb, Ht'').
    change (String "." EmptyString +:+ String b t'')
      with (String "." (String b t'')).
    destruct (read_digits (String b t'') EmptyString acc' (Some O) false Hall')
      as (acc'' & E').
    rewrite app_nil_r_string in E'.
    simpl. simpl in E'. simpl in Hb. rewrite Hb in *.
    rewrite E'. eauto.
  - inversion L3; subst. simpl. eauto.
Qed.

(** A text of a pattern that reads at least one character is not
    empty. *)
Lemma plus_text (g : greed) (cs : cset) (t : string) :
  lang (Plus g (Sym cs)) t -> truthy (Some t) = true.
Proof. intros L. now apply lang_plus_sym in L as (a & t' & -> & _). Qed.

End GroupsOfMatch.

(** ** The groups of a header match *)

Section HeaderGroups.

Lemma match_group_text (r : regex) (s : string) (c : caps) (n t : string) :
  Re.match_ r s = Some c -> c !! n = Some t ->
  exists body, In body (bodies n r) /\ lang body t.
Proof.
  intros Hm Hn. apply match_sound in Hm as (q & Hacc & <-).
  destruct (accepts_group_text _ _ _ Hacc n t Hn) as [Hold|Hbody];
    [|exact Hbody].
  simpl in Hold. rewrite lookup_empty in Hold. discriminate.
Qed.

(** Which groups of the header pattern can be filled together: the two
    pairs of blinds exclude each other, and the tournament's groups
    need the tournament number. *)
Definition header_shape_ok (S : list string) : bool :=
  ((has "sb" S && has "bb" S && negb (has "cash_sb" S)
    && negb (has "cash_bb" S) && negb (has "cash_currency" S))
   || (negb (has "sb" S) && negb (has "bb" S) && has "cash_sb" S
       && has "cash_bb" S))
  && implb (has "currency" S || has "freeroll" S || has "buyin" S
            || has "rake" S) (has "tournament_ident" S)
  && implb (has "freeroll" S) (negb (has "currency" S))
  && has "ident" S && has "game" S && has "limit" S && has "date" S.

Lemma header_shapes_ok : forallb header_shape_ok (shapes _header_re) = true.
Proof. vm_compute. reflexivity. Qed.

Lemma header_star_free : star_free _header_re = true.
Proof. vm_compute. reflexivity. Qed.

(** The texts of the groups the parser converts. *)
Lemma header_group_texts (line : string) (c : caps) :
  Re.match_ _header_re line = Some c ->
  (forall n t, In n ["ident"; "tournament_ident"; "sb"; "bb"] ->
     c !! n = Some t -> lang digits t)
  /\ (forall n t, In n ["buyin"; "rake"; "cash_sb"; "cash_bb"] ->
        c !! n = Some t -> lang number t)
  /\ (forall n t, In n ["currency"; "cash_currency"; "tournament_level";
                        "freeroll"; "game"; "date"; "limit"] ->
        c !! n = Some t -> truthy (Some t) = true).
Proof.
  intros Hm. repeat split; intros n t Hin Hn;
    destruct (match_group_text _ _ _ _ _ Hm Hn) as (body & Hb & L);
    simpl in Hin;
    repeat (destruct Hin as [<-|Hin];
            [vm_compute in Hb;
             repeat (destruct Hb as [<-|Hb]); try contradiction|]);
    try contradiction; try exact L.
  - now apply plus_text in L.
  - now apply plus_text in L.
  - now apply plus_text in L.
  - inversion L; subst.
    repeat match goal with
           | X : lang (Cat _ _) _ |- _ => inversion X; subst; clear X
           | X : lang (Sym _) _ |- _ => inversion X; subst; clear X
           end.
    reflexivity.
  - now apply plus_text in L.
  - now apply plus_text in L.
  - inversion L as [| |r1 r2 t1 t2 L1 L2| | | | | | | | | |]; subst.
    assert (Ht2 : truthy (Some t2) = true).
    { inversion L2 as [| |r1 r2 t3 t4 L3 L4| | | | | | | | | |]; subst.
      inversion L3; subst. reflexivity. }
    destruct t1; [exact Ht2 | reflexivity].
Qed.

End HeaderGroups.

(** ** What [parse_header] makes of a matched header *)

(** The blinds of a header match: the texts of the one pair of groups
    that is filled. *)
Definition blinds_of (c : caps) (sb bb : string) : Prop :=
  (c !! "sb" = Some sb /\ c !! "bb" = Some bb
   /\ c !! "cash_sb" = None /\ c !! "cash_bb" = None)
  \/ (c !! "sb" = None /\ c !! "bb" = None
      /\ c !! "cash_sb" = Some sb /\ c !! "cash_bb" = Some bb).

(** The currency code written on the line: the tournament's currency
    group on a tournament header, the cash game's on a cash header. *)
Definition explicit_currency (c : caps) : option string :=
  if c !! "tournament_ident" is Some _ then c !! "currency"
  else c !! "cash_currency".

(** The order in which the currency is resolved. *)
Definition resolved_currency (c : caps) : option string :=
  match explicit_currency c with
  | Some code => Some code
  | None => if c !! "freeroll" is Some _ then Some "USD" else None
  end.

Section HeaderProperties.
Context `{Externals}.

(** The rake [parse_header] assigns: the tournament's, zero when the
    line gives none, and [None] in a cash game. *)
Definition header_rake (c : caps) : value :=
  if c !! "tournament_ident" is Some _
  then VDecimal (match c !! "rake" with
                 | Some r => default Decimal.zero (Decimal.of_string r)
                 | None => Decimal.zero
                 end)
  else VNone.

Lemma writes_apply {A} (m : M A) (attrs : list string) (s : state) (k : string) :
  writes m attrs -> k ∉ attrs -> self (fst (m s)) !! k = self s !! k.
Proof. intros Hw Hk. now apply Hw. Qed.

Lemma header_blinds_texts (line : string) (c : caps) :
  Re.match_ _header_re line = Some c ->
  exists sb bb d_sb d_bb,
    blinds_of c sb bb
    /\ Decimal.of_string sb = Some d_sb /\ Decimal.of_string bb = Some d_bb
    /\ py_or (c !! "sb") (c !! "cash_sb") = Some sb
    /\ py_or (c !! "bb") (c !! "cash_bb") = Some bb.
Proof.
  intros Hm.
  destruct (header_group_texts _ _ Hm) as (Hdig & Hnum & _).
  destruct (match_groups _ _ _ Hm header_star_free) as (S & HS & Hset & Hnone).
  pose proof (shapes_forall _ _ _ header_shapes_ok HS) as Hok.
  unfold header_shape_ok in Hok.
  repeat (apply andb_prop in Hok as [Hok ?]).
  apply orb_prop in Hok as [Hok|Hok];
    repeat (apply andb_prop in Hok as [Hok ?]);
    repeat match goal with
           | X : negb _ = true |- _ => apply negb_true_iff in X
           end.
  - destruct (Hset "sb" Hok) as (sb & _ & Esb & _).
    destruct (Hset "bb") as (bb & _ & Ebb & _); [assumption|].
    destruct (digits_text sb) as (Tsb & (d_sb & Dsb) & _);
      [apply (Hdig "sb"); simpl; auto|].
    destruct (digits_text bb) as (Tbb & (d_bb & Dbb) & _);
      [apply (Hdig "bb"); simpl; auto|].
    exists sb, bb, d_sb, d_bb. unfold blinds_of, py_or.
    rewrite Esb, Ebb, Tsb, Tbb, !Hnone by assumption. auto 10.
  - destruct (Hset "cash_sb") as (sb & _ & Esb & _); [assumption|].
    destruct (Hset "cash_bb") as (bb & _ & Ebb & _); [assumption|].
    destruct (number_text sb) as (Tsb & (d_sb & Dsb));
      [apply (Hnum "cash_sb"); simpl; auto|].
    destruct (number_text bb) as (Tbb & (d_bb & Dbb));
      [apply (Hnum "cash_bb"); simpl; auto|].
    exists sb, bb, d_sb, d_bb. unfold blinds_of, py_or.
    rewrite Esb, Ebb, !Hnone by assumption. simpl. auto 10.
Qed.

Lemma header_ident_blinds_run (line : string) (c : caps) (sb bb : string)
    (d_sb d_bb : decimal) (s : state) :
  Decimal.of_string sb = Some d_sb -> Decimal.of_string bb = Some d_bb ->
  py_or (c !! "sb") (c !! "cash_sb") = Some sb ->
  py_or (c !! "bb") (c !! "cash_bb") = Some bb ->
  header_ident_blinds (Some c) s
  = (State (<["bb" := VDecimal d_bb]>
              (<["sb" := VDecimal d_sb]>
                 (<["ident" := VGroup (c !! "ident")]> (self s))))
           (logger_level s) (logged s), Ok tt).
Proof.
  intros Dsb Dbb Osb Obb. unfold header_ident_blinds. mrun.
  rewrite Osb. unfold Decimal_of. rewrite Dsb. mrun.
  rewrite Obb, Dbb. mrun. reflexivity.
Qed.

Lemma header_tournament_texts (line : string) (c : caps) :
  Re.match_ _header_re line = Some c ->
  (forall t, c !! "tournament_ident" = Some t -> truthy (Some t) = true)
  /\ (forall t, c !! "buyin" = Some t ->
        truthy (Some t) = true /\ exists d, Decimal.of_string t = Some d)
  /\ (forall t, c !! "rake" = Some t ->
        truthy (Some t) = true /\ exists d, Decimal.of_string t = Some d)
  /\ (forall n t, In n ["currency"; "cash_currency"; "freeroll"] ->
        c !! n = Some t -> truthy (Some t) = true)
  /\ (c !! "tournament_ident" = None ->
      c !! "currency" = None /\ c !! "freeroll" = None)
  /\ (is_Some (c !! "freeroll") -> c !! "currency" = None).
Proof.
  intros Hm.
  destruct (header_group_texts _ _ Hm) as (Hdig & Hnum & Htext).
  destruct (match_groups _ _ _ Hm header_star_free) as (S & HS & Hset & Hnone).
  pose proof (shapes_forall _ _ _ header_shapes_ok HS) as Hok.
  unfold header_shape_ok in Hok.
  repeat (apply andb_prop in Hok as [Hok ?]).
  repeat split.
  - intros t Ht. apply (digits_text t), (Hdig "tournament_ident"); simpl; auto.
  - apply (number_text t), (Hnum "buyin"); simpl; auto.
  - apply (number_text t), (Hnum "buyin"); simpl; auto.
  - apply (number_text t), (Hnum "rake"); simpl; auto.
  - apply (number_text t), (Hnum "rake"); simpl; auto.
  - intros n t Hin Hn. apply (Htext n); [|exact Hn].
    simpl in Hin. simpl. tauto.
  - destruct (has "tournament_ident" S) eqn:E.
    + destruct (Hset _ E) as (t & _ & Et & _). congruence.
    + apply Hnone. destruct (has "currency" S); [discriminate | reflexivity].
  - destruct (has "tournament_ident" S) eqn:E.
    + destruct (Hset _ E) as (t & _ & Et & _). congruence.
    + apply Hnone.
      destruct (has "currency" S), (has "freeroll" S);
        [discriminate..| reflexivity].
  - intros [t Ht]. apply Hnone.
    destruct (has "freeroll" S) eqn:E.
    + now destruct (has "currency" S).
    + rewrite (Hnone _ E) in Ht. discriminate.
Qed.

(** The attributes the branch on the tournament number assigns. *)
Definition game_type_attrs : list string :=
  [ "game_type"; "tournament_ident"; "tournament_level"; "buyin"; "rake" ].

Lemma header_game_type_run (line : string) (c : caps) (s : state) :
  Re.match_ _header_re line = Some c ->
  exists s',
    header_game_type (Some c) s = (s', Ok (explicit_currency c))
    /\ self s' !! "game_type"
       = Some (VGameType (if c !! "tournament_ident" is Some _ then TOUR else CASH))
    /\ (forall k, k ∉ game_type_attrs -> self s' !! k = self s !! k)
    /\ self s' !! "rake" = Some (header_rake c)
    /\ logger_level s' = logger_level s /\ logged s' = logged s.
Proof.
  intros Hm.
  destruct (header_tournament_texts _ _ Hm) as (Htid & Hbuyin & Hrake & _).
  unfold header_game_type, explicit_currency. mrun.
  destruct (c !! "tournament_ident") as [tid|] eqn:Etid.
  - rewrite (Htid tid eq_refl). mrun.
    assert (Hb : exists d, (if truthy (c !! "buyin")
                            then lift (Decimal_of (c !! "buyin"))
                            else mret Decimal.zero)
                           = (mret d : M decimal)).
    { destruct (c !! "buyin") as [b|] eqn:Eb; [|now exists Decimal.zero].
      destruct (Hbuyin b eq_refl) as (-> & d & Ed).
      exists d. unfold Decimal_of. now rewrite Ed. }
    assert (Hr : exists d, header_rake c = VDecimal d
                           /\ (if truthy (c !! "rake")
                               then lift (Decimal_of (c !! "rake"))
                               else mret Decimal.zero)
                              = (mret d : M decimal)).
    { unfold header_rake. rewrite Etid.
      destruct (c !! "rake") as [b|] eqn:Eb; [|now exists Decimal.zero].
      destruct (Hrake b eq_refl) as (-> & d & Ed).
      exists d. unfold Decimal_of. now rewrite Ed. }
    destruct Hb as (d1 & ->). mrun. destruct Hr as (d2 & Hr & ->). mrun.
    eexists. split; [reflexivity|]. cbn [self logger_level logged].
    split; [|split; [|split; [|split; reflexivity]]].
    + now rewrite !lookup_insert_ne, lookup_insert_eq by discriminate.
    + intros k Hk. unfold game_type_attrs in Hk.
      rewrite !lookup_insert_ne; [reflexivity|..];
        intros <-; apply Hk; apply (bool_decide_unpack _); vm_compute; exact I.
    + now rewrite lookup_insert_eq, Hr.
  - cbn [truthy]. mrun.
    eexists. split; [reflexivity|]. cbn [self logger_level logged].
    split; [|split; [|split; [|split; reflexivity]]].
    + now rewrite !lookup_insert_ne, lookup_insert_eq by discriminate.
    + intros k Hk. unfold game_type_attrs in Hk.
      rewrite !lookup_insert_ne; [reflexivity|..];
        intros <-; apply Hk; apply (bool_decide_unpack _); vm_compute; exact I.
    + rewrite lookup_insert_eq. unfold header_rake. now rewrite Etid.
Qed.

Lemma writes_header_currency (m : option caps) (currency : option string) :
  writes (header_currency m currency) ["extra"; "currency"].
Proof. unfold header_currency, setitem_extra. writes_tac. Qed.

Lemma writes_header_game_limit_date (m : option caps) :
  writes (header_game_limit_date m) ["game"; "limit"; "date"; "header_parsed"].
Proof. unfold header_game_limit_date, _parse_date. writes_tac. Qed.

(** A matched header takes [parse_header] through the blinds and the
    game type; what is left is the currency and the last block. *)
Lemma parse_header_matched (hand_text line : string) (level : Z)
    (lg : list string) (c : caps) :
  head (Re.split _split_re (Py.strip hand_text)) = Some line ->
  Re.match_ _header_re line = Some c ->
  exists s2 sb bb d_sb d_bb,
    parse_header (fresh hand_text level lg)
    = (header_currency (Some c) (explicit_currency c)
       ≫= fun _ => header_game_limit_date (Some c)) s2
    /\ blinds_of c sb bb
    /\ Decimal.of_string sb = Some d_sb /\ Decimal.of_string bb = Some d_bb
    /\ self s2 !! "sb" = Some (VDecimal d_sb)
    /\ self s2 !! "bb" = Some (VDecimal d_bb)
    /\ self s2 !! "game_type"
       = Some (VGameType (if c !! "tournament_ident" is Some _ then TOUR else CASH))
    /\ self s2 !! "extra" = Some (VDict ∅)
    /\ self s2 !! "currency" = None
    /\ self s2 !! "rake" = Some (header_rake c)
    /\ self s2 !! "_splitted"
       = Some (VStrings (Re.split _split_re (Py.strip hand_text)))
    /\ self s2 !! "_sections"
       = Some (VIndices (sections_of (Re.split _split_re (Py.strip hand_text)))).
Proof.
  intros Hline Hm.
  destruct (header_blinds_texts _ _ Hm)
    as (sb & bb & d_sb & d_bb & Hbl & Dsb & Dbb & Osb & Obb).
  unfold parse_header, fresh, _split_raw, get_splitted, item, new_hand.
  mrun.
  destruct (Re.split _split_re (Py.strip hand_text)) as [|l sp] eqn:Esp;
    [discriminate|].
  injection Hline as ->.
  change (Py.getitem (line :: sp) 0) with (Some line).
  mrun. rewrite Hm.
  match goal with
  | |- context [State ?m level lg] => set (s0 := State m level lg)
  end.
  pose proof (header_ident_blinds_run line c sb bb d_sb d_bb s0 Dsb Dbb Osb Obb)
    as Hrun1.
  match type of Hrun1 with
  | _ = (?s1, _) =>
      destruct (header_game_type_run line c s1 Hm)
        as (s2 & Hrun2 & Hgt & Hkeep & Hrk & _ & _)
  end.
  exists s2, sb, bb, d_sb, d_bb.
  split.
  { rewrite (bind_run _ _ _ _ _ Hrun1). now rewrite (bind_run _ _ _ _ _ Hrun2). }
  split; [exact Hbl|].
  split; [exact Dsb|]. split; [exact Dbb|].
  assert (Hnot : forall k, k ∈ ["sb"; "bb"; "extra"; "currency"; "_splitted";
                                "_sections"] ->
                           k ∉ game_type_attrs).
  { intros k Hk. unfold game_type_attrs.
    repeat (apply elem_of_cons in Hk as [->|Hk];
            [apply (bool_decide_unpack _); vm_compute; exact I|]).
    now apply elem_of_nil in Hk. }
  rewrite (Hkeep "sb"), (Hkeep "bb"), (Hkeep "extra"), (Hkeep "currency"),
    (Hkeep "_splitted"), (Hkeep "_sections")
    by (apply Hnot; apply (bool_decide_unpack _); vm_compute; exact I).
  subst s0. cbn [self].
  split; [now rewrite !lookup_insert_ne, lookup_insert_eq by discriminate|].
  split; [now rewrite lookup_insert_eq|].
  split; [exact Hgt|].
  split; [now rewrite !lookup_insert_ne, lookup_insert_eq by discriminate|].
  split; [rewrite !lookup_insert_ne by discriminate; apply lookup_empty|].
  split; [exact Hrk|].
  split; [now rewrite !lookup_insert_ne, lookup_insert_eq by discriminate|].
  now rewrite !lookup_insert_ne, lookup_insert_eq by discriminate.
Qed.

(** C3.  On every line the header pattern accepts, the game type is
    [TOUR] exactly when the group [tournament_ident] is filled and
    [CASH] otherwise, whatever the blinds look like; and of the two
    pairs of blind groups exactly one is filled, from which [sb] and
    [bb] are converted. *)
Theorem header_game_type_and_blinds (hand_text line : string)
    (level : Z) (lg : list string) (c : caps) :
  head (Re.split _split_re (Py.strip hand_text)) = Some line ->
  Re.match_ _header_re line = Some c ->
  let t := fst (parse_header (fresh hand_text level lg)) in
  self t !! "game_type"
    = Some (VGameType (if c !! "tournament_ident" is Some _ then TOUR else CASH))
  /\ exists sb bb d_sb d_bb,
       blinds_of c sb bb
       /\ Decimal.of_string sb = Some d_sb
       /\ Decimal.of_string bb = Some d_bb
       /\ self t !! "sb" = Some (VDecimal d_sb)
       /\ self t !! "bb" = Some (VDecimal d_bb).
Proof.
  intros Hline Hm t. subst t.
  destruct (parse_header_matched _ _ level lg _ Hline Hm)
    as (s2 & sb & bb & d_sb & d_bb & -> & Hbl & Dsb & Dbb & Hsb & Hbb & Hgt
        & _).
  assert (Hw : writes (header_currency (Some c) (explicit_currency c)
                       ≫= fun _ => header_game_limit_date (Some c))
                      ["extra"; "currency"; "game"; "limit"; "date";
                       "header_parsed"]).
  { unfold header_currency, header_game_limit_date, setitem_extra, _parse_date.
    writes_tac. }
  rewrite !(writes_apply _ _ s2 _ Hw)
    by (apply (bool_decide_unpack _); vm_compute; exact I).
  split; [exact Hgt|].
  exists sb, bb, d_sb, d_bb. auto.
Qed.

Lemma freeroll_default_resolved (line : string) (c : caps) :
  Re.match_ _header_re line = Some c ->
  freeroll_default (c !! "freeroll") (explicit_currency c) = resolved_currency c
  /\ truthy (resolved_currency c)
     = (if resolved_currency c is Some _ then true else false).
Proof.
  intros Hm.
  destruct (header_tournament_texts _ _ Hm) as (_ & _ & _ & Htext & _ & _).
  assert (Hexp : forall code, explicit_currency c = Some code ->
                              truthy (Some code) = true).
  { unfold explicit_currency. intros code.
    destruct (c !! "tournament_ident"); intros E;
      [apply (Htext "currency") | apply (Htext "cash_currency")];
      simpl; auto. }
  unfold freeroll_default, resolved_currency.
  destruct (explicit_currency c) as [code|] eqn:Ec.
  - rewrite (Hexp code eq_refl). now rewrite andb_false_r.
  - destruct (c !! "freeroll") as [f|] eqn:Ef.
    + rewrite (Htext "freeroll" f) by (simpl; auto). split; reflexivity.
    + split; reflexivity.
Qed.

(** C4.  On every line the header pattern accepts, the currency is
    resolved in this order: the currency code written on the line (the
    tournament's currency group on a tournament header, the cash
    game's on a cash header); else [USD] when the freeroll group is
    filled; else none.  [extra] holds [money_type = REAL] exactly when
    a currency was resolved, and [PLAY] with [currency = None] when
    none was.  ([Currency] refusing the code is the one case where
    [currency] stays without a value: [parse_header] then raises.) *)
Theorem header_currency_resolution (hand_text line : string)
    (level : Z) (lg : list string) (c : caps) :
  head (Re.split _split_re (Py.strip hand_text)) = Some line ->
  Re.match_ _header_re line = Some c ->
  let r := parse_header (fresh hand_text level lg) in
  match resolved_currency c with
  | None =>
      self (fst r) !! "extra" = Some (VDict {["money_type" := PLAY]})
      /\ self (fst r) !! "currency" = Some VNone
  | Some code =>
      self (fst r) !! "extra" = Some (VDict {["money_type" := REAL]})
      /\ match Currency code with
         | Some cur => self (fst r) !! "currency" = Some (VCurrency cur)
         | None => snd r = Raise ValueError
                   /\ self (fst r) !! "currency" = None
         end
  end.
Proof.
  intros Hline Hm r. subst r.
  destruct (parse_header_matched _ _ level lg _ Hline Hm)
    as (s2 & sb & bb & d_sb & d_bb & -> & _ & _ & _ & _ & _ & _ & Hextra & Hcur
        & _).
  destruct (freeroll_default_resolved _ _ Hm) as (Hdef & Htruthy).
  pose proof (writes_header_game_limit_date (Some c)) as Hw.
  assert (Hnot : forall k, k ∈ ["extra"; "currency"] ->
                           k ∉ ["game"; "limit"; "date"; "header_parsed"]).
  { intros k Hk.
    repeat (apply elem_of_cons in Hk as [->|Hk];
            [apply (bool_decide_unpack _); vm_compute; exact I|]).
    now apply elem_of_nil in Hk. }
  unfold header_currency. rewrite bind_assoc_run. mrun.
  rewrite Hdef, Htruthy.
  destruct (resolved_currency c) as [code|]; cbn [negb default from_option id].
  - unfold setitem_extra. mrun. rewrite insert_empty.
    destruct (Currency code) as [cur|]; mrun.
    + rewrite !(writes_apply _ _ _ _ Hw)
        by (apply Hnot; apply (bool_decide_unpack _); vm_compute; exact I).
      cbn [self]. split.
      * now rewrite lookup_insert_ne, lookup_insert_eq by discriminate.
      * now rewrite lookup_insert_eq.
    + cbn [fst snd self]. split; [now rewrite lookup_insert_eq|].
      split; [reflexivity|].
      now rewrite lookup_insert_ne by discriminate.
  - unfold setitem_extra. mrun. rewrite insert_empty.
    rewrite !(writes_apply _ _ _ _ Hw)
      by (apply Hnot; apply (bool_decide_unpack _); vm_compute; exact I).
    cbn [self]. split.
    + now rewrite lookup_insert_ne, lookup_insert_eq by discriminate.
    + now rewrite lookup_insert_eq.
Qed.

(** A header that parses: the first line matched, and what the body
    finds in the instance. *)
Lemma parse_header_ok (hand_text : string) (level : Z) (lg : list string)
    (s1 : state) :
  parse_header (fresh hand_text level lg) = (s1, Ok tt) ->
  exists line c,
    head (Re.split _split_re (Py.strip hand_text)) = Some line
    /\ Re.match_ _header_re line = Some c
    /\ self s1 !! "rake" = Some (header_rake c)
    /\ self s1 !! "_splitted"
       = Some (VStrings (Re.split _split_re (Py.strip hand_text)))
    /\ self s1 !! "_sections"
       = Some (VIndices (sections_of (Re.split _split_re (Py.strip hand_text)))).
Proof.
  intros Hrun.
  destruct (head (Re.split _split_re (Py.strip hand_text))) as [line|] eqn:Hline.
  - destruct (Re.match_ _header_re line) as [c|] eqn:Hm.
    + exists line, c. split; [reflexivity|]. split; [exact Hm|].
      destruct (parse_header_matched _ _ level lg _ Hline Hm)
        as (s2 & sb & bb & d_sb & d_bb & E & _ & _ & _ & _ & _ & _ & _ & _
            & Hrk & Hsp & Hsec).
      assert (Hw : writes (header_currency (Some c) (explicit_currency c)
                           ≫= fun _ => header_game_limit_date (Some c))
                          ["extra"; "currency"; "game"; "limit"; "date";
                           "header_parsed"]).
      { unfold header_currency, header_game_limit_date, setitem_extra,
          _parse_date.
        writes_tac. }
      rewrite E in Hrun.
      assert (Hs1 : s1 = fst ((header_currency (Some c) (explicit_currency c)
                               ≫= fun _ => header_game_limit_date (Some c)) s2))
        by now rewrite Hrun.
      rewrite Hs1.
      rewrite !(writes_apply _ _ s2 _ Hw)
        by (apply (bool_decide_unpack _); vm_compute; exact I).
      auto.
    + rewrite (parse_header_no_match_run _ _ level lg Hline Hm) in Hrun.
      discriminate.
  - exfalso. revert Hrun.
    unfold parse_header, fresh, _split_raw, get_splitted, item, new_hand.
    mrun.
    destruct (Re.split _split_re (Py.strip hand_text)); [|discriminate].
    discriminate.
Qed.

End HeaderProperties.

(** ** The body: one method at a time *)

Section Inversion.
Context `{Externals}.

Lemma getattr_ok (attr : string) (s s' : state) (v : value) :
  getattr attr s = (s', Ok v) -> s' = s /\ self s !! attr = Some v.
Proof.
  unfold getattr. destruct (self s !! attr); simpl; intros [= <- <-]; auto.
Qed.

Lemma setattr_ok (attr : string) (v : value) (s s' : state) (u : unit) :
  setattr attr v s = (s', Ok u) ->
  s' = State (<[attr := v]> (self s)) (logger_level s) (logged s).
Proof. now intros [= <-]. Qed.

Lemma lift_ok {A} (r : res A) (s s' : state) (a : A) :
  lift r s = (s', Ok a) -> s' = s /\ r = Ok a.
Proof. now intros [= <- ->]. Qed.

Lemma ret_ok {A} (a b : A) (s s' : state) :
  (mret a : M A) s = (s', Ok b) -> s' = s /\ a = b.
Proof. now intros [= <- ->]. Qed.

Lemma get_splitted_ok (s s' : state) (l : list string) :
  get_splitted s = (s', Ok l) ->
  s' = s /\ self s !! "_splitted" = Some (VStrings l).
Proof.
  unfold get_splitted. intros Hrun.
  apply bind_ok in Hrun as (s1 & v & Hget & Hrun).
  apply getattr_ok in Hget as (-> & Hget).
  destruct v; try discriminate. apply ret_ok in Hrun as (-> & ->). auto.
Qed.

Lemma get_sections_ok (s s' : state) (l : list nat) :
  get_sections s = (s', Ok l) ->
  s' = s /\ self s !! "_sections" = Some (VIndices l).
Proof.
  unfold get_sections. intros Hrun.
  apply bind_ok in Hrun as (s1 & v & Hget & Hrun).
  apply getattr_ok in Hget as (-> & Hget).
  destruct v; try discriminate. apply ret_ok in Hrun as (-> & ->). auto.
Qed.

Lemma get_players_ok (s s' : state) (l : list Player) :
  get_players s = (s', Ok l) ->
  s' = s /\ self s !! "players" = Some (VPlayers l).
Proof.
  unfold get_players. intros Hrun.
  apply bind_ok in Hrun as (s1 & v & Hget & Hrun).
  apply getattr_ok in Hget as (-> & Hget).
  destruct v; try discriminate. apply ret_ok in Hrun as (-> & ->). auto.
Qed.

Lemma get_table_match_ok (s s' : state) (m : option caps) :
  get_table_match s = (s', Ok m) ->
  s' = s /\ self s !! "_table_match" = Some (VMatch m).
Proof.
  unfold get_table_match. intros Hrun.
  apply bind_ok in Hrun as (s1 & v & Hget & Hrun).
  apply getattr_ok in Hget as (-> & Hget).
  destruct v; try discriminate. apply ret_ok in Hrun as (-> & ->). auto.
Qed.

Lemma get_bool_ok (attr : string) (s s' : state) (b : bool) :
  get_bool attr s = (s', Ok b) ->
  s' = s /\ self s !! attr = Some (VBool b).
Proof.
  unfold get_bool. intros Hrun.
  apply bind_ok in Hrun as (s1 & v & Hget & Hrun).
  apply getattr_ok in Hget as (-> & Hget).
  destruct v; try discriminate. apply ret_ok in Hrun as (-> & ->). auto.
Qed.

Lemma item_ok {A} (l : list A) (i : Z) (s s' : state) (a : A) :
  item l i s = (s', Ok a) -> s' = s /\ Py.getitem l i = Some a.
Proof.
  unfold item. intros Hrun. apply lift_ok in Hrun as (-> & Hrun).
  split; [reflexivity|]. now destruct (Py.getitem l i); inversion Hrun.
Qed.

Lemma index_of_ok (x : string) (start : nat) (s s' : state) (i : nat) :
  index_of x start s = (s', Ok i) ->
  s' = s /\ exists splitted,
    self s !! "_splitted" = Some (VStrings splitted)
    /\ Py.index_from x start splitted = Some i.
Proof.
  unfold index_of. intros Hrun.
  apply bind_ok in Hrun as (s1 & l & Hget & Hrun).
  apply get_splitted_ok in Hget as (-> & Hget).
  apply lift_ok in Hrun as (-> & Hrun).
  split; [reflexivity|]. exists l. split; [exact Hget|].
  now destruct (Py.index_from x start l); inversion Hrun.
Qed.

(** Running the readers on a state that holds the attribute. *)
Lemma get_splitted_run {B} (l : list string) (f : list string -> M B)
    (s : state) :
  self s !! "_splitted" = Some (VStrings l) -> (get_splitted ≫= f) s = f l s.
Proof.
  intros E. unfold get_splitted. rewrite bind_assoc_run.
  now erewrite getattr_run by exact E.
Qed.

Lemma get_sections_run {B} (l : list nat) (f : list nat -> M B) (s : state) :
  self s !! "_sections" = Some (VIndices l) -> (get_sections ≫= f) s = f l s.
Proof.
  intros E. unfold get_sections. rewrite bind_assoc_run.
  now erewrite getattr_run by exact E.
Qed.

Lemma index_of_run {B} (x : string) (start : nat) (l : list string)
    (f : nat -> M B) (s : state) :
  self s !! "_splitted" = Some (VStrings l) ->
  (index_of x start ≫= f) s =
  match Py.index_from x start l with
  | Some i => f i s
  | None => (s, Raise ValueError)
  end.
Proof.
  intros E. unfold index_of. rewrite bind_assoc_run.
  erewrite get_splitted_run by exact E.
  rewrite lift_run. now destruct (Py.index_from x start l).
Qed.

Lemma delattr_run {B} (attr : string) (v : value) (f : unit -> M B)
    (s : state) :
  self s !! attr = Some v ->
  (delattr attr ≫= f) s
  = f tt (State (delete attr (self s)) (logger_level s) (logged s)).
Proof. intros E. rewrite bind_eq. unfold delattr. now rewrite E. Qed.

Lemma delattr_end (attr : string) (v : value) (s : state) :
  self s !! attr = Some v ->
  delattr attr s
  = (State (delete attr (self s)) (logger_level s) (logged s), Ok tt).
Proof. intros E. unfold delattr. now rewrite E. Qed.

End Inversion.

(** ** The attributes each method writes *)

Section WritesLoops.
Context `{Externals}.

Lemma writes_parse_lines lines acc attrs : writes (parse_lines lines acc) attrs.
Proof.
  revert acc. induction lines as [|l lines IH]; intros acc; simpl;
    writes_tac; apply IH.
Qed.

Lemma writes_seat_lines lines : writes (seat_lines lines) ["players"].
Proof.
  induction lines as [|l lines IH]; simpl; writes_tac.
Qed.

Lemma writes_winner_lines sd lines winners attrs :
  writes sd attrs -> writes (winner_lines sd lines winners) attrs.
Proof.
  intros Hsd. revert winners.
  induction lines as [|l lines IH]; intros winners; simpl; writes_tac;
    apply IH.
Qed.

Lemma writes_new_Street lines attrs : writes (new_Street lines) attrs.
Proof.
  unfold new_Street, Street_parse_actions, item. writes_tac.
  apply writes_parse_lines.
Qed.

End WritesLoops.

#[global] Hint Resolve writes_parse_lines writes_seat_lines writes_new_Street
  : methods.

Section Writes.
Context `{Externals}.

Lemma writes_parse_header :
  writes parse_header
         ([ "_splitted"; "_sections"; "extra"; "header_parsed" ] ++ header_fields).
Proof.
  unfold parse_header, header_ident_blinds, header_game_type, header_currency,
    header_game_limit_date, _split_raw, _parse_date, setitem_extra,
    get_splitted, item.
  simpl app. writes_tac.
Qed.

Lemma writes_parse_table :
  writes _parse_table ["_table_match"; "table_name"; "max_players"].
Proof. unfold _parse_table, get_splitted, item. writes_tac. Qed.

Lemma writes_parse_players : writes _parse_players ["players"].
Proof.
  unfold _parse_players, get_splitted. writes_tac.
Qed.

Lemma writes_parse_button : writes _parse_button ["button"].
Proof.
  unfold _parse_button, get_table_match, get_players, item. writes_tac.
Qed.

Lemma writes_parse_hero : writes _parse_hero ["hero"; "players"; "button"].
Proof.
  unfold _parse_hero, _get_hero_from_players, get_splitted, get_sections,
    get_players, item.
  writes_tac.
Qed.

Lemma writes_parse_preflop : writes _parse_preflop ["preflop_actions"].
Proof.
  unfold _parse_preflop, get_splitted, get_sections, item. writes_tac.
Qed.

Lemma writes_parse_flop : writes _parse_flop ["flop"; "flop_actions"].
Proof.
  unfold _parse_flop, index_of, get_splitted. writes_tac.
Qed.

Lemma writes_parse_street street :
  writes (_parse_street street) [street; Py.lower street +:+ "_actions"].
Proof.
  unfold _parse_street, index_of, get_splitted. writes_tac.
Qed.

Lemma writes_parse_showdown :
  writes _parse_showdown ["show_down"; "show_down_actions"].
Proof.
  unfold _parse_showdown, index_of, get_splitted. writes_tac.
Qed.

Lemma writes_parse_pot : writes _parse_pot ["total_pot"].
Proof. unfold _parse_pot, get_splitted, get_sections, item. writes_tac. Qed.

Lemma writes_parse_board : writes _parse_board ["turn"; "river"].
Proof.
  unfold _parse_board, card_at, get_splitted, get_sections, item. writes_tac.
Qed.

Lemma writes_parse_winners : writes _parse_winners ["winners"].
Proof.
  unfold _parse_winners, get_splitted, get_sections, item. writes_tac.
  apply writes_winner_lines. unfold get_bool. writes_tac.
Qed.

End Writes.

(** ** The body as a sequence of steps *)

Section Steps.
Context `{Externals}.

(** What [parse] does after the header. *)
Definition parse_body : M unit :=
  _ ← _parse_table;
  _ ← _parse_players;
  _ ← _parse_button;
  _ ← _parse_hero;
  _ ← _parse_preflop;
  _ ← _parse_flop;
  _ ← _parse_street "turn";
  _ ← _parse_street "river";
  _ ← _parse_showdown;
  _ ← _parse_pot;
  _ ← _parse_board;
  _ ← _parse_winners;
  _ ← _del_split_vars;
  setattr "parsed" (VBool true).

Lemma parse_unfold (s : state) :
  parse_ s =
  (get_bool "header_parsed"
   ≫= fun header_parsed =>
      (if negb header_parsed then parse_header else mret tt)
      ≫= fun _ => parse_body) s.
Proof. reflexivity. Qed.

(** The intermediate states of a successful run of the body. *)
Record steps : Type := Steps {
  at_table : state;      (* after [_parse_table] *)
  at_players : state;
  at_button : state;
  at_hero : state;
  at_preflop : state;
  at_flop : state;
  at_turn : state;
  at_river : state;
  at_showdown : state;
  at_pot : state;
  at_board : state;
  at_winners : state;
}.

Definition body_run (s : state) (x : steps) (t : state) : Prop :=
  _parse_table s = (at_table x, Ok tt)
  /\ _parse_players (at_table x) = (at_players x, Ok tt)
  /\ _parse_button (at_players x) = (at_button x, Ok tt)
  /\ _parse_hero (at_button x) = (at_hero x, Ok tt)
  /\ _parse_preflop (at_hero x) = (at_preflop x, Ok tt)
  /\ _parse_flop (at_preflop x) = (at_flop x, Ok tt)
  /\ _parse_street "turn" (at_flop x) = (at_turn x, Ok tt)
  /\ _parse_street "river" (at_turn x) = (at_river x, Ok tt)
  /\ _parse_showdown (at_river x) = (at_showdown x, Ok tt)
  /\ _parse_pot (at_showdown x) = (at_pot x, Ok tt)
  /\ _parse_board (at_pot x) = (at_board x, Ok tt)
  /\ _parse_winners (at_board x) = (at_winners x, Ok tt)
  /\ is_Some (self (at_winners x) !! "_splitted")
  /\ is_Some (self (at_winners x) !! "_sections")
  /\ t = State (<["parsed" := VBool true]>
                  (delete "_sections" (delete "_splitted" (self (at_winners x)))))
               (logger_level (at_winners x)) (logged (at_winners x)).

Lemma parse_body_steps (s t : state) :
  parse_body s = (t, Ok tt) -> exists x, body_run s x t.
Proof.
  unfold parse_body. intros Hrun.
  repeat match type of Hrun with
         | (_ ≫= _) _ = (_, Ok _) =>
             let s' := fresh "s" in
             let u := fresh "u" in
             let E := fresh "E" in
             apply bind_ok in Hrun as (s' & u & E & Hrun); destruct u
         end.
  unfold _del_split_vars in E11.
  apply bind_ok in E11 as (s13 & [] & D1 & D2).
  unfold delattr in D1, D2.
  destruct (self s11 !! "_splitted") eqn:L1; [|discriminate].
  injection D1 as <-. cbn [self] in D2.
  destruct (delete "_splitted" (self s11) !! "_sections") eqn:L2; [|discriminate].
  injection D2 as <-.
  apply setattr_ok in Hrun. cbn [self logger_level logged] in Hrun.
  exists (Steps s0 s1 s2 s3 s4 s5 s6 s7 s8 s9 s10 s11).
  unfold body_run. cbn [at_table at_players at_button at_hero at_preflop
    at_flop at_turn at_river at_showdown at_pot at_board at_winners].
  repeat (split; [assumption|]).
  split; [eauto|]. split; [|exact Hrun].
  rewrite lookup_delete_ne in L2 by discriminate. eauto.
Qed.

Lemma body_steps_run (s t : state) (x : steps) :
  body_run s x t -> parse_body s = (t, Ok tt).
Proof.
  intros (E1 & E2 & E3 & E4 & E5 & E6 & E7 & E8 & E9 & E10 & E11 & E12
          & [v1 L1] & [v2 L2] & ->).
  unfold parse_body.
  rewrite (bind_run _ _ _ _ _ E1), (bind_run _ _ _ _ _ E2),
    (bind_run _ _ _ _ _ E3), (bind_run _ _ _ _ _ E4),
    (bind_run _ _ _ _ _ E5), (bind_run _ _ _ _ _ E6),
    (bind_run _ _ _ _ _ E7), (bind_run _ _ _ _ _ E8),
    (bind_run _ _ _ _ _ E9), (bind_run _ _ _ _ _ E10),
    (bind_run _ _ _ _ _ E11), (bind_run _ _ _ _ _ E12).
  unfold _del_split_vars. rewrite bind_assoc_run.
  erewrite delattr_run by exact L1.
  erewrite delattr_run
    by (cbn [self]; rewrite lookup_delete_ne by discriminate; exact L2).
  reflexivity.
Qed.

(** A full run on a fresh instance is the header, then the body. *)
Lemma run_parse_ok (hand_text : string) (level : Z) (lg : list string)
    (t : state) :
  run_parse hand_text level lg = (t, Ok tt) <->
  exists s, parse_header (fresh hand_text level lg) = (s, Ok tt)
            /\ parse_body s = (t, Ok tt).
Proof.
  unfold run_parse. rewrite parse_unfold.
  unfold get_bool. rewrite bind_assoc_run.
  erewrite getattr_run by (unfold fresh, new_hand; lookup_attr).
  cbv beta iota. rewrite ret_run. cbn [negb].
  split.
  - intros Hrun. apply bind_ok in Hrun as (s & [] & E1 & E2). eauto.
  - intros (s & E1 & E2). now rewrite (bind_run _ _ _ _ _ E1).
Qed.

(** The split text is there during the whole body. *)
Definition body_attrs : list string :=
  [ "_table_match"; "table_name"; "max_players"; "players"; "button"; "hero";
    "preflop_actions"; "flop"; "flop_actions"; "turn"; "turn_actions";
    "river"; "river_actions"; "show_down"; "show_down_actions"; "total_pot";
    "winners" ].

End Steps.

Create HintDb written discriminated.

#[global] Hint Resolve writes_parse_header writes_parse_table
  writes_parse_players writes_parse_button writes_parse_hero
  writes_parse_preflop writes_parse_flop writes_parse_street
  writes_parse_showdown writes_parse_pot writes_parse_board
  writes_parse_winners : written.

Section Frames.
Context `{Externals}.

Lemma run_keeps {A} (m : M A) (attrs : list string) (s s' : state)
    (r : res A) (k : string) :
  writes m attrs -> m s = (s', r) -> k ∉ attrs ->
  self s' !! k = self s !! k.
Proof.
  intros Hw Hrun Hk. specialize (Hw s k Hk). now rewrite Hrun in Hw.
Qed.

End Frames.

(** [keep E]: an attribute the step [E] does not write is the same
    after it as before. *)
Ltac not_written := apply (bool_decide_unpack _); vm_compute; exact I.

Ltac keep E :=
  match type of E with
  | ?m ?s = (?s', ?r) =>
      repeat match goal with
        | |- context [self s' !! ?k] =>
            rewrite (run_keeps m _ s s' r k ltac:(auto with written) E)
              by not_written
        end
  end.

Ltac keep_in E X :=
  match type of E with
  | ?m ?s = (?s', ?r) =>
      repeat match type of X with
        | context [self s' !! ?k] =>
            rewrite (run_keeps m _ s s' r k ltac:(auto with written) E) in X
              by not_written
        end
  end.

Section PotProperties.
Context `{Externals}.

Lemma parse_pot_ok (s s' : state) :
  _parse_pot s = (s', Ok tt) ->
  exists splitted sections last potline c d,
    self s !! "_splitted" = Some (VStrings splitted)
    /\ self s !! "_sections" = Some (VIndices sections)
    /\ Py.getitem sections (-1) = Some last
    /\ Py.getitem splitted (Z.of_nat last + 2) = Some potline
    /\ Re.match_ _pot_re potline = Some c
    /\ Decimal_of (c !! "1") = Ok d
    /\ self s' !! "total_pot" = Some (VDecimal d).
Proof.
  unfold _parse_pot. intros Hrun.
  apply bind_ok in Hrun as (s1 & splitted & E1 & Hrun).
  apply get_splitted_ok in E1 as (-> & Hsp).
  apply bind_ok in Hrun as (s1 & sections & E1 & Hrun).
  apply get_sections_ok in E1 as (-> & Hsec).
  apply bind_ok in Hrun as (s1 & last & E1 & Hrun).
  apply item_ok in E1 as (-> & Hlast).
  apply bind_ok in Hrun as (s1 & potline & E1 & Hrun).
  apply item_ok in E1 as (-> & Hpot).
  apply bind_ok in Hrun as (s1 & g1 & E1 & Hrun).
  apply lift_ok in E1 as (-> & Hg).
  apply bind_ok in Hrun as (s1 & d & E1 & Hrun).
  apply lift_ok in E1 as (-> & Hd).
  apply setattr_ok in Hrun as ->.
  destruct (Re.match_ _pot_re potline) as [c|] eqn:Hm; [|discriminate].
  injection Hg as <-.
  exists splitted, sections, last, potline, c, d.
  cbn [self]. rewrite lookup_insert_eq. auto 10.
Qed.

(** C8, as the code has it.  After a full parse the total pot is the
    first number of the pot line, the second line after the last
    empty piece of the split text, which must read
    [Total pot N ... | Rake M]; the rake of that line is matched but
    not stored: [rake] still holds what the header gave it, the
    tournament's rake (zero when the line gives none) or [None] in a
    cash game. *)
Theorem total_pot_from_summary (hand_text : string) (level : Z)
    (lg : list string) (t : state) :
  run_parse hand_text level lg = (t, Ok tt) ->
  let splitted := Re.split _split_re (Py.strip hand_text) in
  exists last potline c d header hc,
    Py.getitem (sections_of splitted) (-1) = Some last
    /\ Py.getitem splitted (Z.of_nat last + 2) = Some potline
    /\ Re.match_ _pot_re potline = Some c
    /\ Decimal_of (c !! "1") = Ok d
    /\ self t !! "total_pot" = Some (VDecimal d)
    /\ head splitted = Some header
    /\ Re.match_ _header_re header = Some hc
    /\ self t !! "rake" = Some (header_rake hc).
Proof.
  intros Hrun splitted. subst splitted.
  apply run_parse_ok in Hrun as (s & Hheader & Hbody).
  apply parse_header_ok in Hheader as (header & hc & Hline & Hm & Hrk & Hsp & Hsec).
  apply parse_body_steps in Hbody as (x & Hx).
  destruct Hx as (E1 & E2 & E3 & E4 & E5 & E6 & E7 & E8 & E9 & E10 & E11 & E12
                  & _ & _ & ->).
  destruct (parse_pot_ok _ _ E10)
    as (splitted & sections & last & potline & c & d & Hsp' & Hsec' & Hlast
        & Hpot & Hmp & Hd & Htp).
  keep_in E9 Hsp'. keep_in E8 Hsp'. keep_in E7 Hsp'. keep_in E6 Hsp'.
  keep_in E5 Hsp'. keep_in E4 Hsp'. keep_in E3 Hsp'. keep_in E2 Hsp'.
  keep_in E1 Hsp'.
  keep_in E9 Hsec'. keep_in E8 Hsec'. keep_in E7 Hsec'. keep_in E6 Hsec'.
  keep_in E5 Hsec'. keep_in E4 Hsec'. keep_in E3 Hsec'. keep_in E2 Hsec'.
  keep_in E1 Hsec'.
  rewrite Hsp in Hsp'. injection Hsp' as <-.
  rewrite Hsec in Hsec'. injection Hsec' as <-.
  exists last, potline, c, d, header, hc.
  repeat (split; [assumption|]).
  cbn [self].
  rewrite !lookup_insert_ne, !lookup_delete_ne by discriminate.
  keep E12. keep E11. rewrite Htp. split; [reflexivity|].
  split; [assumption|]. split; [assumption|].
  keep E10. keep E9. keep E8. keep E7. keep E6. keep E5. keep E4. keep E3.
  keep E2. keep E1. exact Hrk.
Qed.

End PotProperties.

(** ** Hands without a flop *)

Section MissingMarkers.
Context `{Externals}.

Lemma index_from_absent (x : string) (start : nat) (l : list string) :
  x ∉ l -> Py.index_from x start l = None.
Proof.
  revert start. induction l as [|y l IH]; intros start Hx; [reflexivity|].
  apply not_elem_of_cons in Hx as [Hne Hx]. simpl.
  destruct start as [|start].
  - destruct (decide (y = x)); [congruence|]. now rewrite IH.
  - now rewrite IH.
Qed.

(** Without a [FLOP] marker [_parse_flop] only sets [flop] to [None],
    and does not fail. *)
Lemma parse_flop_absent (s : state) (splitted : list string) :
  self s !! "_splitted" = Some (VStrings splitted) ->
  "FLOP" ∉ splitted ->
  _parse_flop s
  = (State (<["flop" := VNone]> (self s)) (logger_level s) (logged s), Ok tt).
Proof.
  intros Hsp Hno. unfold _parse_flop.
  rewrite bind_eq. unfold try_except, fmap, M_fmap, index_of.
  erewrite get_splitted_run by exact Hsp.
  unfold lift. rewrite (index_from_absent _ _ _ Hno). reflexivity.
Qed.

(** Without its marker [_parse_street] sets the street and its actions
    to [None], and does not fail. *)
Lemma parse_street_absent (street : string) (s : state)
    (splitted : list string) :
  self s !! "_splitted" = Some (VStrings splitted) ->
  Py.upper street ∉ splitted ->
  _parse_street street s
  = (State (<[Py.lower street +:+ "_actions" := VNone]>
              (<[street := VNone]> (self s)))
           (logger_level s) (logged s), Ok tt).
Proof.
  intros Hsp Hno. unfold _parse_street, try_except.
  erewrite index_of_run by exact Hsp.
  rewrite (index_from_absent _ _ _ Hno). reflexivity.
Qed.

(** Without a [SHOW DOWN] marker there was no showdown. *)
Lemma parse_showdown_absent (s : state) (splitted : list string) :
  self s !! "_splitted" = Some (VStrings splitted) ->
  "SHOW DOWN" ∉ splitted ->
  _parse_showdown s
  = (State (<["show_down_actions" := VNone]>
              (<["show_down" := VBool false]> (self s)))
           (logger_level s) (logged s), Ok tt).
Proof.
  intros Hsp Hno. unfold _parse_showdown, try_except.
  erewrite index_of_run by exact Hsp.
  rewrite (index_from_absent _ _ _ Hno). reflexivity.
Qed.

(** [_parse_board] leaves the instance alone when the line in the
    board's place is no board line. *)
Lemma parse_board_skip (s s' : state) (splitted : list string)
    (sections : list nat) :
  self s !! "_splitted" = Some (VStrings splitted) ->
  self s !! "_sections" = Some (VIndices sections) ->
  (forall last boardline,
     Py.getitem sections (-1) = Some last ->
     Py.getitem splitted (Z.of_nat last + 3) = Some boardline ->
     Py.startswith "Board" boardline = false) ->
  _parse_board s = (s', Ok tt) -> s' = s.
Proof.
  intros Hsp Hsec Hno. unfold _parse_board. intros Hrun.
  erewrite get_splitted_run in Hrun by exact Hsp.
  erewrite get_sections_run in Hrun by exact Hsec.
  apply bind_ok in Hrun as (s1 & last & E1 & Hrun).
  apply item_ok in E1 as (-> & Hlast).
  apply bind_ok in Hrun as (s1 & boardline & E1 & Hrun).
  apply item_ok in E1 as (-> & Hline).
  rewrite (Hno last boardline Hlast Hline) in Hrun. cbn [negb] in Hrun.
  now injection Hrun.
Qed.

(** C6, as the code has it.  When the split text holds none of the
    markers [FLOP], [TURN] and [RIVER], and the line in the board's
    place of the summary is no board line, a full parse that succeeds
    reports the flop, the turn and the river and the actions of the
    last two as [None], and there is no board. *)
Theorem no_flop_no_streets (hand_text : string) (level : Z)
    (lg : list string) (t : state) :
  let splitted := Re.split _split_re (Py.strip hand_text) in
  "FLOP" ∉ splitted -> "TURN" ∉ splitted -> "RIVER" ∉ splitted ->
  (forall last boardline,
     Py.getitem (sections_of splitted) (-1) = Some last ->
     Py.getitem splitted (Z.of_nat last + 3) = Some boardline ->
     Py.startswith "Board" boardline = false) ->
  run_parse hand_text level lg = (t, Ok tt) ->
  self t !! "flop" = Some VNone
  /\ self t !! "turn" = Some VNone
  /\ self t !! "turn_actions" = Some VNone
  /\ self t !! "river" = Some VNone
  /\ self t !! "river_actions" = Some VNone
  /\ board (self t) = None.
Proof.
  intros splitted Hflop Hturn Hriver Hboard Hrun. subst splitted.
  apply run_parse_ok in Hrun as (s & Hheader & Hbody).
  apply parse_header_ok in Hheader as (header & hc & _ & _ & _ & Hsp & Hsec).
  apply parse_body_steps in Hbody as (x & Hx).
  destruct Hx as (E1 & E2 & E3 & E4 & E5 & E6 & E7 & E8 & E9 & E10 & E11 & E12
                  & _ & _ & ->).
  set (sp := Re.split _split_re (Py.strip hand_text)) in *.
  assert (Hsp6 : self (at_preflop x) !! "_splitted" = Some (VStrings sp)).
  { keep E5. keep E4. keep E3. keep E2. keep E1. exact Hsp. }
  assert (Hsp7 : self (at_flop x) !! "_splitted" = Some (VStrings sp))
    by (keep E6; exact Hsp6).
  assert (Hsp8 : self (at_turn x) !! "_splitted" = Some (VStrings sp))
    by (keep E7; exact Hsp7).
  assert (Hsp10 : self (at_pot x) !! "_splitted" = Some (VStrings sp)).
  { keep E10. keep E9. keep E8. exact Hsp8. }
  assert (Hsec10 : self (at_pot x) !! "_sections"
                   = Some (VIndices (sections_of sp))).
  { keep E10. keep E9. keep E8. keep E7. keep E6. keep E5. keep E4. keep E3.
    keep E2. keep E1. exact Hsec. }
  rewrite (parse_flop_absent _ _ Hsp6 Hflop) in E6.
  rewrite (parse_street_absent "turn" _ _ Hsp7 Hturn) in E7.
  rewrite (parse_street_absent "river" _ _ Hsp8 Hriver) in E8.
  pose proof (parse_board_skip _ _ _ _ Hsp10 Hsec10 Hboard E11) as E11'.
  assert (Hfinal : forall k v,
            k ∈ ["flop"; "turn"; "turn_actions"; "river"; "river_actions"] ->
            self (at_river x) !! k = Some v ->
            (<["parsed" := VBool true]>
               (delete "_sections" (delete "_splitted" (self (at_winners x)))))
              !! k = Some v).
  { intros k v Hk Hv.
    rewrite lookup_insert_ne, !lookup_delete_ne
      by (intros <-; revert Hk; apply (bool_decide_unpack _); vm_compute;
          exact I).
    rewrite <- Hv.
    rewrite (run_keeps _ _ _ _ _ k writes_parse_winners E12),
      E11', (run_keeps _ _ _ _ _ k writes_parse_pot E10),
      (run_keeps _ _ _ _ _ k writes_parse_showdown E9); [reflexivity|..];
      intros Hin; revert Hk; 
      repeat (apply elem_of_cons in Hin as [->|Hin];
              [apply (bool_decide_unpack _); vm_compute; exact I|]);
      now apply elem_of_nil in Hin. }
  injection E6 as E6. injection E7 as E7. injection E8 as E8.
  assert (Hflop' : self (at_river x) !! "flop" = Some VNone).
  { rewrite <- E8. cbn [self]. rewrite !lookup_insert_ne by discriminate.
    rewrite <- E7. cbn [self]. rewrite !lookup_insert_ne by discriminate.
    rewrite <- E6. cbn [self]. now rewrite lookup_insert_eq. }
  assert (Hturn' : self (at_river x) !! "turn" = Some VNone
                   /\ self (at_river x) !! "turn_actions" = Some VNone).
  { rewrite <- E8. cbn [self]. rewrite !lookup_insert_ne by discriminate.
    rewrite <- E7. cbn [self]. split.
    - now rewrite lookup_insert_ne, lookup_insert_eq by discriminate.
    - now rewrite lookup_insert_eq. }
  assert (Hriver' : self (at_river x) !! "river" = Some VNone
                    /\ self (at_river x) !! "river_actions" = Some VNone).
  { rewrite <- E8. cbn [self]. split.
    - now rewrite lookup_insert_ne, lookup_insert_eq by discriminate.
    - now rewrite lookup_insert_eq. }
  destruct Hturn' as [T1 T2], Hriver' as [R1 R2].
  cbn [self].
  assert (F : (<["parsed" := VBool true]>
                 (delete "_sections" (delete "_splitted" (self (at_winners x)))))
                !! "flop" = Some VNone)
    by (apply Hfinal; [apply (bool_decide_unpack _); vm_compute; exact I
                      | exact Hflop']).
  repeat split;
    try (apply Hfinal;
         [apply (bool_decide_unpack _); vm_compute; exact I | assumption]).
  unfold board. now rewrite F.
Qed.

End MissingMarkers.

(** ** The button and the hero *)

(** The names of the seat list of an instance. *)
Definition seat_names `{Externals} (h : gmap string value) : list string :=
  match h !! "players" with
  | Some (VPlayers players) => name <$> players
  | _ => []
  end.

(** A lookup in an instance built by assignments. *)
Ltac solve_lookup :=
  repeat (rewrite lookup_insert_ne by discriminate);
  first [ apply lookup_insert_eq | assumption ].

Section ButtonProperties.
Context `{Externals}.

Lemma find_by_name_spec (n : string) (players : list Player) (p : Player)
    (i : nat) :
  find_by_name n players = Some (p, i) ->
  players !! i = Some p /\ name p = n.
Proof.
  revert i. induction players as [|q players IH]; intros i; [discriminate|].
  simpl. destruct (String.eqb (name q) n) eqn:E.
  - intros [= <- <-]. apply String.eqb_eq in E. auto.
  - destruct (find_by_name n players) as [[p' i']|]; [|discriminate].
    simpl. intros [= <- <-]. now apply IH.
Qed.

Lemma getitem_lookup {A} (l : list A) (i : Z) (a : A) :
  Py.getitem l i = Some a ->
  exists j, l !! j = Some a
    /\ forall l' : list A, List.length l' = List.length l ->
         Py.getitem l' i = l' !! j.
Proof.
  unfold Py.getitem. intros Hget.
  destruct ((0 <=? i) && (i <? Z.of_nat (List.length l))) eqn:E1.
  - exists (Z.to_nat i). split; [exact Hget|].
    intros l' ->. now rewrite E1.
  - destruct ((- Z.of_nat (List.length l) <=? i) && (i <? 0)) eqn:E2;
      [|discriminate].
    exists (Z.to_nat (Z.of_nat (List.length l) + i)). split; [exact Hget|].
    intros l' ->. now rewrite E1, E2.
Qed.

Lemma setitem_nat {A} (l l' : list A) (i : nat) (x : A) :
  Py.setitem l (Z.of_nat i) x = Some l' -> l' = <[i := x]> l.
Proof.
  unfold Py.setitem.
  destruct ((0 <=? Z.of_nat i) && (Z.of_nat i <? Z.of_nat (List.length l))).
  - rewrite Nat2Z.id. now intros [= <-].
  - replace (Z.of_nat i <? 0) with false by (symmetry; apply Z.ltb_ge; lia).
    rewrite andb_false_r. discriminate.
Qed.

Lemma parse_button_ok (s s' : state) :
  _parse_button s = (s', Ok tt) ->
  exists tc bs players button,
    self s !! "_table_match" = Some (VMatch (Some tc))
    /\ int_of (tc !! "button") = Ok bs
    /\ self s !! "players" = Some (VPlayers players)
    /\ Py.getitem players (bs - 1) = Some button
    /\ s' = State (<["button" := VPlayer button]> (self s))
                  (logger_level s) (logged s).
Proof.
  unfold _parse_button. intros Hrun.
  apply bind_ok in Hrun as (s1 & tm & E1 & Hrun).
  apply get_table_match_ok in E1 as (-> & Htm).
  apply bind_ok in Hrun as (s1 & b & E1 & Hrun).
  apply lift_ok in E1 as (-> & Hb).
  apply bind_ok in Hrun as (s1 & bs & E1 & Hrun).
  apply lift_ok in E1 as (-> & Hbs).
  apply bind_ok in Hrun as (s1 & players & E1 & Hrun).
  apply get_players_ok in E1 as (-> & Hpl).
  apply bind_ok in Hrun as (s1 & button & E1 & Hrun).
  apply item_ok in E1 as (-> & Hitem).
  apply setattr_ok in Hrun.
  destruct tm as [tc|]; [|discriminate]. injection Hb as <-.
  exists tc, bs, players, button. auto 10.
Qed.

(** What a successful [_parse_hero] leaves: no hero and nothing else
    changed, or the hero with the hole cards in the seat list, and on
    the button when the button's player has the hero's name. *)
Lemma parse_hero_ok (s s' : state) (players : list Player) (button : Player) :
  self s !! "players" = Some (VPlayers players) ->
  self s !! "button" = Some (VPlayer button) ->
  _parse_hero s = (s', Ok tt) ->
  (self s' !! "hero" = Some VNone
   /\ self s' !! "players" = Some (VPlayers players)
   /\ self s' !! "button" = Some (VPlayer button))
  \/ exists hero i c,
       players !! i = Some hero
       /\ (let hero' := _Player (name hero) (stack hero) (seat hero) (Some c) in
           self s' !! "hero" = Some (VPlayer hero')
           /\ self s' !! "players" = Some (VPlayers (<[i := hero']> players))
           /\ self s' !! "button"
              = Some (VPlayer (if String.eqb (name button) (name hero)
                               then hero' else button))).
Proof.
  intros Hpl Hbt. unfold _parse_hero. intros Hrun.
  apply bind_ok in Hrun as (s1 & splitted & E1 & Hrun).
  apply get_splitted_ok in E1 as (-> & Hsp).
  apply bind_ok in Hrun as (s1 & sections & E1 & Hrun).
  apply get_sections_ok in E1 as (-> & Hsec).
  apply bind_ok in Hrun as (s1 & s0 & E1 & Hrun).
  apply item_ok in E1 as (-> & Hs0).
  apply bind_ok in Hrun as (s1 & line & E1 & Hrun).
  apply item_ok in E1 as (-> & Hline).
  revert Hrun. unfold try_except, _get_hero_from_players, get_players.
  destruct (Re.match_ _hero_re line) as [hc|]; mrun.
  2:{ intros [= <-]. left. cbn [self].
      split; [solve_lookup | split; solve_lookup]. }
  destruct (hc !! "hero_name") as [n|]; mrun.
  2:{ intros [= <-]. left. cbn [self].
      split; [solve_lookup | split; solve_lookup]. }
  destruct (find_by_name n players) as [[hero i]|] eqn:Hfind; mrun.
  2:{ intros [= <-]. left. cbn [self].
      split; [solve_lookup | split; solve_lookup]. }
  apply find_by_name_spec in Hfind as (Hi & Hn).
  cbv beta iota.
  destruct (Combo_from_array
              (Re.findall hero_cards_re "1" (default "" (hc !! "cards"))))
    as [c|]; mrun; [|discriminate].
  destruct (Py.setitem players (Z.of_nat i)
              (_Player (name hero) (stack hero) (seat hero) (Some c)))
    as [players'|] eqn:Hset; mrun; [|discriminate].
  apply setitem_nat in Hset as ->.
  cbv beta iota. cbn [name].
  destruct (String.eqb (name button) (name hero)) eqn:Heq; mrun.
  - unfold setattr. cbv beta iota. cbn [self logger_level logged].
    intros [= <-]. right. exists hero, i, c. split; [exact Hi|].
    rewrite Heq. cbn [self]. split; [solve_lookup | split; solve_lookup].
  - unfold mret, M_ret. cbv beta iota.
    intros [= <-]. right. exists hero, i, c. split; [exact Hi|].
    rewrite Heq. cbn [self]. split; [solve_lookup | split; solve_lookup].
Qed.

Lemma parse_table_ok (s s' : state) :
  _parse_table s = (s', Ok tt) ->
  exists splitted line,
    self s !! "_splitted" = Some (VStrings splitted)
    /\ Py.getitem splitted 1 = Some line
    /\ self s' !! "_table_match" = Some (VMatch (Re.match_ _table_re line)).
Proof.
  unfold _parse_table. intros Hrun.
  apply bind_ok in Hrun as (s1 & splitted & E1 & Hrun).
  apply get_splitted_ok in E1 as (-> & Hsp).
  apply bind_ok in Hrun as (s1 & line & E1 & Hrun).
  apply item_ok in E1 as (-> & Hline).
  exists splitted, line. split; [exact Hsp|]. split; [exact Hline|].
  apply bind_ok in Hrun as (s1 & [] & E1 & Hrun).
  apply setattr_ok in E1 as ->.
  assert (Hw : writes (table_name ← lift (group (Re.match_ _table_re line) "1");
                       _ ← setattr "table_name" (VGroup table_name);
                       g2 ← lift (group (Re.match_ _table_re line) "2");
                       n ← lift (int_of g2);
                       setattr "max_players" (VInt n))
                      ["table_name"; "max_players"]) by writes_tac.
  rewrite (run_keeps _ _ _ _ _ "_table_match" Hw Hrun) by not_written.
  cbn [self]. apply lookup_insert_eq.
Qed.

(** With distinct names in the seat list, the entry at the button's
    index is the button's player, also when the hero took that seat's
    place. *)
Lemma button_at_seat (players : list Player) (button hero hero' : Player)
    (i : Z) (hi : nat) :
  Py.getitem players i = Some button ->
  players !! hi = Some hero ->
  name hero' = name hero ->
  NoDup (name <$> <[hi := hero']> players) ->
  Py.getitem (<[hi := hero']> players) i
  = Some (if String.eqb (name button) (name hero) then hero' else button).
Proof.
  intros Hget Hhi Hname Hnodup.
  destruct (getitem_lookup _ _ _ Hget) as (j & Hj & Hsame).
  rewrite Hsame by apply length_insert.
  assert (Hlt : (hi < List.length players)%nat)
    by (apply lookup_lt_is_Some; eauto).
  destruct (decide (j = hi)) as [->|Hne].
  - rewrite list_lookup_insert_eq by exact Hlt.
    rewrite Hhi in Hj. injection Hj as <-.
    now rewrite String.eqb_refl.
  - rewrite list_lookup_insert_ne by congruence.
    destruct (String.eqb (name button) (name hero)) eqn:Heq; [|exact Hj].
    apply String.eqb_eq in Heq. exfalso. apply Hne.
    eapply NoDup_lookup; [exact Hnodup| |].
    + rewrite list_lookup_fmap, list_lookup_insert_ne by congruence.
      rewrite Hj. reflexivity.
    + rewrite list_lookup_fmap, list_lookup_insert_eq by exact Hlt.
      simpl. congruence.
Qed.

(** C10, as the code has it.  After a full parse of a hand whose seats
    carry distinct names, [button] is the entry of the seat list at the
    index one below the button seat's number of the table line; and
    when the hero has the name of the button's player, [button] is the
    hero's record, hole cards included. *)
Theorem button_is_seat_entry (hand_text : string) (level : Z)
    (lg : list string) (t : state) :
  run_parse hand_text level lg = (t, Ok tt) ->
  NoDup (seat_names (self t)) ->
  exists table_line tc bs players button,
    Py.getitem (Re.split _split_re (Py.strip hand_text)) 1 = Some table_line
    /\ Re.match_ _table_re table_line = Some tc
    /\ int_of (tc !! "button") = Ok bs
    /\ self t !! "players" = Some (VPlayers players)
    /\ self t !! "button" = Some (VPlayer button)
    /\ Py.getitem players (bs - 1) = Some button
    /\ (forall h, self t !! "hero" = Some (VPlayer h) ->
                  name h = name button -> button = h).
Proof.
  intros Hrun Hnodup.
  apply run_parse_ok in Hrun as (s & Hheader & Hbody).
  apply parse_header_ok in Hheader as (header & hc & _ & _ & _ & Hsp & _).
  apply parse_body_steps in Hbody as (x & Hx).
  destruct Hx as (E1 & E2 & E3 & E4 & E5 & E6 & E7 & E8 & E9 & E10 & E11 & E12
                  & _ & _ & ->).
  destruct (parse_table_ok _ _ E1) as (splitted & table_line & Hsp' & Hline & Htm).
  rewrite Hsp in Hsp'. injection Hsp' as <-.
  destruct (parse_button_ok _ _ E3)
    as (tc & bs & players & button & Htm' & Hbs & Hpl & Hitem & Es4).
  keep_in E2 Htm'. rewrite Htm in Htm'. injection Htm' as Htc.
  assert (Hpl4 : self (at_button x) !! "players" = Some (VPlayers players))
    by (keep E3; exact Hpl).
  assert (Hbt4 : self (at_button x) !! "button" = Some (VPlayer button))
    by (rewrite Es4; cbn [self]; apply lookup_insert_eq).
  assert (Hfinal : forall k,
            k ∈ ["players"; "button"; "hero"] ->
            (<["parsed" := VBool true]>
               (delete "_sections" (delete "_splitted" (self (at_winners x)))))
              !! k = self (at_hero x) !! k).
  { intros k Hk.
    rewrite lookup_insert_ne, !lookup_delete_ne
      by (intros <-; revert Hk; apply (bool_decide_unpack _); vm_compute;
          exact I).
    rewrite (run_keeps _ _ _ _ _ k writes_parse_winners E12),
      (run_keeps _ _ _ _ _ k writes_parse_board E11),
      (run_keeps _ _ _ _ _ k writes_parse_pot E10),
      (run_keeps _ _ _ _ _ k writes_parse_showdown E9),
      (run_keeps _ _ _ _ _ k (writes_parse_street "river") E8),
      (run_keeps _ _ _ _ _ k (writes_parse_street "turn") E7),
      (run_keeps _ _ _ _ _ k writes_parse_flop E6),
      (run_keeps _ _ _ _ _ k writes_parse_preflop E5); [reflexivity|..];
      intros Hin; revert Hk;
      repeat (apply elem_of_cons in Hin as [->|Hin];
              [apply (bool_decide_unpack _); vm_compute; exact I|]);
      now apply elem_of_nil in Hin. }
  unfold seat_names in Hnodup. cbn [self] in Hnodup |- *.
  rewrite !Hfinal by (apply (bool_decide_unpack _); vm_compute; exact I).
  rewrite Hfinal in Hnodup
    by (apply (bool_decide_unpack _); vm_compute; exact I).
  exists table_line, tc, bs.
  destruct (parse_hero_ok _ _ _ _ Hpl4 Hbt4 E4)
    as [(Hh & Hp & Hb)|(hero & i & c & Hi & Hh & Hp & Hb)].
  - exists players, button. rewrite Hh, Hp, Hb.
    repeat (split; [auto; fail|]). discriminate.
  - cbv zeta in Hh, Hp, Hb. rewrite Hp in Hnodup.
    eexists _, _. rewrite Hh, Hp, Hb.
    split; [exact Hline|]. split; [exact Htc|].
    split; [exact Hbs|]. split; [reflexivity|]. split; [reflexivity|].
    split.
    + apply button_at_seat; auto.
    + intros h [= <-]. cbn [name].
      destruct (String.eqb (name button) (name hero)) eqn:Heq; [reflexivity|].
      intros E. apply String.eqb_neq in Heq. congruence.
Qed.

End ButtonProperties.

(** ** An unknown line among the action lines

    The split text [xs ++ l :: ys] is compared with [xs ++ ys]: the same
    pieces without the line [l]. *)

(** Where a piece of [xs ++ ys] stands in [xs ++ l :: ys]. *)
Definition shift (p i : nat) : nat := if (i <? p)%nat then i else S i.

Fixpoint sections_from (i : nat) (splitted : list string) : list nat :=
  match splitted with
  | [] => []
  | x :: rest =>
      if negb (truthy (Some x)) then i :: sections_from (S i) rest
      else sections_from (S i) rest
  end.

Section Insertion.
Context `{Externals}.

Lemma sections_of_from (splitted : list string) :
  sections_of splitted = sections_from 0 splitted.
Proof.
  unfold sections_of. generalize 0%nat as i.
  induction splitted as [|x rest IH]; intros i; [reflexivity|].
  cbn [List.length seq combine List.filter snd sections_from].
  destruct (negb (truthy (Some x)));
    cbn [List.map fst]; [f_equal|]; apply IH.
Qed.

Lemma sections_from_low (zs : list string) (j k : nat) :
  In k (sections_from j zs) -> (j <= k)%nat.
Proof.
  revert j. induction zs as [|z zs IHz]; intros j; [intros []|].
  cbn [sections_from]. destruct (negb (truthy (Some z))).
  - intros [<-|Hin]; [lia|]. apply IHz in Hin. lia.
  - intros Hin. apply IHz in Hin. lia.
Qed.

Lemma sections_from_S (zs : list string) (j : nat) :
  sections_from (S j) zs = S <$> sections_from j zs.
Proof.
  revert j. induction zs as [|z zs IHz]; intros j; [reflexivity|].
  cbn [sections_from].
  destruct (negb (truthy (Some z))); rewrite ?fmap_cons, IHz; reflexivity.
Qed.

Lemma shift_above (p : nat) (ks : list nat) :
  (forall k, In k ks -> (p <= k)%nat) -> shift p <$> ks = S <$> ks.
Proof.
  intros Hks. induction ks as [|k ks IHk]; [reflexivity|].
  rewrite !fmap_cons, IHk by (intros; apply Hks; now right).
  unfold shift. replace (k <? p)%nat with false; [reflexivity|].
  symmetry. apply Nat.ltb_ge. apply Hks. now left.
Qed.

Lemma sections_from_insert (xs ys : list string) (l : string) (i : nat) :
  l <> EmptyString ->
  sections_from i (xs ++ l :: ys)
  = shift (i + List.length xs) <$> sections_from i (xs ++ ys).
Proof.
  intros Hl. revert i. induction xs as [|x xs IH]; intros i.
  - cbn [app List.length sections_from]. destruct l; [congruence|].
    cbn [truthy negb]. rewrite shift_above; [apply sections_from_S|].
    intros k Hk. apply sections_from_low in Hk. lia.
  - cbn [app List.length sections_from]. rewrite IH.
    replace (S i + List.length xs)%nat with (i + S (List.length xs))%nat by lia.
    destruct (negb (truthy (Some x))); [|reflexivity].
    rewrite fmap_cons. f_equal. unfold shift.
    replace (i <? i + S (List.length xs))%nat with true; [reflexivity|].
    symmetry. apply Nat.ltb_lt. lia.
Qed.

Lemma sections_of_insert (xs ys : list string) (l : string) :
  l <> EmptyString ->
  sections_of (xs ++ l :: ys)
  = shift (List.length xs) <$> sections_of (xs ++ ys).
Proof.
  intros Hl. rewrite !sections_of_from. now rewrite sections_from_insert.
Qed.

Lemma getitem_fmap {A B} (f : A -> B) (l : list A) (i : Z) :
  Py.getitem (f <$> l) i = f <$> Py.getitem l i.
Proof.
  unfold Py.getitem. rewrite length_fmap.
  destruct ((0 <=? i) && (i <? Z.of_nat (List.length l)));
    [apply list_lookup_fmap|].
  destruct ((- Z.of_nat (List.length l) <=? i) && (i <? 0));
    [apply list_lookup_fmap | reflexivity].
Qed.

Lemma getitem_nat {A} (l : list A) (i : nat) :
  Py.getitem l (Z.of_nat i) = l !! i.
Proof.
  unfold Py.getitem.
  destruct ((0 <=? Z.of_nat i) && (Z.of_nat i <? Z.of_nat (List.length l)))
    eqn:E.
  - now rewrite Nat2Z.id.
  - replace (Z.of_nat i <? 0) with false by (symmetry; apply Z.ltb_ge; lia).
    rewrite andb_false_r. symmetry. apply lookup_ge_None.
    apply andb_false_iff in E as [E|E].
    + apply Z.leb_gt in E. lia.
    + apply Z.ltb_ge in E. lia.
Qed.

(** Lookups around the inserted line. *)
Lemma lookup_insert_low (xs ys : list string) (l : string) (i : nat) :
  (i < List.length xs)%nat -> (xs ++ l :: ys) !! i = (xs ++ ys) !! i.
Proof. intros Hi. now rewrite !lookup_app_l by exact Hi. Qed.

Lemma lookup_insert_high (xs ys : list string) (l : string) (i : nat) :
  (List.length xs <= i)%nat -> (xs ++ l :: ys) !! S i = (xs ++ ys) !! i.
Proof.
  intros Hi. rewrite !lookup_app_r by lia.
  now replace (S i - List.length xs)%nat with (S (i - List.length xs)) by lia.
Qed.

(** Searches around the inserted line. *)
Lemma index_from_insert_low (x l : string) (xs ys : list string) (a : nat) :
  x <> l -> (a <= List.length xs)%nat ->
  Py.index_from x a (xs ++ l :: ys)
  = shift (List.length xs) <$> Py.index_from x a (xs ++ ys).
Proof.
  intros Hx. revert a. induction xs as [|y xs IH]; intros a Ha.
  - simpl in Ha. assert (a = 0%nat) as -> by lia. simpl.
    destruct (decide (l = x)); [congruence|].
    destruct (Py.index_from x 0 ys); reflexivity.
  - simpl. destruct a as [|a].
    + destruct (decide (y = x)); [reflexivity|].
      rewrite IH by lia. destruct (Py.index_from x 0 (xs ++ ys)) as [i|];
        [|reflexivity].
      simpl. f_equal. unfold shift.
      change (S i <? S (List.length xs))%nat with (i <? List.length xs)%nat.
      now destruct (i <? List.length xs)%nat.
    + rewrite IH by (simpl in Ha; lia).
      destruct (Py.index_from x a (xs ++ ys)) as [i|]; [|reflexivity].
      simpl. f_equal. unfold shift.
      change (S i <? S (List.length xs))%nat with (i <? List.length xs)%nat.
      now destruct (i <? List.length xs)%nat.
Qed.

Lemma index_from_insert_high (x l : string) (xs ys : list string) (a : nat) :
  (List.length xs <= a)%nat ->
  Py.index_from x (S a) (xs ++ l :: ys) = S <$> Py.index_from x a (xs ++ ys).
Proof.
  revert a. induction xs as [|y xs IH]; intros a Ha.
  - reflexivity.
  - simpl. destruct a as [|a]; [simpl in Ha; lia|].
    rewrite IH by (simpl in Ha; lia).
    now destruct (Py.index_from x a (xs ++ ys)).
Qed.

Lemma index_from_found {A} `{EqDecision A} (x : A) (a : nat) (l : list A)
    (i : nat) :
  Py.index_from x a l = Some i -> (a <= i)%nat /\ l !! i = Some x.
Proof.
  revert a i. induction l as [|y l IH]; intros a i; [discriminate|].
  simpl. destruct a as [|a].
  - destruct (decide (y = x)) as [->|Hne].
    + intros [= <-]. split; [lia | reflexivity].
    + destruct (Py.index_from x 0 l) as [j|] eqn:E; [|discriminate].
      intros [= <-]. apply IH in E as [_ E]. split; [lia | exact E].
  - destruct (Py.index_from x a l) as [j|] eqn:E; [|discriminate].
    intros [= <-]. apply IH in E as [Hle E]. split; [lia | exact E].
Qed.

(** Slices around the inserted line. *)
Lemma lslice_insert_low (xs ys : list string) (l : string) (a b : nat) :
  (b <= List.length xs)%nat ->
  Py.lslice a b (xs ++ l :: ys) = Py.lslice a b (xs ++ ys).
Proof.
  intros Hb. unfold Py.lslice.
  destruct (decide (a <= List.length xs)%nat) as [Ha|Ha].
  - rewrite !skipn_app.
    replace (a - List.length xs)%nat with 0%nat by lia. simpl.
    rewrite !firstn_app.
    replace (b - a - List.length (List.skipn a xs))%nat with 0%nat
      by (rewrite length_skipn; lia).
    reflexivity.
  - replace (b - a)%nat with 0%nat by lia. reflexivity.
Qed.

Lemma lslice_insert_high (xs ys : list string) (l : string) (a b : nat) :
  (List.length xs <= a)%nat ->
  Py.lslice (S a) (S b) (xs ++ l :: ys) = Py.lslice a b (xs ++ ys).
Proof.
  intros Ha. unfold Py.lslice. rewrite !skipn_app.
  rewrite !(skipn_all2 (n := S a)), !(skipn_all2 (n := a)) by lia.
  replace (S a - List.length xs)%nat with (S (a - List.length xs)) by lia.
  reflexivity.
Qed.

Lemma lslice_insert_mid (xs ys : list string) (l : string) (a b : nat) :
  (a <= List.length xs)%nat -> (List.length xs <= b)%nat ->
  Py.lslice a (S b) (xs ++ l :: ys)
    = List.skipn a xs ++ l :: List.firstn (b - List.length xs) ys
  /\ Py.lslice a b (xs ++ ys)
    = List.skipn a xs ++ List.firstn (b - List.length xs) ys.
Proof.
  intros Ha Hb. unfold Py.lslice. rewrite !skipn_app.
  replace (a - List.length xs)%nat with 0%nat by lia.
  rewrite !skipn_O, !firstn_app, length_skipn.
  rewrite !(firstn_all2 (List.skipn a xs)) by (rewrite length_skipn; lia).
  replace (S b - a - (List.length xs - a))%nat
    with (S (b - List.length xs)) by lia.
  replace (b - a - (List.length xs - a))%nat with (b - List.length xs)%nat
    by lia.
  split; reflexivity.
Qed.

Lemma getitem_0_cons {A} (b : A) (L : list A) : Py.getitem (b :: L) 0 = Some b.
Proof. change 0 with (Z.of_nat 0). now rewrite getitem_nat. Qed.

Lemma getitem_head {A} (L : list A) : Py.getitem L 0 = head L.
Proof.
  change 0 with (Z.of_nat 0). rewrite getitem_nat. now destruct L.
Qed.

Lemma getitem_last {A} (L : list A) : Py.getitem L (-1) = last L.
Proof.
  rewrite last_lookup. unfold Py.getitem.
  destruct L as [|b L]; [reflexivity|].
  replace ((0 <=? -1) && (-1 <? Z.of_nat (List.length (b :: L))))
    with false by reflexivity.
  replace ((- Z.of_nat (List.length (b :: L)) <=? -1) && (-1 <? 0))
    with true.
  - f_equal. cbn [List.length]. lia.
  - symmetry. apply andb_true_iff. split; [|reflexivity].
    apply Z.leb_le. cbn [List.length]. lia.
Qed.

Lemma sections_from_elem (zs : list string) (i k : nat) :
  In k (sections_from i zs) ->
  (i <= k)%nat /\ zs !! (k - i)%nat = Some EmptyString.
Proof.
  revert i. induction zs as [|z zs IH]; intros i; [intros []|].
  cbn [sections_from]. destruct z as [|c z]; cbn [truthy negb].
  - intros [<-|Hin].
    + split; [lia|]. now replace (i - i)%nat with 0%nat by lia.
    + apply IH in Hin as [Hle Hin]. split; [lia|].
      now replace (k - i)%nat with (S (k - S i)) by lia.
  - intros Hin. apply IH in Hin as [Hle Hin]. split; [lia|].
    now replace (k - i)%nat with (S (k - S i)) by lia.
Qed.

Lemma section_empty (zs : list string) (k : nat) :
  k ∈ sections_of zs -> zs !! k = Some EmptyString.
Proof.
  rewrite sections_of_from, list_elem_of_In. intros Hin.
  apply sections_from_elem in Hin as [_ Hin].
  now rewrite Nat.sub_0_r in Hin.
Qed.

End Insertion.

(** ** Two runs side by side

    The run on a hand and the run on the same hand with one more line
    [l] are followed together.  The states of the two runs agree on
    every attribute but the text and its split, and the second log is
    the first with the diagnostics for [l]. *)

Definition hidden : list string := ["raw"; "_splitted"; "_sections"].

(** [lg'] is the log [lg] with some more copies of [msg]. *)
Inductive diagnosed (msg : string) : list string -> list string -> Prop :=
| diagnosed_same lg : diagnosed msg lg lg
| diagnosed_both lg lg' m :
    diagnosed msg lg lg' -> diagnosed msg (lg ++ [m]) (lg' ++ [m])
| diagnosed_more lg lg' :
    diagnosed msg lg lg' -> diagnosed msg lg (lg' ++ [msg]).

(** Both attributes are set, to [v] and [v'], or none of them is. *)
Definition paired `{Externals} (o o' : option value) (v v' : value) : Prop :=
  (o = Some v /\ o' = Some v') \/ (o = None /\ o' = None).

Definition res_rel {A B} (Q : A -> B -> Prop) (r : res A) (r' : res B)
  : Prop :=
  match r, r' with
  | Ok a, Ok b => Q a b
  | Raise e, Raise e' => e = e'
  | _, _ => False
  end.

Ltac not_hidden := apply (bool_decide_unpack _); vm_compute; exact I.

Section Simulation.
Context `{Externals}.
Variables (hand_text hand_text' : string) (xs ys : list string) (l : string).

Local Abbreviation sp := (xs ++ ys).
Local Abbreviation sp' := (xs ++ l :: ys).
Local Abbreviation p := (List.length xs).

Record sim_state (s s' : state) : Prop := SimState {
  sim_raw : self s !! "raw" = Some (VStr (Py.strip hand_text));
  sim_raw' : self s' !! "raw" = Some (VStr (Py.strip hand_text'));
  sim_splitted :
    paired (self s !! "_splitted") (self s' !! "_splitted")
           (VStrings sp) (VStrings sp');
  sim_sections :
    paired (self s !! "_sections") (self s' !! "_sections")
           (VIndices (sections_of sp)) (VIndices (sections_of sp'));
  sim_attrs : forall k, k ∉ hidden -> self s !! k = self s' !! k;
  sim_level : logger_level s = logger_level s';
  sim_logged : diagnosed (message l) (logged s) (logged s');
}.

Definition sim {A B} (Q : A -> B -> Prop) (m : M A) (m' : M B) : Prop :=
  forall s s', sim_state s s' ->
    sim_state (fst (m s)) (fst (m' s'))
    /\ res_rel Q (snd (m s)) (snd (m' s')).

(** The same steps on both sides. *)
Definition same {A} (m : M A) : Prop := sim eq m m.

Lemma sim_ret {A B} (Q : A -> B -> Prop) (a : A) (b : B) :
  Q a b -> sim Q (mret a) (mret b).
Proof. intros HQ s s' Hs. split; [exact Hs | exact HQ]. Qed.

Lemma sim_raise {A B} (Q : A -> B -> Prop) (e : exn) :
  sim Q (raise e) (raise e).
Proof. intros s s' Hs. split; [exact Hs | reflexivity]. Qed.

Lemma sim_lift {A B} (Q : A -> B -> Prop) (r : res A) (r' : res B) :
  res_rel Q r r' -> sim Q (lift r) (lift r').
Proof. intros HQ s s' Hs. split; [exact Hs | exact HQ]. Qed.

Lemma sim_bind {A A' B B'} (Q : A -> A' -> Prop) (Q' : B -> B' -> Prop)
    (m : M A) (m' : M A') (f : A -> M B) (f' : A' -> M B') :
  sim Q m m' -> (forall a a', Q a a' -> sim Q' (f a) (f' a')) ->
  sim Q' (m ≫= f) (m' ≫= f').
Proof.
  intros Hm Hf s s' Hs. unfold mbind, M_bind.
  destruct (Hm s s' Hs) as [Ht Hr].
  destruct (m s) as [t [a|e]], (m' s') as [t' [a'|e']]; simpl in Ht, Hr;
    try contradiction.
  - now apply Hf.
  - split; [exact Ht | exact Hr].
Qed.

Lemma sim_fmap {A A' B B'} (Q : A -> A' -> Prop) (Q' : B -> B' -> Prop)
    (m : M A) (m' : M A') (g : A -> B) (g' : A' -> B') :
  sim Q m m' -> (forall a a', Q a a' -> Q' (g a) (g' a')) ->
  sim Q' (g <$> m) (g' <$> m').
Proof.
  intros Hm Hg s s' Hs. unfold fmap, M_fmap.
  destruct (Hm s s' Hs) as [Ht Hr].
  destruct (m s) as [t [a|e]], (m' s') as [t' [a'|e']]; simpl in Ht, Hr;
    try contradiction; (split; [exact Ht|]); simpl; auto.
Qed.

Lemma sim_try_except {A A'} (Q : A -> A' -> Prop) (m : M A) (m' : M A')
    (handles : exn -> bool) (h : exn -> M A) (h' : exn -> M A') :
  sim Q m m' -> (forall e, sim Q (h e) (h' e)) ->
  sim Q (try_except m handles h) (try_except m' handles h').
Proof.
  intros Hm Hh s s' Hs. unfold try_except.
  destruct (Hm s s' Hs) as [Ht Hr].
  destruct (m s) as [t [a|e]], (m' s') as [t' [a'|e']]; simpl in Ht, Hr;
    try contradiction.
  - split; [exact Ht | exact Hr].
  - subst e'. destruct (handles e); [now apply Hh|].
    split; [exact Ht | reflexivity].
Qed.

Lemma sim_mono {A B} (Q Q' : A -> B -> Prop) (m : M A) (m' : M B) :
  (forall a b, Q a b -> Q' a b) -> sim Q m m' -> sim Q' m m'.
Proof.
  intros HQ Hm s s' Hs. destruct (Hm s s' Hs) as [Ht Hr].
  split; [exact Ht|].
  destruct (snd (m s)), (snd (m' s')); simpl in *; auto.
Qed.

Lemma paired_insert_ne (k k' : string) (v w w' : value)
    (a a' : gmap string value) :
  k <> k' ->
  paired (a !! k') (a' !! k') w w' ->
  paired (<[k := v]> a !! k') (<[k := v]> a' !! k') w w'.
Proof. intros Hne. now rewrite !lookup_insert_ne by exact Hne. Qed.

Lemma sim_setattr (k : string) (v : value) :
  k ∉ hidden -> same (setattr k v).
Proof.
  intros Hk s s' [Hr Hr' Hsp Hse Hat Hlv Hlg].
  assert (k <> "raw" /\ k <> "_splitted" /\ k <> "_sections")
    as (N1 & N2 & N3).
  { unfold hidden in Hk. rewrite !not_elem_of_cons in Hk. tauto. }
  split; [|reflexivity]. constructor; cbn [fst setattr self logger_level logged].
  - now rewrite lookup_insert_ne.
  - now rewrite lookup_insert_ne.
  - now apply paired_insert_ne.
  - now apply paired_insert_ne.
  - intros k' Hk'. destruct (decide (k = k')) as [->|Hne].
    + now rewrite !lookup_insert_eq.
    + rewrite !lookup_insert_ne by exact Hne. now apply Hat.
  - exact Hlv.
  - exact Hlg.
Qed.

Lemma sim_getattr (k : string) : k ∉ hidden -> same (getattr k).
Proof.
  intros Hk s s' Hs. split; [exact Hs|].
  cbn [snd getattr]. rewrite (sim_attrs _ _ Hs k Hk).
  destruct (self s' !! k); reflexivity.
Qed.

Lemma sim_warning (msg : string) : same (warning msg).
Proof.
  intros s s' [Hr Hr' Hsp Hse Hat Hlv Hlg]. split; [|reflexivity].
  unfold warning. cbn [fst]. rewrite <- Hlv.
  destruct (logger_level s <=? WARNING); constructor;
    cbn [self logger_level logged]; auto.
  now apply diagnosed_both.
Qed.

(** The diagnostic for [l] on one side only. *)
Lemma sim_warning_right {A B} (Q : A -> B -> Prop) (m : M A)
    (f : unit -> M B) :
  sim Q m (f tt) -> sim Q m (warning (message l) ≫= f).
Proof.
  intros Hm s s' [Hr Hr' Hsp Hse Hat Hlv Hlg].
  unfold mbind, M_bind, warning.
  destruct (logger_level s' <=? WARNING).
  - apply Hm. constructor; cbn [self logger_level logged]; auto.
    now apply diagnosed_more.
  - apply Hm. destruct s'. now constructor.
Qed.

Lemma sim_get_splitted :
  sim (fun a b => a = sp /\ b = sp') get_splitted get_splitted.
Proof.
  intros s s' Hs. unfold get_splitted, getattr, mbind, M_bind.
  destruct (sim_splitted _ _ Hs) as [[E E']|[E E']]; rewrite E, E';
    simpl; auto.
Qed.

Lemma sim_get_sections :
  sim (fun a b => a = sections_of sp /\ b = sections_of sp')
      get_sections get_sections.
Proof.
  intros s s' Hs. unfold get_sections, getattr, mbind, M_bind.
  destruct (sim_sections _ _ Hs) as [[E E']|[E E']]; rewrite E, E';
    simpl; auto.
Qed.

Lemma same_bind {A B} (m : M A) (f : A -> M B) :
  same m -> (forall a, same (f a)) -> same (m ≫= f).
Proof.
  intros Hm Hf. apply (sim_bind eq); [exact Hm|]. intros a ? <-. apply Hf.
Qed.

Lemma same_ret {A} (a : A) : same (mret a).
Proof. now apply sim_ret. Qed.

Lemma same_raise {A} (e : exn) : same (@raise _ A e).
Proof. apply sim_raise. Qed.

Lemma same_lift {A} (r : res A) : same (lift r).
Proof. apply sim_lift. destruct r; reflexivity. Qed.

Lemma same_fmap {A B} (g : A -> B) (m : M A) : same m -> same (g <$> m).
Proof. intros Hm. apply (sim_fmap eq); [exact Hm|]. now intros a ? <-. Qed.

Lemma same_try_except {A} (m : M A) (handles : exn -> bool)
    (h : exn -> M A) :
  same m -> (forall e, same (h e)) -> same (try_except m handles h).
Proof. intros. now apply sim_try_except. Qed.

Lemma same_item {A} (xs0 : list A) (i : Z) : same (item xs0 i).
Proof. apply same_lift. Qed.

Lemma same_get_players : same get_players.
Proof.
  apply same_bind; [apply sim_getattr; not_hidden|].
  intros []; first [apply same_ret | apply same_raise].
Qed.

Lemma same_get_table_match : same get_table_match.
Proof.
  apply same_bind; [apply sim_getattr; not_hidden|].
  intros []; first [apply same_ret | apply same_raise].
Qed.

Lemma same_get_bool (k : string) : k ∉ hidden -> same (get_bool k).
Proof.
  intros Hk. apply same_bind; [now apply sim_getattr|].
  intros []; first [apply same_ret | apply same_raise].
Qed.

(** Following a method on both sides while the two sides do the same. *)
Ltac sim_step :=
  first
    [ assumption
    | match goal with IH : forall _, sim _ _ _ |- _ => apply IH end
    | apply sim_ret; reflexivity
    | apply sim_raise
    | apply same_get_players
    | apply same_get_table_match
    | apply same_get_bool; not_hidden
    | apply sim_getattr; not_hidden
    | apply sim_setattr; not_hidden
    | apply sim_warning
    | apply same_lift
    | apply (sim_bind eq); [ | intros ? ? <- ]
    | apply sim_try_except; [ | intros ? ]
    | apply (sim_fmap eq); [ | intros ? ? <-; reflexivity ]
    | match goal with
      | |- sim _ (match ?x with _ => _ end) _ => destruct x
      | |- sim _ (match ?x with _ => _ end _) _ => destruct x
      | |- sim _ (if ?x then _ else _) _ => destruct x
      | |- sim _ (let _ := _ in _) _ => cbv zeta
      end ].

Ltac sim_steps := repeat sim_step.

(** *** The shared loops *)

Lemma same_parse_lines (lines : list string) (acc : list PlayerAction) :
  same (parse_lines lines acc).
Proof.
  revert acc. induction lines as [|a lines IH]; intros acc;
    cbn [parse_lines]; [apply same_ret|].
  destruct (parse a) as [act|e]; [apply IH|].
  destruct e; try apply sim_raise.
  apply same_bind; [apply sim_warning | intros _; apply IH].
Qed.

Lemma same_winner_lines (lines : list string) (winners : gset string) :
  same (winner_lines (get_bool "show_down") lines winners).
Proof.
  revert winners. induction lines as [|a lines IH]; intros winners;
    cbn [winner_lines]; [apply same_ret|].
  unfold same in *. sim_steps.
Qed.

Lemma sim_seat_lines_stop (A B B' : list string) (x : string) :
  Re.match_ _seat_re x = None ->
  sim eq (seat_lines (A ++ x :: B)) (seat_lines (A ++ x :: B')).
Proof.
  intros Hx. induction A as [|a A IH]; cbn [app seat_lines].
  - rewrite Hx. now apply sim_ret.
  - destruct (Re.match_ _seat_re a); [|now apply sim_ret]. sim_steps.
Qed.

Hypothesis Hunknown : parse l = Raise (UnknownActionError l).

(** The line [l] among the lines of a street adds the diagnostic and
    nothing else. *)
Lemma sim_parse_lines_insert (A B : list string) (acc : list PlayerAction) :
  sim eq (parse_lines (A ++ B) acc) (parse_lines (A ++ l :: B) acc).
Proof.
  revert acc. induction A as [|a A IH]; intros acc; cbn [app parse_lines].
  - rewrite Hunknown. apply sim_warning_right. apply same_parse_lines.
  - destruct (parse a) as [act|e]; [apply IH|].
    destruct e; try apply sim_raise.
    apply (sim_bind eq); [apply sim_warning | intros _ _ _; apply IH].
Qed.

(** [L'] is [L], or [L] with [l] after [e] lines at least. *)
Definition inserted (e : nat) (L L' : list string) : Prop :=
  L' = L
  \/ exists A T, (e <= List.length A)%nat /\ L = A ++ T /\ L' = A ++ l :: T.

Lemma sim_lines_inserted (e : nat) (L L' : list string)
    (acc : list PlayerAction) :
  inserted e L L' -> sim eq (parse_lines L acc) (parse_lines L' acc).
Proof.
  intros [->|(A & T & _ & -> & ->)];
    [apply same_parse_lines | apply sim_parse_lines_insert].
Qed.

Lemma same_new_Street (lines : list string) : same (new_Street lines).
Proof.
  unfold same, new_Street, Street_parse_actions. sim_steps.
  apply same_parse_lines.
Qed.

Lemma sim_new_Street (L L' : list string) :
  inserted 1 L L' -> sim eq (new_Street L) (new_Street L').
Proof.
  intros [->|(A & T & HA & -> & ->)]; [apply same_new_Street|].
  destruct A as [|b A]; [simpl in HA; lia|].
  unfold new_Street, Street_parse_actions, item. cbn [app].
  rewrite !getitem_0_cons. cbn [List.skipn]. sim_steps.
  apply sim_parse_lines_insert.
Qed.

(** *** Where the line stands *)

Hypothesis Hl : l <> EmptyString.
Hypothesis Hmark : l ∉ ["FLOP"; "TURN"; "RIVER"; "SHOW DOWN"].
Variables s0 sl : nat.
Hypothesis Hhead : head (sections_of sp) = Some s0.
Hypothesis Hlast : last (sections_of sp) = Some sl.
Hypothesis Hs0 : (2 <= s0)%nat.
Hypothesis Hlow : (s0 + 3 <= p)%nat.
Hypothesis Hhigh : (p <= sl)%nat.
Hypothesis Hprev :
  forall x, last xs = Some x -> x ∉ ["FLOP"; "TURN"; "RIVER"].

Lemma getitem_low (i : Z) :
  0 <= i < Z.of_nat p -> Py.getitem sp' i = Py.getitem sp i.
Proof.
  intros Hi. replace i with (Z.of_nat (Z.to_nat i)) by lia.
  rewrite !getitem_nat. apply lookup_insert_low. lia.
Qed.

Lemma getitem_high (i : Z) :
  Z.of_nat p <= i -> Py.getitem sp' (i + 1) = Py.getitem sp i.
Proof.
  intros Hi. replace (i + 1) with (Z.of_nat (S (Z.to_nat i))) by lia.
  replace i with (Z.of_nat (Z.to_nat i)) at 2 by lia.
  rewrite !getitem_nat. apply lookup_insert_high. lia.
Qed.

Lemma skipn_high (a : nat) :
  (p <= a)%nat -> List.skipn (S a) sp' = List.skipn a sp.
Proof.
  intros Ha. rewrite !skipn_app.
  rewrite (skipn_all2 (n := S a)), (skipn_all2 (n := a)) by lia.
  now replace (S a - p)%nat with (S (a - p)) by lia.
Qed.

Lemma first_section_empty : xs !! s0 = Some EmptyString.
Proof.
  rewrite <- (lookup_app_l xs ys) by lia.
  apply section_empty. now apply head_Some_elem_of.
Qed.

Lemma sections_insert :
  sections_of sp' = shift p <$> sections_of sp.
Proof. now apply sections_of_insert. Qed.

Lemma sim_first_section :
  sim (fun a b => a = s0 /\ b = s0)
      (item (sections_of sp) 0) (item (sections_of sp') 0).
Proof.
  apply sim_lift. rewrite sections_insert, getitem_fmap, !getitem_head, Hhead.
  simpl. split; [reflexivity|]. unfold shift.
  replace (s0 <? p)%nat with true; [reflexivity|].
  symmetry. apply Nat.ltb_lt. lia.
Qed.

Lemma sim_second_section :
  sim (fun a b => b = shift p a)
      (item (sections_of sp) 1) (item (sections_of sp') 1).
Proof.
  apply sim_lift. rewrite sections_insert, getitem_fmap.
  destruct (Py.getitem (sections_of sp) 1); reflexivity.
Qed.

Lemma sim_last_section :
  sim (fun a b => a = sl /\ b = S sl)
      (item (sections_of sp) (-1)) (item (sections_of sp') (-1)).
Proof.
  apply sim_lift. rewrite sections_insert, getitem_fmap, !getitem_last, Hlast.
  simpl. split; [reflexivity|]. unfold shift.
  replace (sl <? p)%nat with false; [reflexivity|].
  symmetry. apply Nat.ltb_ge. lia.
Qed.

Lemma slice_inserted (a stop e : nat) :
  (a + e <= p)%nat ->
  inserted e (Py.lslice a stop sp) (Py.lslice a (shift p stop) sp').
Proof.
  intros Ha. unfold shift. destruct (stop <? p)%nat eqn:E.
  - left. apply Nat.ltb_lt in E. apply lslice_insert_low. lia.
  - right. apply Nat.ltb_ge in E.
    destruct (lslice_insert_mid xs ys l a stop) as [E1 E2]; [lia | lia |].
    exists (List.skipn a xs), (List.firstn (stop - p) ys).
    split; [rewrite length_skipn; lia|]. now split.
Qed.

Lemma sim_index_low (x : string) (a : nat) :
  x <> l -> (a <= p)%nat ->
  sim (fun i i' => i' = shift p i /\ (a <= i)%nat /\ sp !! i = Some x)
      (index_of x a) (index_of x a).
Proof.
  intros Hx Ha. unfold index_of.
  eapply sim_bind; [apply sim_get_splitted|]. intros ? ? [-> ->].
  apply sim_lift. rewrite index_from_insert_low by assumption.
  destruct (Py.index_from x a sp) as [i|] eqn:E; [|reflexivity].
  apply index_from_found in E. simpl. tauto.
Qed.

Lemma sim_index_high (x : string) (a : nat) :
  (p <= a)%nat ->
  sim (fun i i' => i' = S i) (index_of x a) (index_of x (S a)).
Proof.
  intros Ha. unfold index_of.
  eapply sim_bind; [apply sim_get_splitted|]. intros ? ? [-> ->].
  apply sim_lift. rewrite index_from_insert_high by assumption.
  destruct (Py.index_from x a sp); reflexivity.
Qed.

(** The lines that follow a marker found at [i], [d] pieces further. *)
Lemma sim_from_marker {A} (d e i i' : nat) (K : list string -> M A) :
  ((i < p)%nat -> (i + d + e <= p)%nat) ->
  (forall L L', inserted e L L' -> sim eq (K L) (K L')) ->
  i' = shift p i ->
  sim eq
    (stop ← index_of "" (i + d)%nat;
     splitted ← get_splitted;
     K (Py.lslice (i + d) stop splitted))
    (stop ← index_of "" (i' + d)%nat;
     splitted ← get_splitted;
     K (Py.lslice (i' + d) stop splitted)).
Proof.
  intros Hgap HK ->. unfold shift. destruct (i <? p)%nat eqn:E.
  - apply Nat.ltb_lt in E. specialize (Hgap E).
    eapply sim_bind; [apply (sim_index_low "" (i + d)); [congruence | lia]|].
    intros stop ? (-> & _ & _).
    eapply sim_bind; [apply sim_get_splitted|]. intros ? ? [-> ->].
    apply HK. apply slice_inserted. lia.
  - apply Nat.ltb_ge in E. change (S i + d)%nat with (S (i + d)).
    eapply sim_bind; [apply (sim_index_high "" (i + d)); lia|].
    intros stop ? ->.
    eapply sim_bind; [apply sim_get_splitted|]. intros ? ? [-> ->].
    rewrite lslice_insert_high by lia. apply HK. now left.
Qed.

(** The line after a marker that has a board line is not [l]. *)
Lemma after_marker (x : string) (i : nat) :
  x ∈ ["FLOP"; "TURN"; "RIVER"] -> sp !! i = Some x -> (i < p)%nat ->
  (i + 2 <= p)%nat.
Proof.
  intros Hx Hi Hlt. destruct (decide (S i = p)) as [E|]; [|lia].
  exfalso. apply (Hprev x); [|exact Hx].
  rewrite last_lookup, <- E. cbn [pred].
  now rewrite <- (lookup_app_l xs ys) by lia.
Qed.

(** *** The methods, one by one *)

Hypothesis Hsplit : Re.split _split_re (Py.strip hand_text) = sp.
Hypothesis Hsplit' : Re.split _split_re (Py.strip hand_text') = sp'.

Lemma sim_split_raw : sim eq _split_raw _split_raw.
Proof.
  intros s s' [Hr Hr' Hsp Hse Hat Hlv Hlg].
  unfold _split_raw, mbind, M_bind, getattr. rewrite Hr, Hr'.
  cbn [or_raise setattr fst snd self logger_level logged].
  rewrite Hsplit, Hsplit'. split; [|reflexivity].
  constructor; cbn [self logger_level logged]; auto.
  - now rewrite !lookup_insert_ne.
  - now rewrite !lookup_insert_ne.
  - left. rewrite !(lookup_insert_ne _ "_sections" "_splitted") by discriminate.
    now rewrite !lookup_insert_eq.
  - left. now rewrite !lookup_insert_eq.
  - intros k Hk. unfold hidden in Hk. rewrite !not_elem_of_cons in Hk.
    rewrite !(lookup_insert_ne _ "_sections" k) by (intros <-; tauto).
    rewrite !(lookup_insert_ne _ "_splitted" k) by (intros <-; tauto).
    apply Hat.
    unfold hidden. rewrite !not_elem_of_cons. tauto.
Qed.

Lemma sim_parse_header : sim eq parse_header parse_header.
Proof.
  unfold parse_header.
  apply (sim_bind eq); [apply sim_split_raw|]. intros _ _ _.
  eapply sim_bind; [apply sim_get_splitted|]. intros ? ? [-> ->].
  unfold item at 2. rewrite getitem_low by lia. fold (item sp 0).
  unfold header_ident_blinds, header_game_type, header_currency,
    header_game_limit_date, setitem_extra, _parse_date.
  sim_steps.
Qed.

Lemma sim_parse_table : sim eq _parse_table _parse_table.
Proof.
  unfold _parse_table.
  eapply sim_bind; [apply sim_get_splitted|]. intros ? ? [-> ->].
  unfold item at 2. rewrite getitem_low by lia. fold (item sp 1).
  sim_steps.
Qed.

Lemma seat_re_empty : Re.match_ _seat_re "" = None.
Proof. vm_compute. reflexivity. Qed.

Lemma sim_parse_players : sim eq _parse_players _parse_players.
Proof.
  unfold _parse_players.
  apply (sim_bind eq); [apply sim_getattr; not_hidden|]. intros v ? <-.
  destruct v; try apply sim_raise.
  apply (sim_bind eq); [apply sim_setattr; not_hidden|]. intros _ _ _.
  eapply sim_bind; [apply sim_get_splitted|]. intros ? ? [-> ->].
  rewrite <- (take_drop_middle xs s0 "" first_section_empty).
  rewrite <- !app_assoc, <- !app_comm_cons.
  rewrite !(skipn_app 2).
  assert (List.length (take s0 xs) = s0) as E
    by (rewrite length_take; lia).
  rewrite E. replace (2 - s0)%nat with 0%nat by lia. rewrite !skipn_O.
  apply sim_seat_lines_stop. apply seat_re_empty.
Qed.

Lemma sim_parse_button : sim eq _parse_button _parse_button.
Proof. unfold _parse_button. sim_steps. Qed.

Lemma sim_parse_hero : sim eq _parse_hero _parse_hero.
Proof.
  unfold _parse_hero.
  eapply sim_bind; [apply sim_get_splitted|]. intros ? ? [-> ->].
  eapply sim_bind; [apply sim_get_sections|]. intros ? ? [-> ->].
  eapply sim_bind; [apply sim_first_section|]. intros ? ? [-> ->].
  unfold item at 2. rewrite getitem_low by lia.
  fold (item sp (Z.of_nat s0 + 2)).
  unfold _get_hero_from_players. sim_steps.
Qed.

Lemma sim_parse_preflop : sim eq _parse_preflop _parse_preflop.
Proof.
  unfold _parse_preflop.
  eapply sim_bind; [apply sim_get_splitted|]. intros ? ? [-> ->].
  eapply sim_bind; [apply sim_get_sections|]. intros ? ? [-> ->].
  eapply sim_bind; [apply sim_first_section|]. intros ? ? [-> ->].
  cbv zeta.
  eapply sim_bind; [apply sim_second_section|]. intros stop ? ->.
  apply (sim_bind eq);
    [apply (sim_lines_inserted 0), slice_inserted; lia|].
  intros ? ? <-. sim_steps.
Qed.

(** What [_parse_flop] finds: the same marker, one piece further when
    it comes after [l]. *)
Definition marker_at (x : string) (r r' : option nat) : Prop :=
  match r, r' with
  | Some i, Some i' => i' = shift p i /\ sp !! i = Some x
  | None, None => True
  | _, _ => False
  end.

Lemma sim_parse_flop : sim eq _parse_flop _parse_flop.
Proof.
  assert (Hx : "FLOP" <> l).
  { intros <-. apply Hmark. apply (bool_decide_unpack _). now vm_compute. }
  unfold _parse_flop.
  apply (sim_bind (marker_at "FLOP")).
  { apply sim_try_except; [|intros _; now apply sim_ret].
    eapply sim_fmap; [apply (sim_index_low "FLOP" 0); [exact Hx | lia]|].
    intros i i' (-> & _ & Hi). now split. }
  intros [i|] [i'|] Hr; try contradiction; [|sim_steps].
  destruct Hr as [-> Hi]. cbv zeta.
  apply (sim_from_marker 1 1 i (shift p i)
           (fun floplines =>
              flop ← new_Street floplines;
              _ ← setattr "flop" (VStreet flop);
              setattr "flop_actions"
                (match actions flop with
                 | Some a => VActions a
                 | None => VNone
                 end))); [| |reflexivity].
  - intros Hlt. pose proof (after_marker "FLOP" i) as Hgap.
    apply Hgap in Hlt; [lia| |exact Hi].
    apply (bool_decide_unpack _). now vm_compute.
  - intros L L' HL.
    apply (sim_bind eq); [now apply sim_new_Street|]. intros flop ? <-.
    sim_steps.
Qed.

Lemma sim_parse_street (street : string) :
  Py.upper street ∈ ["TURN"; "RIVER"] ->
  street ∉ hidden -> Py.lower street +:+ "_actions" ∉ hidden ->
  sim eq (_parse_street street) (_parse_street street).
Proof.
  intros Hup Hk Hk'.
  assert (Hx : Py.upper street <> l).
  { intros E. apply Hmark. rewrite <- E.
    rewrite !elem_of_cons in Hup. rewrite !elem_of_cons.
    destruct Hup as [->|[->|[]%elem_of_nil]]; tauto. }
  unfold _parse_street. cbv zeta.
  apply sim_try_except.
  2:{ intros _. apply (sim_bind eq); [now apply sim_setattr|].
      intros _ _ _. now apply sim_setattr. }
  eapply sim_bind; [apply (sim_index_low (Py.upper street) 0);
                    [exact Hx | lia]|].
  intros i ? (-> & _ & Hi).
  apply (sim_from_marker 2 0 i (shift p i)
           (fun action_lines =>
              actions ← parse_lines action_lines [];
              setattr (Py.lower street +:+ "_actions")
                      (tuple_or_None actions))); [| |reflexivity].
  - intros Hlt. pose proof (after_marker (Py.upper street) i) as Hgap.
    apply Hgap in Hlt; [lia| |exact Hi].
    rewrite !elem_of_cons in Hup. rewrite !elem_of_cons. tauto.
  - intros L L' HL.
    apply (sim_bind eq); [now apply (sim_lines_inserted 0)|].
    intros ? ? <-. now apply sim_setattr.
Qed.

Lemma sim_parse_showdown : sim eq _parse_showdown _parse_showdown.
Proof.
  assert (Hx : "SHOW DOWN" <> l).
  { intros <-. apply Hmark. apply (bool_decide_unpack _). now vm_compute. }
  unfold _parse_showdown. cbv zeta.
  apply sim_try_except; [|intros _; sim_steps].
  eapply sim_bind; [apply (sim_index_low "SHOW DOWN" 0); [exact Hx | lia]|].
  intros i ? (-> & _ & Hi).
  apply (sim_from_marker 1 0 i (shift p i)
           (fun action_lines =>
              actions ← parse_lines action_lines [];
              _ ← setattr "show_down" (VBool true);
              setattr "show_down_actions" (VActions actions)));
    [lia| |reflexivity].
  intros L L' HL.
  apply (sim_bind eq); [now apply (sim_lines_inserted 0)|].
  intros ? ? <-. sim_steps.
Qed.

Lemma sim_parse_pot : sim eq _parse_pot _parse_pot.
Proof.
  unfold _parse_pot.
  eapply sim_bind; [apply sim_get_splitted|]. intros ? ? [-> ->].
  eapply sim_bind; [apply sim_get_sections|]. intros ? ? [-> ->].
  eapply sim_bind; [apply sim_last_section|]. intros ? ? [-> ->].
  unfold item at 2.
  replace (Z.of_nat (S sl) + 2) with (Z.of_nat sl + 2 + 1) by lia.
  rewrite getitem_high by lia. fold (item sp (Z.of_nat sl + 2)).
  sim_steps.
Qed.

Lemma same_card_at (cards : list string) (i : nat) :
  sim eq (card_at cards i) (card_at cards i).
Proof. unfold card_at. sim_steps. Qed.

Lemma sim_parse_board : sim eq _parse_board _parse_board.
Proof.
  unfold _parse_board.
  eapply sim_bind; [apply sim_get_splitted|]. intros ? ? [-> ->].
  eapply sim_bind; [apply sim_get_sections|]. intros ? ? [-> ->].
  eapply sim_bind; [apply sim_last_section|]. intros ? ? [-> ->].
  unfold item at 2.
  replace (Z.of_nat (S sl) + 3) with (Z.of_nat sl + 3 + 1) by lia.
  rewrite getitem_high by lia. fold (item sp (Z.of_nat sl + 3)).
  apply (sim_bind eq); [apply same_lift|]. intros boardline ? <-.
  destruct (negb (Py.startswith "Board" boardline)); [now apply sim_ret|].
  cbv zeta.
  apply (sim_bind eq); [apply same_card_at|]. intros ? ? <-.
  apply (sim_bind eq); [apply sim_setattr; not_hidden|]. intros _ _ _.
  apply (sim_bind eq); [apply same_card_at|]. intros ? ? <-.
  apply sim_setattr; not_hidden.
Qed.

Lemma sim_parse_winners : sim eq _parse_winners _parse_winners.
Proof.
  unfold _parse_winners.
  eapply sim_bind; [apply sim_get_sections|]. intros ? ? [-> ->].
  eapply sim_bind; [apply sim_last_section|]. intros ? ? [-> ->].
  cbv zeta.
  eapply sim_bind; [apply sim_get_splitted|]. intros ? ? [-> ->].
  change (S sl + 4)%nat with (S (sl + 4)). rewrite skipn_high by lia.
  apply (sim_bind eq); [apply same_winner_lines|]. intros ? ? <-.
  apply sim_setattr; not_hidden.
Qed.

Lemma sim_delattr (k : string) :
  k ∈ ["_splitted"; "_sections"] -> sim eq (delattr k) (delattr k).
Proof.
  intros Hk s s' [Hr Hr' Hsp Hse Hat Hlv Hlg]. unfold delattr.
  assert (paired (self s !! k) (self s' !! k) (VStrings sp) (VStrings sp')
          \/ paired (self s !! k) (self s' !! k)
               (VIndices (sections_of sp)) (VIndices (sections_of sp')))
    as Hp.
  { rewrite !elem_of_cons in Hk.
    destruct Hk as [->|[->|[]%elem_of_nil]]; [now left | now right]. }
  assert (k <> "raw") as Hraw.
  { rewrite !elem_of_cons in Hk.
    destruct Hk as [->|[->|[]%elem_of_nil]]; discriminate. }
  assert (forall w w' j,
            paired (self s !! j) (self s' !! j) w w' ->
            paired (delete k (self s) !! j) (delete k (self s') !! j) w w')
    as Hdel.
  { intros w w' j Hj. destruct (decide (k = j)) as [->|Hne].
    - right. now rewrite !lookup_delete_eq.
    - now rewrite !(lookup_delete_ne _ k j) by exact Hne. }
  destruct Hp as [[[E E']|[E E']]|[[E E']|[E E']]]; rewrite E, E';
    cbn [fst snd]; (split; [|reflexivity]);
    constructor; cbn [self logger_level logged]; auto;
    try (rewrite (lookup_delete_ne _ k "raw") by exact Hraw; assumption);
    intros j Hj; (destruct (decide (k = j)) as [->|Hne];
      [now rewrite !lookup_delete_eq
      | rewrite !(lookup_delete_ne _ k j) by exact Hne; now apply Hat]).
Qed.

Lemma sim_parse : sim eq parse_ parse_.
Proof.
  unfold parse_.
  apply (sim_bind eq); [apply same_get_bool; not_hidden|].
  intros header_parsed ? <-.
  apply (sim_bind eq).
  { destruct (negb header_parsed); [apply sim_parse_header|now apply sim_ret]. }
  intros _ _ _.
  apply (sim_bind eq); [apply sim_parse_table|]. intros _ _ _.
  apply (sim_bind eq); [apply sim_parse_players|]. intros _ _ _.
  apply (sim_bind eq); [apply sim_parse_button|]. intros _ _ _.
  apply (sim_bind eq); [apply sim_parse_hero|]. intros _ _ _.
  apply (sim_bind eq); [apply sim_parse_preflop|]. intros _ _ _.
  apply (sim_bind eq); [apply sim_parse_flop|]. intros _ _ _.
  apply (sim_bind eq).
  { apply sim_parse_street; apply (bool_decide_unpack _); now vm_compute. }
  intros _ _ _.
  apply (sim_bind eq).
  { apply sim_parse_street; apply (bool_decide_unpack _); now vm_compute. }
  intros _ _ _.
  apply (sim_bind eq); [apply sim_parse_showdown|]. intros _ _ _.
  apply (sim_bind eq); [apply sim_parse_pot|]. intros _ _ _.
  apply (sim_bind eq); [apply sim_parse_board|]. intros _ _ _.
  apply (sim_bind eq); [apply sim_parse_winners|]. intros _ _ _.
  apply (sim_bind eq).
  { unfold _del_split_vars.
    apply (sim_bind eq);
      [apply sim_delattr; apply (bool_decide_unpack _); now vm_compute|].
    intros _ _ _.
    apply sim_delattr; apply (bool_decide_unpack _); now vm_compute. }
  intros _ _ _. apply sim_setattr; not_hidden.
Qed.

End Simulation.

Section UnknownLine.
Context `{Externals}.

Lemma header_re_empty : Re.match_ _header_re "" = None.
Proof. vm_compute. reflexivity. Qed.

Lemma table_re_empty : Re.match_ _table_re "" = None.
Proof. vm_compute. reflexivity. Qed.

(** In a hand that parses, the first two pieces are the header and the
    table line, so the first section starts after them. *)
Lemma first_section_after_table (hand_text : string) (level : Z)
    (lg : list string) (t : state) (s0 : nat) :
  run_parse hand_text level lg = (t, Ok tt) ->
  head (sections_of (Re.split _split_re (Py.strip hand_text))) = Some s0 ->
  (2 <= s0)%nat.
Proof.
  intros Hrun Hhead. apply run_parse_ok in Hrun as (s1 & Hh & Hb).
  apply parse_header_ok in Hh as (line & c & Hline & Hm & _ & Hsp & _).
  apply parse_body_steps in Hb as (x & Htable & _).
  unfold _parse_table in Htable.
  apply bind_ok in Htable as (s2 & splitted & E1 & Htable).
  apply get_splitted_ok in E1 as (-> & Hsp').
  rewrite Hsp in Hsp'. injection Hsp' as <-.
  apply bind_ok in Htable as (s2 & tline & E1 & Htable).
  apply item_ok in E1 as (-> & Htline).
  apply bind_ok in Htable as (s2 & [] & E1 & Htable).
  apply setattr_ok in E1 as ->.
  apply bind_ok in Htable as (s2 & name1 & E1 & _).
  apply lift_ok in E1 as (_ & Hgroup).
  apply head_Some_elem_of, section_empty in Hhead.
  destruct s0 as [|[|s0]]; [| |lia].
  - rewrite <- head_lookup, Hline in Hhead. injection Hhead as ->.
    now rewrite header_re_empty in Hm.
  - change 1 with (Z.of_nat 1) in Htline. rewrite getitem_nat in Htline.
    rewrite Hhead in Htline. injection Htline as <-.
    now rewrite table_re_empty in Hgroup.
Qed.

(** C2, as the code has it: a line that no rule of the classifier
    knows, which is not empty and not the name of a marker, and which
    stands among the action lines of a hand that parses -- after the
    hole-cards line, before the summary, and not where a street has its
    board line -- is skipped: the classifier raises
    [UnknownActionError] on it, the parse of the hand with the line
    succeeds as the parse without it does, every attribute but the
    text kept in [raw] is the same, all action sequences among them,
    and the log differs by diagnostics for the line only. *)
Theorem unknown_line_skipped (hand_text hand_text' : string)
    (xs ys : list string) (l : string) (s0 sl : nat) (level : Z)
    (lg : list string) (t : state) :
  Re.split _split_re (Py.strip hand_text) = xs ++ ys ->
  Re.split _split_re (Py.strip hand_text') = xs ++ l :: ys ->
  (forall sub, In sub (List.map fst parse_methods) ->
     Py.contains sub l = false) ->
  l <> EmptyString ->
  l ∉ ["FLOP"; "TURN"; "RIVER"; "SHOW DOWN"] ->
  head (sections_of (xs ++ ys)) = Some s0 ->
  last (sections_of (xs ++ ys)) = Some sl ->
  (s0 + 3 <= List.length xs <= sl)%nat ->
  (forall x, last xs = Some x -> x ∉ ["FLOP"; "TURN"; "RIVER"]) ->
  run_parse hand_text level lg = (t, Ok tt) ->
  parse l = Raise (UnknownActionError l)
  /\ exists t',
       run_parse hand_text' level lg = (t', Ok tt)
       /\ (forall k, k <> "raw" -> self t' !! k = self t !! k)
       /\ logger_level t' = logger_level t
       /\ diagnosed (message l) (logged t) (logged t').
Proof.
  intros Hsplit Hsplit' Hnone Hl Hmark Hhead Hlast [Hlow Hhigh] Hprev Hrun.
  pose proof (parse_no_match l Hnone) as Hunknown.
  split; [exact Hunknown|].
  assert (Hs0 : (2 <= s0)%nat).
  { apply (first_section_after_table hand_text level lg t); [exact Hrun|].
    now rewrite Hsplit. }
  assert (Hinit : sim_state hand_text hand_text' xs ys l
                    (fresh hand_text level lg) (fresh hand_text' level lg)).
  { unfold fresh, new_hand.
    constructor; cbn [self logger_level logged].
    - apply lookup_insert_eq.
    - apply lookup_insert_eq.
    - right. split; reflexivity.
    - right. split; reflexivity.
    - intros k Hk. unfold hidden in Hk. rewrite !not_elem_of_cons in Hk.
      rewrite !(lookup_insert_ne _ "raw" k) by (intros <-; tauto).
      reflexivity.
    - reflexivity.
    - constructor. }
  destruct (sim_parse hand_text hand_text' xs ys l Hunknown Hl Hmark s0 sl
              Hhead Hlast Hs0 Hlow Hhigh Hprev Hsplit Hsplit' _ _ Hinit)
    as [Hst Hres].
  fold (run_parse hand_text level lg) in Hst, Hres.
  fold (run_parse hand_text' level lg) in Hst, Hres.
  rewrite Hrun in Hst, Hres. cbn [fst snd] in Hst, Hres.
  destruct (run_parse hand_text' level lg) as [t' [[]|e]] eqn:Hrun';
    cbn [fst snd res_rel] in Hst, Hres; [|contradiction].
  exists t'. split; [reflexivity|].
  destruct Hst as [_ _ Hsp Hse Hat Hlv Hlg].
  apply run_parse_ok in Hrun as (s1 & _ & Hb).
  apply parse_body_steps in Hb as (x & Hx).
  unfold body_run in Hx.
  destruct Hx as (_ & _ & _ & _ & _ & _ & _ & _ & _ & _ & _ & _ & _ & _ & Ht).
  assert (self t !! "_splitted" = None /\ self t !! "_sections" = None)
    as [N1 N2].
  { rewrite Ht. cbn [self]. split.
    - rewrite lookup_insert_ne by discriminate.
      rewrite lookup_delete_ne by discriminate. apply lookup_delete_eq.
    - rewrite lookup_insert_ne by discriminate. apply lookup_delete_eq. }
  split; [|split; [now symmetry | exact Hlg]].
  intros k Hk.
  destruct (decide (k = "_splitted")) as [->|K1].
  { rewrite N1. destruct Hsp as [[E _]|[_ E]]; [congruence | exact E]. }
  destruct (decide (k = "_sections")) as [->|K2].
  { rewrite N2. destruct Hse as [[E _]|[_ E]]; [congruence | exact E]. }
  symmetry. apply Hat. unfold hidden. rewrite !not_elem_of_cons.
  repeat split; auto. apply not_elem_of_nil.
Qed.

End UnknownLine.

(** * The properties on the hands of [Demo] *)

Ltac by_computation := vm_compute; reflexivity.
Ltac decided := apply (bool_decide_unpack _); vm_compute; exact I.
Ltac conjuncts := repeat match goal with |- _ /\ _ => split end.

(** The header lines of [Demo.cash_hand] and [Demo.flop_hand]. *)
Definition cash_header : string :=
  "PokerStars Hand #107030112846: Hold'em No Limit ($0.01/$0.02 USD) - 2013/11/15 9:03:10 AWST [2013/11/14 20:03:10 ET]".

Definition flop_header : string :=
  "PokerStars Hand #105024000105: Tournament #797469411, $3.19+$0.31 USD Hold'em No Limit - Level I (10/20) - 2013/10/04 19:53:27 CET [2013/10/04 13:53:27 ET]".

(** The groups of a line the header pattern matches. *)
Definition header_caps (line : string) : caps :=
  default ∅ (Re.match_ _header_re line).

(** The end of a run on a hand of [Demo]. *)
Definition end_of (hand_text : string) : state :=
  fst (run_parse hand_text ERROR []).

(** A run that ends well ends in [end_of]. *)
Lemma run_end (hand_text : string) :
  snd (run_parse hand_text ERROR []) = Ok tt ->
  run_parse hand_text ERROR [] = (end_of hand_text, Ok tt).
Proof.
  unfold end_of. destruct (run_parse hand_text ERROR []) as [t r].
  cbn [fst snd]. now intros ->.
Qed.

Ltac runs := apply run_end; vm_compute; reflexivity.


(** The tournament hand: [TOUR], and the blinds of the level. *)
Lemma header_game_type_and_blinds_witness :
  let c := header_caps flop_header in
  head (Re.split _split_re (Py.strip Demo.flop_hand)) = Some flop_header
  /\ Re.match_ _header_re flop_header = Some c
  /\ (let t := fst (parse_header (fresh Demo.flop_hand ERROR [])) in
      self t !! "game_type"
        = Some (VGameType
                  (if c !! "tournament_ident" is Some _ then TOUR else CASH))
      /\ exists sb bb d_sb d_bb,
           blinds_of c sb bb
           /\ Decimal.of_string sb = Some d_sb
           /\ Decimal.of_string bb = Some d_bb
           /\ self t !! "sb" = Some (VDecimal d_sb)
           /\ self t !! "bb" = Some (VDecimal d_bb)).
Proof.
  intros c.
  assert (H1 : head (Re.split _split_re (Py.strip Demo.flop_hand))
               = Some flop_header) by by_computation.
  assert (H2 : Re.match_ _header_re flop_header = Some c) by by_computation.
  split; [exact H1|]. split; [exact H2|].
  exact (header_game_type_and_blinds Demo.flop_hand flop_header ERROR [] c
           H1 H2).
Defined.

(** The cash hand: the currency written with the blinds. *)
Lemma header_currency_resolution_witness :
  let c := header_caps cash_header in
  head (Re.split _split_re (Py.strip Demo.cash_hand)) = Some cash_header
  /\ Re.match_ _header_re cash_header = Some c
  /\ resolved_currency c = Some "USD"
  /\ (let r := parse_header (fresh Demo.cash_hand ERROR []) in
      match resolved_currency c with
      | None =>
          self (fst r) !! "extra" = Some (VDict {["money_type" := PLAY]})
          /\ self (fst r) !! "currency" = Some VNone
      | Some code =>
          self (fst r) !! "extra" = Some (VDict {["money_type" := REAL]})
          /\ match Currency code with
             | Some cur => self (fst r) !! "currency" = Some (VCurrency cur)
             | None => snd r = Raise ValueError
                       /\ self (fst r) !! "currency" = None
             end
      end).
Proof.
  intros c.
  assert (H1 : head (Re.split _split_re (Py.strip Demo.cash_hand))
               = Some cash_header) by by_computation.
  assert (H2 : Re.match_ _header_re cash_header = Some c) by by_computation.
  split; [exact H1|]. split; [exact H2|]. split; [by_computation|].
  exact (header_currency_resolution Demo.cash_hand cash_header ERROR [] c
           H1 H2).
Defined.

(** A text that is no hand. *)
Lemma header_mismatch_fails_witness :
  let text := "not a hand" in
  head (Re.split _split_re (Py.strip text)) = Some text
  /\ Re.match_ _header_re text = None
  /\ run_parse text ERROR []
     = (State (after_split text) ERROR [], Raise AttributeError)
  /\ (forall k, k ∈ header_fields -> after_split text !! k = None).
Proof.
  intros text.
  assert (H1 : head (Re.split _split_re (Py.strip text)) = Some text)
    by by_computation.
  assert (H2 : Re.match_ _header_re text = None) by by_computation.
  split; [exact H1|]. split; [exact H2|].
  destruct (header_mismatch_fails text text ERROR [] H1 H2)
    as (_ & Hrun & Hfields & _).
  split; [exact Hrun | exact Hfields].
Defined.

(** The cash hand, which ends before the flop. *)
Lemma total_pot_from_summary_witness :
  let t := end_of Demo.cash_hand in
  run_parse Demo.cash_hand ERROR [] = (t, Ok tt)
  /\ (let splitted := Re.split _split_re (Py.strip Demo.cash_hand) in
      exists last potline c d header hc,
        Py.getitem (sections_of splitted) (-1) = Some last
        /\ Py.getitem splitted (Z.of_nat last + 2) = Some potline
        /\ Re.match_ _pot_re potline = Some c
        /\ Decimal_of (c !! "1") = Ok d
        /\ self t !! "total_pot" = Some (VDecimal d)
        /\ head splitted = Some header
        /\ Re.match_ _header_re header = Some hc
        /\ self t !! "rake" = Some (header_rake hc)).
Proof.
  intros t.
  assert (H1 : run_parse Demo.cash_hand ERROR [] = (t, Ok tt))
    by runs.
  split; [exact H1|].
  exact (total_pot_from_summary Demo.cash_hand ERROR [] t H1).
Defined.

Lemma no_flop_no_streets_witness :
  let t := end_of Demo.cash_hand in
  let splitted := Re.split _split_re (Py.strip Demo.cash_hand) in
  "FLOP" ∉ splitted /\ "TURN" ∉ splitted /\ "RIVER" ∉ splitted
  /\ (forall last boardline,
        Py.getitem (sections_of splitted) (-1) = Some last ->
        Py.getitem splitted (Z.of_nat last + 3) = Some boardline ->
        Py.startswith "Board" boardline = false)
  /\ run_parse Demo.cash_hand ERROR [] = (t, Ok tt)
  /\ self t !! "flop" = Some VNone
  /\ self t !! "turn" = Some VNone
  /\ self t !! "turn_actions" = Some VNone
  /\ self t !! "river" = Some VNone
  /\ self t !! "river_actions" = Some VNone
  /\ board (self t) = None.
Proof.
  intros t splitted.
  assert (H1 : "FLOP" ∉ splitted) by decided.
  assert (H2 : "TURN" ∉ splitted) by decided.
  assert (H3 : "RIVER" ∉ splitted) by decided.
  assert (H4 : forall last boardline,
             Py.getitem (sections_of splitted) (-1) = Some last ->
             Py.getitem splitted (Z.of_nat last + 3) = Some boardline ->
             Py.startswith "Board" boardline = false).
  { intros last boardline Hlast Hline.
    vm_compute in Hlast. injection Hlast as <-.
    vm_compute in Hline. injection Hline as <-. by_computation. }
  assert (H5 : run_parse Demo.cash_hand ERROR [] = (t, Ok tt))
    by runs.
  split; [exact H1|]. split; [exact H2|]. split; [exact H3|].
  split; [exact H4|]. split; [exact H5|].
  exact (no_flop_no_streets Demo.cash_hand ERROR [] t H1 H2 H3 H4 H5).
Defined.

Lemma button_is_seat_entry_witness :
  let t := end_of Demo.cash_hand in
  run_parse Demo.cash_hand ERROR [] = (t, Ok tt)
  /\ NoDup (seat_names (self t))
  /\ exists table_line tc bs players button,
       Py.getitem (Re.split _split_re (Py.strip Demo.cash_hand)) 1
         = Some table_line
       /\ Re.match_ _table_re table_line = Some tc
       /\ int_of (tc !! "button") = Ok bs
       /\ self t !! "players" = Some (VPlayers players)
       /\ self t !! "button" = Some (VPlayer button)
       /\ Py.getitem players (bs - 1) = Some button
       /\ (forall h, self t !! "hero" = Some (VPlayer h) ->
                     name h = name button -> button = h).
Proof.
  intros t.
  assert (H1 : run_parse Demo.cash_hand ERROR [] = (t, Ok tt))
    by runs.
  assert (H2 : NoDup (seat_names (self t))) by decided.
  split; [exact H1|]. split; [exact H2|].
  exact (button_is_seat_entry Demo.cash_hand ERROR [] t H1 H2).
Defined.

(** The pieces of [Demo.cash_hand] before and after the place where
    [Demo.cash_hand_with_chat] has its chat line. *)
Definition cash_pieces : list string :=
  Re.split _split_re (Py.strip Demo.cash_hand).

Lemma unknown_line_skipped_witness :
  let xs := take 10 cash_pieces in
  let ys := drop 10 cash_pieces in
  let l := Demo.chat_line in
  let t := end_of Demo.cash_hand in
  Re.split _split_re (Py.strip Demo.cash_hand) = xs ++ ys
  /\ Re.split _split_re (Py.strip Demo.cash_hand_with_chat) = xs ++ l :: ys
  /\ (forall sub, In sub (List.map fst parse_methods) ->
        Py.contains sub l = false)
  /\ l <> EmptyString
  /\ l ∉ ["FLOP"; "TURN"; "RIVER"; "SHOW DOWN"]
  /\ head (sections_of (xs ++ ys)) = Some 6%nat
  /\ last (sections_of (xs ++ ys)) = Some 15%nat
  /\ (6 + 3 <= List.length xs <= 15)%nat
  /\ (forall x, last xs = Some x -> x ∉ ["FLOP"; "TURN"; "RIVER"])
  /\ run_parse Demo.cash_hand ERROR [] = (t, Ok tt)
  /\ parse l = Raise (UnknownActionError l)
  /\ exists t',
       run_parse Demo.cash_hand_with_chat ERROR [] = (t', Ok tt)
       /\ (forall k, k <> "raw" -> self t' !! k = self t !! k)
       /\ logger_level t' = logger_level t
       /\ diagnosed (message l) (logged t) (logged t').
Proof.
  intros xs ys l t.
  assert (H1 : Re.split _split_re (Py.strip Demo.cash_hand) = xs ++ ys)
    by by_computation.
  assert (H2 : Re.split _split_re (Py.strip Demo.cash_hand_with_chat)
               = xs ++ l :: ys) by by_computation.
  assert (H3 : forall sub, In sub (List.map fst parse_methods) ->
                 Py.contains sub l = false).
  { intros sub Hin. simpl in Hin.
    repeat (destruct Hin as [<-|Hin]; [by_computation|]). destruct Hin. }
  assert (H4 : l <> EmptyString) by discriminate.
  assert (H5 : l ∉ ["FLOP"; "TURN"; "RIVER"; "SHOW DOWN"]) by decided.
  assert (H6 : head (sections_of (xs ++ ys)) = Some 6%nat) by by_computation.
  assert (H7 : last (sections_of (xs ++ ys)) = Some 15%nat)
    by by_computation.
  assert (H8 : (6 + 3 <= List.length xs <= 15)%nat).
  { assert (List.length xs = 10%nat) as -> by by_computation. lia. }
  assert (H9 : forall x, last xs = Some x -> x ∉ ["FLOP"; "TURN"; "RIVER"]).
  { intros x Hx. vm_compute in Hx. injection Hx as <-. decided. }
  assert (H10 : run_parse Demo.cash_hand ERROR [] = (t, Ok tt))
    by runs.
  do 10 (split; [assumption|]).
  exact (unknown_line_skipped Demo.cash_hand Demo.cash_hand_with_chat
           xs ys l 6 15 ERROR [] t H1 H2 H3 H4 H5 H6 H7 H8 H9 H10).
Defined.

(** C5 on [Demo.first_seat_wins], a hand that ends before the flop and
    that the first seat wins: there was no show down, the summary has
    the line of the first seat with ["collected"] in it, on which
    [_winner_re] gives the name ["alice"], and [winners] is empty: the
    loop of [_parse_winners] starts four pieces after the last section,
    one piece too far when the summary has no board line. *)
Theorem winners_miss_first_seat :
  let t := end_of Demo.first_seat_wins in
  let splitted := Re.split _split_re (Py.strip Demo.first_seat_wins) in
  let line := "Seat 1: alice (big blind) collected ($0.12)" in
  run_parse Demo.first_seat_wins ERROR [] = (t, Ok tt)
  /\ "SHOW DOWN" ∉ splitted
  /\ self t !! "show_down" = Some (VBool false)
  /\ last (sections_of splitted) = Some 15%nat
  /\ splitted !! 16%nat = Some "SUMMARY"
  /\ splitted !! 18%nat = Some line
  /\ Py.contains "collected" line = true
  /\ group (Re.match_ _winner_re line) "name" = Ok (Some "alice")
  /\ self t !! "winners" = Some (VNames []).
Proof.
  intros t splitted line.
  split; [runs|]. split; [decided|].
  conjuncts; by_computation.
Qed.

(** C2 does not hold for a line that reads as the name of a marker:
    ["TURN"] among the preflop actions is a line no rule knows, the
    parse succeeds with it and without it, and the actions of the turn
    are not the same. *)
Lemma marker_name_line_changes_actions :
  let xs := take 10 cash_pieces in
  let ys := drop 10 cash_pieces in
  let t := end_of Demo.cash_hand in
  let t' := end_of Demo.cash_hand_with_marker_name in
  Re.split _split_re (Py.strip Demo.cash_hand) = xs ++ ys
  /\ Re.split _split_re (Py.strip Demo.cash_hand_with_marker_name)
     = xs ++ "TURN" :: ys
  /\ parse "TURN" = Raise (UnknownActionError "TURN")
  /\ run_parse Demo.cash_hand ERROR [] = (t, Ok tt)
  /\ run_parse Demo.cash_hand_with_marker_name ERROR [] = (t', Ok tt)
  /\ self t !! "turn_actions" = Some VNone
  /\ self t' !! "turn_actions"
     = Some (VActions
               [ _PlayerAction "alice" Demo.FOLD PNone;
                 _PlayerAction "bob" Demo.A_RETURN (PDecimal (Dec 12 2));
                 _PlayerAction "bob" Demo.A_WIN (PDecimal (Dec 11 2));
                 _PlayerAction "bob" Demo.A_MUCK PNone ]).
Proof. intros; conjuncts; first [runs | by_computation]. Qed.

(** C6 does not hold for a text with a turn and no flop marker: the
    parse succeeds, the flop is [None], and the turn and its actions
    are there. *)
Lemma turn_without_flop_has_turn :
  let t := end_of Demo.turn_without_flop in
  "FLOP" ∉ Re.split _split_re (Py.strip Demo.turn_without_flop)
  /\ run_parse Demo.turn_without_flop ERROR [] = (t, Ok tt)
  /\ self t !! "flop" = Some VNone
  /\ self t !! "turn" = Some (VCard "Kc")
  /\ self t !! "turn_actions"
     = Some (VActions [ _PlayerAction "bob" Demo.CHECK PNone;
                        _PlayerAction "alice" Demo.CHECK PNone ]).
Proof.
  intros; split; [decided|]. conjuncts; first [runs | by_computation].
Qed.

(** C8 does not hold for the rake: the summary of [Demo.cash_hand] has
    the line [Total pot $0.12 | Rake $0.01], the second group of
    [_pot_re] on it is [0.01], and after the parse the total pot is
    [0.12] and the rake is [None], as the header of a cash game left
    it. *)
Lemma rake_not_from_summary :
  let t := end_of Demo.cash_hand in
  let potline := "Total pot $0.12 | Rake $0.01" in
  run_parse Demo.cash_hand ERROR [] = (t, Ok tt)
  /\ cash_pieces !! 17%nat = Some potline
  /\ group (Re.match_ _pot_re potline) "1" = Ok (Some "0.12")
  /\ group (Re.match_ _pot_re potline) "2" = Ok (Some "0.01")
  /\ self t !! "total_pot" = Some (VDecimal (Dec 12 2))
  /\ self t !! "rake" = Some VNone.
Proof. intros; conjuncts; first [runs | by_computation]. Qed.

(** C10 does not hold when two seats have one name: the table line of
    [Demo.same_name_twice] puts the button on seat 2, the hero is the
    player of seat 1 under the same name, and the button is the hero's
    record, not the entry of seat 2. *)
Lemma button_not_seat_entry :
  let t := end_of Demo.same_name_twice in
  let seat1 := _Player "bob" (Dec 2 0) 1 (Some ["Ac"; "Jh"]) in
  let seat2 := _Player "bob" (Dec 250 2) 2 None in
  run_parse Demo.same_name_twice ERROR [] = (t, Ok tt)
  /\ (tc ← Re.match_ _table_re
             "Table 'Bellona II' 2-max Seat #2 is the button";
      tc !! "button") = Some "2"
  /\ self t !! "players" = Some (VPlayers [seat1; seat2])
  /\ Py.getitem [seat1; seat2] (2 - 1) = Some seat2
  /\ self t !! "button" = Some (VPlayer seat1)
  /\ self t !! "hero" = Some (VPlayer seat1)
  /\ seat1 <> seat2.
Proof.
  intros; conjuncts; try first [runs | by_computation]. discriminate.
Qed.

(** Two tournament headers with cash-format blinds that carry a
    currency code. *)
Definition tour_header_usd_blinds : string :=
  "PokerStars Hand #105024000105: Tournament #797469411, $3.19+$0.31 Hold'em No Limit - Level I ($10/$20 USD) - 2013/10/04 19:53:27 CET [2013/10/04 13:53:27 ET]".

Definition freeroll_header_eur_blinds : string :=
  "PokerStars Hand #105024000105: Tournament #797469411, Freeroll Hold'em No Limit - Level I ($10/$20 EUR) - 2013/10/04 19:53:27 CET [2013/10/04 13:53:27 ET]".

(** C4 does not hold for a currency code written with the blinds of a
    tournament header.  The header pattern accepts
    [tour_header_usd_blinds]; the code [USD] stands on the line, in the
    group [cash_currency]; the header is a tournament's, so
    [parse_header] reads the group [currency], which is empty, and ends
    with [currency = None] and [money_type = PLAY].  On
    [freeroll_header_eur_blinds] the code on the line is [EUR], and the
    currency is the [USD] of the freeroll. *)
Lemma tournament_blinds_currency_not_read :
  let c := header_caps tour_header_usd_blinds in
  let r := parse_header (fresh tour_header_usd_blinds ERROR []) in
  let c' := header_caps freeroll_header_eur_blinds in
  let r' := parse_header (fresh freeroll_header_eur_blinds ERROR []) in
  (head (Re.split _split_re (Py.strip tour_header_usd_blinds))
   = Some tour_header_usd_blinds
   /\ Re.match_ _header_re tour_header_usd_blinds = Some c
   /\ c !! "tournament_ident" = Some "797469411"
   /\ c !! "cash_currency" = Some "USD"
   /\ c !! "currency" = None
   /\ c !! "freeroll" = None
   /\ snd r = Ok tt
   /\ self (fst r) !! "currency" = Some VNone
   /\ self (fst r) !! "extra" = Some (VDict {["money_type" := PLAY]}))
  /\ (head (Re.split _split_re (Py.strip freeroll_header_eur_blinds))
      = Some freeroll_header_eur_blinds
      /\ Re.match_ _header_re freeroll_header_eur_blinds = Some c'
      /\ c' !! "cash_currency" = Some "EUR"
      /\ c' !! "currency" = None
      /\ c' !! "freeroll" = Some "Freeroll"
      /\ snd r' = Ok tt
      /\ self (fst r') !! "currency" = Some (VCurrency "USD")
      /\ self (fst r') !! "extra" = Some (VDict {["money_type" := REAL]})).
Proof. intros; conjuncts; by_computation. Qed.

(** * More properties of the parser *)

(** ** The classifier and the loop over action lines *)

Section ClassifierErrors.
Context `{Externals}.

(** No method of the table raises [UnknownActionError] itself. *)
Lemma method_not_Unknown (sub : string) (f : string -> res parsed)
    (line a : string) :
  In (sub, f) parse_methods -> f line <> Raise (UnknownActionError a).
Proof.
  intros Hin. simpl in Hin.
  repeat (destruct Hin as [Hin|Hin]; [injection Hin as <- <-|]);
    try contradiction;
    unfold _parse_uncalled, _parse_collected, _parse_muck, _parse_join_table,
      _parse_leave_table, _parse_timed_out, _parse_connected,
      _parse_disconnected, _parse_removed, _parse_show, _parse_player_action,
      group, Decimal_of, str_index, or_raise, mbind, res_bind, mret, res_ret;
    repeat case_match; congruence.
Qed.

(** X1.  [parse] raises [UnknownActionError] exactly on the lines in which
    none of the substrings of its table occurs, and the error carries
    the line as it was given, not trimmed. *)
Theorem unknown_action_iff (action_str a : string) :
  parse action_str = Raise (UnknownActionError a)
  <-> a = action_str
      /\ forall sub, In sub (List.map fst parse_methods) ->
           Py.contains sub action_str = false.
Proof.
  split.
  - unfold parse, first_method.
    destruct (List.find (fun m => Py.contains (fst m) action_str)
                parse_methods) as [[sub f]|] eqn:E.
    + apply List.find_some in E as [Hin _].
      cbn [or_raise mbind res_bind snd].
      pose proof (method_not_StopIteration sub f (Py.strip action_str) Hin)
        as N1.
      pose proof (method_not_Unknown sub f (Py.strip action_str) a Hin)
        as N2.
      destruct (f (Py.strip action_str)) as [[[n act] v]|e]; cbn [finish];
        [discriminate|]. destruct e; congruence.
    + cbn [or_raise mbind res_bind finish]. intros [= <-].
      split; [reflexivity|]. intros sub Hin.
      apply in_map_iff in Hin as ([sub' f] & <- & Hin).
      apply (List.find_none _ _ E (sub', f) Hin).
  - intros [-> Hnone]. now apply parse_no_match.
Qed.

(** What the loop keeps of a list of lines, and what it reports. *)
Definition recognised (lines : list string) : list PlayerAction :=
  omap (fun l => match parse l with Ok a => Some a | Raise _ => None end)
       lines.

Definition diagnostics (lines : list string) : list string :=
  omap (fun l => match parse l with
                 | Raise (UnknownActionError a) => Some (message a)
                 | _ => None
                 end) lines.

Lemma recognised_cons (l : string) (lines : list string) :
  recognised (l :: lines)
  = match parse l with
    | Ok a => a :: recognised lines
    | Raise _ => recognised lines
    end.
Proof. unfold recognised. simpl. now destruct (parse l). Qed.

Lemma diagnostics_cons (l : string) (lines : list string) :
  diagnostics (l :: lines)
  = match parse l with
    | Raise (UnknownActionError a) => message a :: diagnostics lines
    | _ => diagnostics lines
    end.
Proof.
  unfold diagnostics. simpl. destruct (parse l) as [|e]; [reflexivity|].
  now destruct e.
Qed.

Lemma parse_lines_ok (lines : list string)
    (acc actions : list PlayerAction) (s s' : state) :
  parse_lines lines acc s = (s', Ok actions) ->
  actions = acc ++ recognised lines
  /\ self s' = self s
  /\ logger_level s' = logger_level s
  /\ logged s'
     = logged s ++ (if logger_level s <=? WARNING then diagnostics lines
                    else []).
Proof.
  revert acc s. induction lines as [|l lines IH]; intros acc s Hrun.
  - injection Hrun as <- <-. cbn [recognised diagnostics omap].
    rewrite !app_nil_r. destruct (logger_level s <=? WARNING);
      rewrite ?app_nil_r; auto.
  - cbn [parse_lines] in Hrun. rewrite recognised_cons, diagnostics_cons.
    destruct (parse l) as [act|e] eqn:El.
    + apply IH in Hrun as (-> & -> & -> & ->).
      rewrite <- app_assoc. repeat split; reflexivity.
    + destruct e; try discriminate.
      rewrite bind_eq in Hrun. unfold warning in Hrun.
      destruct (logger_level s <=? WARNING) eqn:Elv;
        apply IH in Hrun as (-> & E1 & E2 & E3);
        cbn [self logger_level logged] in E1, E2, E3.
      * rewrite E3, <- app_assoc, Elv. repeat split; auto.
      * rewrite Elv in E3. repeat split; auto.
Qed.

(** X2.  The loop shared by the preflop, the streets and the show down:
    when it ends without an exception, the actions are those of the
    lines the classifier knows, in their order, after the ones already
    there; the instance is untouched; and the logger has one warning
    more for every unknown line if its level lets warnings through,
    and nothing more otherwise. *)
Theorem parse_lines_skips_and_logs (lines : list string)
    (acc actions : list PlayerAction) (s s' : state) :
  parse_lines lines acc s = (s', Ok actions) ->
  actions = acc ++ recognised lines
  /\ self s' = self s
  /\ logger_level s' = logger_level s
  /\ logged s'
     = logged s ++ (if logger_level s <=? WARNING then diagnostics lines
                    else []).
Proof. apply parse_lines_ok. Qed.

(** X3.  A line on which the classifier raises anything but
    [UnknownActionError] ends the loop with that exception: nothing is
    skipped, and the instance is as it was. *)
Theorem parse_lines_first_error (before after : list string) (l : string)
    (e : exn) (acc : list PlayerAction) (s : state) :
  Forall (fun x => match parse x with
                   | Ok _ | Raise (UnknownActionError _) => True
                   | Raise _ => False
                   end) before ->
  parse l = Raise e ->
  is_UnknownActionError e = false ->
  exists s',
    parse_lines (before ++ l :: after) acc s = (s', Raise e)
    /\ self s' = self s
    /\ logger_level s' = logger_level s.
Proof.
  intros Hbefore Hl He. revert acc s.
  induction Hbefore as [|x before Hx _ IH]; intros acc s;
    cbn [app parse_lines].
  - rewrite Hl. exists s. destruct e; try discriminate; auto.
  - destruct (parse x) as [act|ex]; [apply IH|].
    destruct ex as [| | | | | |u]; try contradiction.
    rewrite bind_eq. unfold warning.
    destruct (logger_level s <=? WARNING); [|apply IH].
    destruct (IH acc (State (self s) (logger_level s)
                        (logged s ++ [message u]))) as (s' & E & E1 & E2).
    exists s'. auto.
Qed.

End ClassifierErrors.

(** ** What the streets and the show down do with a [ValueError] *)

Section StreetErrors.
Context `{Externals}.

(** X4.  [_parse_street] catches [ValueError] around the whole street: when
    the classifier raises it on a line of the street, the street is
    reported like a street without marker: the card and the actions
    are [None], and the method returns. *)
Theorem street_value_error_is_no_street (street : string) (s s' : state)
    (splitted : list string) (i stop : nat) :
  self s !! "_splitted" = Some (VStrings splitted) ->
  Py.index_from (Py.upper street) 0 splitted = Some i ->
  Py.index_from "" (i + 2) splitted = Some stop ->
  parse_lines (Py.lslice (i + 2) stop splitted) [] s = (s', Raise ValueError) ->
  _parse_street street s
  = (State (<[Py.lower street +:+ "_actions" := VNone]>
              (<[street := VNone]> (self s')))
           (logger_level s') (logged s'), Ok tt).
Proof.
  intros Hsp Hi Hstop Hlines. unfold _parse_street, try_except.
  rewrite (index_of_run _ _ splitted) by exact Hsp. rewrite Hi.
  cbv zeta. rewrite (index_of_run _ _ splitted) by exact Hsp. rewrite Hstop.
  rewrite (get_splitted_run splitted) by exact Hsp.
  rewrite (bind_raise _ _ _ _ _ Hlines). cbn [is_ValueError].
  reflexivity.
Qed.

(** X5.  [_parse_showdown] catches [ValueError] around the whole show
    down: when the classifier raises it on a line after the
    [SHOW DOWN] marker, the method returns with [show_down = False]
    and no show-down actions, as if there had been no marker. *)
Theorem showdown_value_error_is_no_showdown (s s' : state)
    (splitted : list string) (i stop : nat) :
  self s !! "_splitted" = Some (VStrings splitted) ->
  Py.index_from "SHOW DOWN" 0 splitted = Some i ->
  Py.index_from "" (i + 1) splitted = Some stop ->
  parse_lines (Py.lslice (i + 1) stop splitted) [] s = (s', Raise ValueError) ->
  _parse_showdown s
  = (State (<["show_down_actions" := VNone]>
              (<["show_down" := VBool false]> (self s')))
           (logger_level s') (logged s'), Ok tt).
Proof.
  intros Hsp Hi Hstop Hlines. unfold _parse_showdown, try_except.
  rewrite (index_of_run _ _ splitted) by exact Hsp. rewrite Hi.
  cbv zeta. rewrite (index_of_run _ _ splitted) by exact Hsp. rewrite Hstop.
  rewrite (get_splitted_run splitted) by exact Hsp.
  rewrite (bind_raise _ _ _ _ _ Hlines). cbn [is_ValueError].
  reflexivity.
Qed.

End StreetErrors.

(** ** The two phases *)

Section TwoPhases.
Context `{Externals}.

(** A method that, when it returns, has assigned [v] to [k] last. *)
Definition ends_setting {A} (m : M A) (k : string) (v : value) : Prop :=
  forall s s' a, m s = (s', Ok a) -> self s' !! k = Some v.

Lemma ends_bind {A B} (m : M A) (f : A -> M B) (k : string) (v : value) :
  (forall a, ends_setting (f a) k v) -> ends_setting (m ≫= f) k v.
Proof.
  intros Hf s s' b Hrun. apply bind_ok in Hrun as (s1 & a & _ & Hrun).
  exact (Hf a s1 s' b Hrun).
Qed.

Lemma ends_setattr (k : string) (v : value) : ends_setting (setattr k v) k v.
Proof. intros s s' a [= <-]. apply lookup_insert_eq. Qed.

Lemma parse_header_marks (s s' : state) :
  parse_header s = (s', Ok tt) ->
  self s' !! "header_parsed" = Some (VBool true).
Proof.
  assert (Hend : ends_setting parse_header "header_parsed" (VBool true)).
  { unfold parse_header. do 7 (apply ends_bind; intros ?).
    unfold header_game_limit_date. do 8 (apply ends_bind; intros ?).
    apply ends_setattr. }
  intros E. exact (Hend s s' tt E).
Qed.

Lemma get_bool_run {B} (k : string) (b : bool) (f : bool -> M B) (s : state) :
  self s !! k = Some (VBool b) -> (get_bool k ≫= f) s = f b s.
Proof.
  intros E. unfold get_bool. rewrite bind_assoc_run.
  now erewrite getattr_run by exact E.
Qed.

(** X6.  Parsing the header first and the rest afterwards is the same as
    parsing in one go: on an instance whose header is not parsed yet,
    [hh.parse_header(); hh.parse()] ends as [hh.parse()] does, in the
    same state and with the same outcome, an exception of the header
    included. *)
Theorem header_then_parse (s : state) :
  self s !! "header_parsed" = Some (VBool false) ->
  (parse_header ≫= fun _ => parse_) s = parse_ s.
Proof.
  intros Hflag. rewrite (parse_unfold s).
  rewrite (get_bool_run _ false) by exact Hflag. cbn [negb].
  rewrite !bind_eq.
  destruct (parse_header s) as [s1 [[]|e]] eqn:E; [|reflexivity].
  rewrite (parse_unfold s1).
  rewrite (get_bool_run _ true) by exact (parse_header_marks _ _ E).
  reflexivity.
Qed.

End TwoPhases.

(** ** Seats and button *)

Section Seats.
Context `{Externals}.

(** [int] of a group of digits is not negative. *)
Lemma int_of_nonneg (o : option string) (n : Z) : int_of o = Ok n -> 0 <= n.
Proof.
  destruct o as [t|]; [|discriminate]. unfold int_of, Decimal.int.
  generalize 0%N, false. induction t as [|a t IH]; intros acc seen; simpl.
  - destruct seen; [|discriminate]. intros [= <-]. lia.
  - destruct (Py.is_digit a); [apply IH | discriminate].
Qed.

Lemma setitem_length {A} (l l' : list A) (i : Z) (x : A) :
  Py.setitem l i x = Some l' -> List.length l' = List.length l.
Proof.
  unfold Py.setitem. repeat case_match; intros [= <-];
    apply length_insert.
Qed.

Lemma setitem_lookup {A} (l l' : list A) (i : Z) (x : A) (j : nat) (y : A) :
  Py.setitem l i x = Some l' -> 0 <= i -> l' !! j = Some y ->
  l !! j = Some y \/ (y = x /\ Z.of_nat j = i).
Proof.
  unfold Py.setitem. intros Hset Hi Hj.
  destruct ((0 <=? i) && (i <? Z.of_nat (List.length l))) eqn:E.
  - injection Hset as <-. destruct (decide (Z.to_nat i = j)) as [<-|Hne].
    + right. apply andb_true_iff in E as [_ E]. apply Z.ltb_lt in E.
      rewrite list_lookup_insert_eq in Hj by lia.
      injection Hj as <-. split; [reflexivity | lia].
    + left. now rewrite list_lookup_insert_ne in Hj.
  - replace (i <? 0) with false in Hset by (symmetry; apply Z.ltb_ge; lia).
    rewrite andb_false_r in Hset. discriminate.
Qed.

Lemma setitem_last {A} (l l' : list A) (x : A) (j : nat) (y : A) :
  Py.setitem l (-1) x = Some l' -> l' !! j = Some y ->
  l !! j = Some y \/ (y = x /\ S j = List.length l).
Proof.
  unfold Py.setitem. intros Hset Hj.
  replace ((0 <=? -1) && (-1 <? Z.of_nat (List.length l))) with false in Hset
    by reflexivity.
  destruct ((- Z.of_nat (List.length l) <=? -1) && (-1 <? 0)) eqn:E;
    [|discriminate].
  apply andb_true_iff in E as [E _]. apply Z.leb_le in E.
  injection Hset as <-.
  destruct (decide (Z.to_nat (Z.of_nat (List.length l) + -1) = j)) as [<-|Hne].
  - right. rewrite list_lookup_insert_eq in Hj by lia.
    injection Hj as <-. split; [reflexivity | lia].
  - left. now rewrite list_lookup_insert_ne in Hj.
Qed.

(** Every seat stands at the index one below its number; the seat
    numbered 0, if a line has one, stands on the last index. *)
Definition seated (players : list Player) : Prop :=
  forall i p, players !! i = Some p ->
    seat p = Z.of_nat i + 1
    \/ (seat p = 0 /\ S i = List.length players).

(** X7.  The loop of [_parse_players] over the seat lines keeps the number
    of seats, and keeps every seat at the index one below its number:
    a seat line never adds or moves a seat, it replaces the entry at
    [seat - 1] (the last entry for a seat numbered 0, by Python's
    negative index). *)
Theorem seat_lines_keep_seats (lines : list string) (s s' : state)
    (players : list Player) :
  seat_lines lines s = (s', Ok tt) ->
  self s !! "players" = Some (VPlayers players) ->
  seated players ->
  exists players',
    self s' !! "players" = Some (VPlayers players')
    /\ List.length players' = List.length players
    /\ seated players'.
Proof.
  revert s players. induction lines as [|line lines IH];
    intros s players Hrun Hp Hinv; cbn [seat_lines] in Hrun.
  - injection Hrun as <-. eauto.
  - destruct (Re.match_ _seat_re line) as [c|]; [|injection Hrun as <-; eauto].
    cbv zeta in Hrun.
    apply bind_ok in Hrun as (s1 & st & E & Hrun).
    apply lift_ok in E as (-> & _).
    apply bind_ok in Hrun as (s1 & n & E & Hrun).
    apply lift_ok in E as (-> & Hn). apply int_of_nonneg in Hn.
    apply bind_ok in Hrun as (s1 & nm & E & Hrun).
    apply lift_ok in E as (-> & _).
    apply bind_ok in Hrun as (s1 & stk & E & Hrun).
    apply lift_ok in E as (-> & _).
    apply bind_ok in Hrun as (s1 & d & E & Hrun).
    apply lift_ok in E as (-> & _).
    apply bind_ok in Hrun as (s1 & ps & E & Hrun).
    apply get_players_ok in E as (-> & Hps).
    rewrite Hp in Hps. injection Hps as <-.
    apply bind_ok in Hrun as (s1 & ps' & E & Hrun).
    apply lift_ok in E as (-> & Hset).
    destruct (Py.setitem players (n - 1) _) as [ps1|] eqn:Eset;
      [|discriminate]. injection Hset as <-.
    apply bind_ok in Hrun as (s1 & [] & E & Hrun).
    apply setattr_ok in E as ->.
    apply (IH _ ps1) in Hrun as (players' & Hp' & Hlen & Hinv').
    + exists players'. split; [exact Hp'|]. split; [|exact Hinv'].
      rewrite Hlen. exact (setitem_length _ _ _ _ Eset).
    + cbn [self]. apply lookup_insert_eq.
    + pose proof (setitem_length _ _ _ _ Eset) as Hlen.
      intros i p Hi. destruct (decide (n = 0)) as [->|Hne].
      * apply (setitem_last _ _ _ _ _ Eset) in Hi as [Hi|[-> Hi]].
        -- rewrite Hlen. now apply Hinv.
        -- right. split; [reflexivity|]. now rewrite Hlen.
      * apply (setitem_lookup _ _ _ _ _ _ Eset) in Hi as [Hi|[-> Hi]];
          [|left; cbn [seat]; lia | lia].
        rewrite Hlen. now apply Hinv.
Qed.

(** X8.  A seat line whose number is above the number of seats of the table
    stops the loop with [IndexError]; the seat list is as it was. *)
Theorem seat_beyond_table_raises (line : string) (lines : list string)
    (c : caps) (n : Z) (d : decimal) (players : list Player) (s : state) :
  Re.match_ _seat_re line = Some c ->
  int_of (c !! "seat") = Ok n ->
  Decimal_of (c !! "stack") = Ok d ->
  self s !! "players" = Some (VPlayers players) ->
  Z.of_nat (List.length players) < n ->
  seat_lines (line :: lines) s = (s, Raise IndexError).
Proof.
  intros Hm Hn Hd Hp Hlt. cbn [seat_lines]. rewrite Hm. cbv zeta.
  cbn [group]. rewrite lift_run. cbv beta iota.
  rewrite Hn, lift_run. cbv beta iota.
  rewrite lift_run. cbv beta iota.
  rewrite lift_run. cbv beta iota.
  rewrite Hd, lift_run. cbv beta iota.
  unfold get_players. rewrite bind_assoc_run.
  erewrite getattr_run by exact Hp. cbv beta iota. rewrite ret_run.
  unfold Py.setitem.
  replace ((0 <=? n - 1) && (n - 1 <? Z.of_nat (List.length players)))
    with false by (symmetry; apply andb_false_iff; right; apply Z.ltb_ge; lia).
  replace (n - 1 <? 0) with false by (symmetry; apply Z.ltb_ge; lia).
  rewrite andb_false_r. reflexivity.
Qed.

(** X9.  The three cases of [_parse_button]: a button seat within the table
    gives the entry at the index one below it; the number 0 gives the
    last entry (Python's index [-1]); a number above the number of
    seats raises [IndexError] and assigns nothing. *)
Theorem button_seat_cases (s : state) (tc : caps) (b : Z)
    (players : list Player) :
  self s !! "_table_match" = Some (VMatch (Some tc)) ->
  int_of (tc !! "button") = Ok b ->
  self s !! "players" = Some (VPlayers players) ->
  (forall p, 1 <= b -> players !! Z.to_nat (b - 1) = Some p ->
     _parse_button s
     = (State (<["button" := VPlayer p]> (self s)) (logger_level s)
              (logged s), Ok tt))
  /\ (forall p, b = 0 -> last players = Some p ->
        _parse_button s
        = (State (<["button" := VPlayer p]> (self s)) (logger_level s)
                 (logged s), Ok tt))
  /\ (Z.of_nat (List.length players) < b ->
        _parse_button s = (s, Raise IndexError)).
Proof.
  intros Htm Hb Hp.
  assert (Hrun : _parse_button s
                 = (button ← item players (b - 1);
                    setattr "button" (VPlayer button)) s).
  { unfold _parse_button, get_table_match, get_players.
    rewrite bind_assoc_run. erewrite getattr_run by exact Htm.
    cbv beta iota. rewrite ret_run. cbn [group].
    rewrite lift_run. cbv beta iota. rewrite Hb, lift_run. cbv beta iota.
    rewrite bind_assoc_run. erewrite getattr_run by exact Hp.
    cbv beta iota. now rewrite ret_run. }
  rewrite Hrun. unfold item. split; [|split].
  - intros p Hge Hlook.
    replace (b - 1) with (Z.of_nat (Z.to_nat (b - 1))) by lia.
    rewrite getitem_nat, Hlook. reflexivity.
  - intros p -> Hlast. change (0 - 1) with (-1).
    rewrite getitem_last, Hlast. reflexivity.
  - intros Hlt. unfold Py.getitem.
    replace ((0 <=? b - 1) && (b - 1 <? Z.of_nat (List.length players)))
      with false
      by (symmetry; apply andb_false_iff; right; apply Z.ltb_ge; lia).
    replace (b - 1 <? 0) with false by (symmetry; apply Z.ltb_ge; lia).
    rewrite andb_false_r. reflexivity.
Qed.

(** X10.  When the line after the hole-cards marker is no [Dealt to] line,
    there is no hero: [_parse_hero] catches the [AttributeError] of the
    failed match, assigns [hero = None] and touches nothing else. *)
Theorem no_dealt_line_no_hero (s : state) (splitted : list string)
    (sections : list nat) (s0 : nat) (line : string) :
  self s !! "_splitted" = Some (VStrings splitted) ->
  self s !! "_sections" = Some (VIndices sections) ->
  Py.getitem sections 0 = Some s0 ->
  Py.getitem splitted (Z.of_nat s0 + 2) = Some line ->
  Re.match_ _hero_re line = None ->
  _parse_hero s
  = (State (<["hero" := VNone]> (self s)) (logger_level s) (logged s),
     Ok tt).
Proof.
  intros Hsp Hse Hs0 Hline Hm. unfold _parse_hero.
  rewrite (get_splitted_run splitted) by exact Hsp.
  rewrite (get_sections_run sections) by exact Hse.
  unfold item. rewrite Hs0, lift_run. cbn [or_raise].
  rewrite Hline, lift_run. cbn [or_raise]. cbv zeta. rewrite Hm.
  reflexivity.
Qed.

End Seats.

(** ** The winners *)

(** The pattern a summary line is read with, if it is read at all:
    the test on ["collected"] comes first, and only without a show
    down; the test on ["won"] only with one. *)
Definition winner_policy (show_down : bool) (line : string) : option regex :=
  if negb show_down && Py.contains "collected" line then Some _winner_re
  else if show_down && Py.contains "won" line then Some _showdown_re
  else None.

Section Winners.
Context `{Externals}.

Lemma winner_lines_step (sd : bool) (line : string) (lines : list string)
    (W : gset string) (s : state) :
  self s !! "show_down" = Some (VBool sd) ->
  winner_lines (get_bool "show_down") (line :: lines) W s
  = match winner_policy sd line with
    | None => winner_lines (get_bool "show_down") lines W s
    | Some re =>
        match Re.match_ re line with
        | Some c =>
            winner_lines (get_bool "show_down") lines
              (W ∪ {[default "" (c !! "name")]}) s
        | None => (s, Raise AttributeError)
        end
    end.
Proof.
  intros Hsd. cbn [winner_lines]. unfold winner_policy.
  rewrite (get_bool_run _ sd) by exact Hsd.
  destruct (negb sd && Py.contains "collected" line).
  - rewrite lift_run. now destruct (Re.match_ _winner_re line).
  - rewrite (get_bool_run _ sd) by exact Hsd.
    destruct (sd && Py.contains "won" line); [|reflexivity].
    rewrite lift_run. now destruct (Re.match_ _showdown_re line).
Qed.

Lemma winner_lines_names (sd : bool) (lines : list string) (W W' : gset string)
    (s s' : state) :
  self s !! "show_down" = Some (VBool sd) ->
  winner_lines (get_bool "show_down") lines W s = (s', Ok W') ->
  s' = s
  /\ forall n, n ∈ W' <->
       n ∈ W \/ exists line re c,
                  line ∈ lines /\ winner_policy sd line = Some re
                  /\ Re.match_ re line = Some c
                  /\ n = default "" (c !! "name").
Proof.
  intros Hsd. revert W. induction lines as [|line lines IH]; intros W Hrun.
  - injection Hrun as <- <-. split; [reflexivity|]. intros n. split; [auto|].
    intros [Hn|(line & re & c & Hin & _)]; [exact Hn|].
    now apply elem_of_nil in Hin.
  - rewrite (winner_lines_step sd) in Hrun by exact Hsd.
    destruct (winner_policy sd line) as [re|] eqn:Hpol.
    + destruct (Re.match_ re line) as [c|] eqn:Hm; [|discriminate].
      apply IH in Hrun as [-> Hrun]. split; [reflexivity|]. intros n.
      rewrite Hrun, elem_of_union, elem_of_singleton. split.
      * intros [[Hn| ->]|(l & re' & c' & Hin & Hrest)].
        -- now left.
        -- right. exists line, re, c. rewrite elem_of_cons. auto.
        -- right. exists l, re', c'. rewrite elem_of_cons. auto.
      * intros [Hn|(l & re' & c' & Hin & Hp' & Hm' & ->)]; [auto|].
        apply elem_of_cons in Hin as [->|Hin].
        -- rewrite Hpol in Hp'. injection Hp' as <-.
           rewrite Hm in Hm'. injection Hm' as <-. auto.
        -- right. exists l, re', c'. auto.
    + apply IH in Hrun as [-> Hrun]. split; [reflexivity|]. intros n.
      rewrite Hrun. split.
      * intros [Hn|(l & re' & c' & Hin & Hrest)]; [auto|].
        right. exists l, re', c'. rewrite elem_of_cons. auto.
      * intros [Hn|(l & re' & c' & Hin & Hp' & Hrest)]; [auto|].
        apply elem_of_cons in Hin as [->|Hin]; [congruence|].
        right. exists l, re', c'. auto.
Qed.

(** X11.  When [_parse_winners] returns, [winners] holds, each once, exactly
    the names that the pattern of the policy gives on the lines it
    reads: the pieces from the fourth after the last section on, with
    ["collected"] in them when there was no show down, with ["won"] in
    them when there was one. *)
Theorem winners_are_the_policy_names (s s' : state)
    (splitted : list string) (sections : list nat) (sd : bool) :
  self s !! "_splitted" = Some (VStrings splitted) ->
  self s !! "_sections" = Some (VIndices sections) ->
  self s !! "show_down" = Some (VBool sd) ->
  _parse_winners s = (s', Ok tt) ->
  exists last names,
    Py.getitem sections (-1) = Some last
    /\ self s' !! "winners" = Some (VNames names)
    /\ NoDup names
    /\ forall n, n ∈ names <->
         exists line re c,
           line ∈ List.skipn (last + 4) splitted
           /\ winner_policy sd line = Some re
           /\ Re.match_ re line = Some c
           /\ n = default "" (c !! "name").
Proof.
  intros Hsp Hse Hsd. unfold _parse_winners.
  rewrite (get_sections_run sections) by exact Hse. intros Hrun.
  apply bind_ok in Hrun as (s1 & last & E & Hrun).
  apply item_ok in E as (-> & Hlast). cbv zeta in Hrun.
  rewrite (get_splitted_run splitted) in Hrun by exact Hsp.
  apply bind_ok in Hrun as (s1 & W & E & Hrun).
  apply setattr_ok in Hrun as ->.
  apply (winner_lines_names sd) in E as [-> HW]; [|exact Hsd].
  exists last, (elements W). split; [exact Hlast|].
  split; [cbn [self]; apply lookup_insert_eq|].
  split; [apply NoDup_elements|].
  intros n. rewrite elem_of_elements, HW. split.
  - intros [Hn|Hn]; [now apply elem_of_empty in Hn | exact Hn].
  - intros Hn. now right.
Qed.

(** X12.  A summary line that passes the test of the policy but is not of
    the form its pattern reads stops [_parse_winners] with the
    [AttributeError] of [match.group] on the failed match: so does a
    line with ["won"] in it, a player's name say, that is no
    [showed ... and won] line, after a show down.  [winners] is not
    assigned. *)
Theorem winners_unread_line_raises (s : state) (splitted : list string)
    (sections : list nat) (last : nat) (sd : bool)
    (before after : list string) (line : string) (re : regex) :
  self s !! "_splitted" = Some (VStrings splitted) ->
  self s !! "_sections" = Some (VIndices sections) ->
  self s !! "show_down" = Some (VBool sd) ->
  Py.getitem sections (-1) = Some last ->
  List.skipn (last + 4) splitted = before ++ line :: after ->
  Forall (fun l => forall re', winner_policy sd l = Some re' ->
                     is_Some (Re.match_ re' l)) before ->
  winner_policy sd line = Some re ->
  Re.match_ re line = None ->
  _parse_winners s = (s, Raise AttributeError).
Proof.
  intros Hsp Hse Hsd Hlast Hlines Hbefore Hpol Hm. unfold _parse_winners.
  rewrite (get_sections_run sections) by exact Hse.
  unfold item. rewrite Hlast, lift_run. cbn [or_raise]. cbv zeta.
  rewrite (get_splitted_run splitted) by exact Hsp.
  rewrite Hlines, bind_eq. clear Hlines.
  assert (Hloop : forall W,
            winner_lines (get_bool "show_down") (before ++ line :: after) W s
            = (s, Raise AttributeError)).
  { induction Hbefore as [|l before Hl _ IH]; intros W; cbn [app];
      rewrite (winner_lines_step sd) by exact Hsd.
    - now rewrite Hpol, Hm.
    - destruct (winner_policy sd l) as [re'|]; [|apply IH].
      destruct (Hl re' eq_refl) as [c ->]. apply IH. }
  now rewrite Hloop.
Qed.

End Winners.

(** ** Reading a show and a board line *)

Section Columns.
Context `{Externals}.

Lemma find_char (c : ascii) (a b : string) :
  all_chars (fun x => negb (Ascii.eqb x c)) a = true ->
  Py.find (String c EmptyString) (a +:+ String c b)
  = Some (String.length a).
Proof.
  induction a as [|x a IH]; intros Ha; cbn [all_chars] in Ha.
  - simpl.
    now rewrite Ascii.eqb_refl.
  - apply andb_true_iff in Ha as [Hx Ha].
    change (String x a +:+ String c b) with (String x (a +:+ String c b)).
    cbn [Py.find Py.startswith String.length].
    rewrite Ascii.eqb_sym. apply negb_true_iff in Hx. rewrite Hx.
    now rewrite (IH Ha).
Qed.

Lemma take_app (a b : string) : Py.take (String.length a) (a +:+ b) = a.
Proof. induction a as [|x a IH]; [now destruct b|]. simpl. now rewrite IH. Qed.

Lemma drop_app (a b : string) : Py.drop (String.length a) (a +:+ b) = b.
Proof. induction a as [|x a IH]; [reflexivity|]. exact IH. Qed.

Lemma length_app (a b : string) :
  String.length (a +:+ b) = (String.length a + String.length b)%nat.
Proof. induction a as [|x a IH]; [reflexivity|]. simpl. now rewrite IH. Qed.

Lemma all_chars_app (f : ascii -> bool) (a b : string) :
  all_chars f (a +:+ b) = all_chars f a && all_chars f b.
Proof.
  induction a as [|x a IH]; [reflexivity|].
  simpl. now rewrite IH, andb_assoc.
Qed.

Lemma slice_middle (a b c : string) :
  Py.slice (Z.of_nat (String.length a))
           (Z.of_nat (String.length a + String.length b)) (a +:+ b +:+ c)
  = b.
Proof.
  unfold Py.slice, Py.bound. rewrite !length_app.
  replace (Z.of_nat (String.length a) <? 0) with false
    by (symmetry; apply Z.ltb_ge; lia).
  replace (Z.of_nat (String.length a + String.length b) <? 0) with false
    by (symmetry; apply Z.ltb_ge; lia).
  rewrite !Nat2Z.id.
  rewrite !Nat.min_r by lia.
  replace (String.length a + String.length b - String.length a)%nat
    with (String.length b) by lia.
  now rewrite drop_app, take_app.
Qed.

Definition is_not (c : ascii) (x : ascii) : bool := negb (Ascii.eqb x c).

(** X13.  [_parse_show] gives back what a show line was written from: on
    [name: shows [cards]...], with no colon or bracket in the name and
    no closing bracket among the cards, the name is [name] and the
    value is the combo of the cards, split at white space.  What
    follows the closing bracket is not read. *)
Theorem show_line_gives_name_and_cards (name cards rest : string)
    (combo : ComboT) :
  all_chars (is_not ":") name = true ->
  all_chars (is_not "[") name = true ->
  all_chars (is_not "]") name = true ->
  all_chars (is_not "]") cards = true ->
  Combo_from_array (Py.split_ws cards) = Some combo ->
  _parse_show (name +:+ ": shows [" +:+ cards +:+ "]" +:+ rest)
  = Ok (name, SHOW, PCombo combo).
Proof.
  intros Hc Hl Hr Hr' Hcombo.
  remember (name +:+ ": shows [" +:+ cards +:+ "]" +:+ rest) as line eqn:El.
  assert (E2 : line
               = (name +:+ ": shows ") +:+ String "[" (cards +:+ "]" +:+ rest))
    by (rewrite El, app_assoc_string; reflexivity).
  assert (E3 : line = ((name +:+ ": shows [") +:+ cards) +:+ String "]" rest)
    by (rewrite El, !app_assoc_string; reflexivity).
  assert (F1 : Py.find ":" line = Some (String.length name)).
  { rewrite El. now apply (find_char ":" name). }
  assert (F2 : Py.find "[" line
               = Some (String.length (name +:+ ": shows "))).
  { rewrite E2. apply (find_char "[").
    rewrite all_chars_app. fold (is_not "["). now rewrite Hl. }
  assert (F3 : Py.find "]" line
               = Some (String.length ((name +:+ ": shows [") +:+ cards))).
  { rewrite E3. apply (find_char "]").
    rewrite !all_chars_app. fold (is_not "]"). now rewrite Hr, Hr'. }
  unfold _parse_show, str_index. rewrite F1, F2, F3.
  cbn [or_raise mbind res_bind].
  replace (Z.of_nat (String.length (name +:+ ": shows ")) + 1)
    with (Z.of_nat (String.length (name +:+ ": shows [")))
    by (rewrite !length_app; cbn [String.length]; lia).
  replace (String.length ((name +:+ ": shows [") +:+ cards))
    with (String.length (name +:+ ": shows [") + String.length cards)%nat
    by (rewrite !length_app; lia).
  rewrite E3 at 1. rewrite app_assoc_string, slice_middle, Hcombo.
  rewrite El, take_app. reflexivity.
Qed.

End Columns.

(** ** What a matched pattern guarantees *)

Section MatchedGroups.
Context `{Externals}.

(** A group that every way through the pattern fills is filled by a
    match, with a text of one of its bodies. *)
Lemma group_filled (r : regex) (line : string) (c : caps) (n : string) :
  Re.match_ r line = Some c -> star_free r = true ->
  forallb (has n) (shapes r) = true ->
  exists t body, c !! n = Some t /\ In body (bodies n r) /\ lang body t.
Proof.
  intros Hm Hfree Hall.
  destruct (match_groups _ _ _ Hm Hfree) as (S & HS & Hset & _).
  apply Hset. exact (shapes_forall _ _ _ Hall HS).
Qed.

Tactic Notation "filled" hyp(Hm) constr(n) ident(t) ident(Ht) ident(L) :=
  let body := fresh "body" in
  let Hb := fresh "Hb" in
  destruct (group_filled _ _ _ n Hm) as (t & body & Ht & Hb & L);
  [vm_compute; reflexivity | vm_compute; reflexivity |];
  vm_compute in Hb;
  repeat (destruct Hb as [<-|Hb]); try contradiction.

(** X14.  When [_uncalled_re] matches the line, [_parse_uncalled] returns:
    both groups are filled and the amount is a number that converts.
    Its only failure is the [AttributeError] of a line the pattern
    does not match. *)
Theorem uncalled_returns_iff_matched (line : string) :
  match Re.match_ _uncalled_re line with
  | Some c =>
      exists name t d,
        c !! "name" = Some name /\ c !! "amount" = Some t
        /\ Decimal.of_string t = Some d
        /\ _parse_uncalled line = Ok (name, RETURN, PDecimal d)
  | None => _parse_uncalled line = Raise AttributeError
  end.
Proof.
  destruct (Re.match_ _uncalled_re line) as [c|] eqn:Hm.
  - filled Hm "name" name Hname Ln. filled Hm "amount" t Ht Lt.
    apply number_text in Lt as (_ & d & Hd).
    exists name, t, d. repeat split; auto.
    unfold _parse_uncalled. rewrite Hm. cbn [group mbind res_bind].
    rewrite Hname, Ht. cbn [Decimal_of]. rewrite Hd. reflexivity.
  - unfold _parse_uncalled. now rewrite Hm.
Qed.

(** X15.  When [_collected_re] matches the line, [_parse_collected] returns
    the name and the amount as a number: both groups are filled and
    the amount converts.  Its only failure is the [AttributeError] of
    a line the pattern does not match. *)
Theorem collected_returns_iff_matched (line : string) :
  match Re.match_ _collected_re line with
  | Some c =>
      exists name t d,
        c !! "name" = Some name /\ c !! "amount" = Some t
        /\ Decimal.of_string t = Some d
        /\ _parse_collected line = Ok (name, WIN, PDecimal d)
  | None => _parse_collected line = Raise AttributeError
  end.
Proof.
  destruct (Re.match_ _collected_re line) as [c|] eqn:Hm.
  - filled Hm "name" name Hname Ln. filled Hm "amount" t Ht Lt.
    apply number_text in Lt as (_ & d & Hd).
    exists name, t, d. repeat split; auto.
    unfold _parse_collected. rewrite Hm. cbn [group mbind res_bind].
    rewrite Hname, Ht. cbn [Decimal_of]. rewrite Hd. reflexivity.
  - unfold _parse_collected. now rewrite Hm.
Qed.

(** X16.  [_parse_join_table] returns the seat as the text of its digits,
    not as a number, when the pattern matches, and fails with
    [AttributeError] otherwise. *)
Theorem join_returns_iff_matched (line : string) :
  match Re.match_ _join_re line with
  | Some c =>
      exists name seat_text,
        c !! "name" = Some name /\ c !! "seat" = Some seat_text
        /\ all_chars Py.is_digit seat_text = true
        /\ _parse_join_table line = Ok (name, JOIN, PStr seat_text)
  | None => _parse_join_table line = Raise AttributeError
  end.
Proof.
  destruct (Re.match_ _join_re line) as [c|] eqn:Hm.
  - filled Hm "name" name Hname Ln. filled Hm "seat" t Ht Lt.
    apply lang_plus_sym in Lt as (a & t' & -> & Ha & Ht').
    exists name, (String a t'). split; [exact Hname|]. split; [exact Ht|].
    split.
    { cbn [all_chars]. change (cset_mem CDigit) with Py.is_digit in Ha, Ht'.
      now rewrite Ha, Ht'. }
    unfold _parse_join_table. rewrite Hm. cbn [group mbind res_bind].
    rewrite Hname, Ht. reflexivity.
  - unfold _parse_join_table. now rewrite Hm.
Qed.

(** X17.  When [_player_action_re] matches, name and verb are filled, and
    the method fails only if [Action] does not know the verb.  The
    amount never makes it fail: it is the converted group, or [None]
    when the line has no amount -- the [TypeError] of [Decimal(None)]
    that the method catches.  A line the pattern does not match gives
    [AttributeError]. *)
Theorem player_action_returns_iff_matched (line : string) :
  match Re.match_ _player_action_re line with
  | Some c =>
      exists name verb amount,
        c !! "name" = Some name /\ c !! "action" = Some verb
        /\ match c !! "amount" with
           | Some t => exists d, Decimal.of_string t = Some d
                                 /\ amount = PDecimal d
           | None => amount = PNone
           end
        /\ _parse_player_action line
           = match Action verb with
             | Some action => Ok (name, action, amount)
             | None => Raise ValueError
             end
  | None => _parse_player_action line = Raise AttributeError
  end.
Proof.
  destruct (Re.match_ _player_action_re line) as [c|] eqn:Hm.
  - filled Hm "name" name Hname Ln. filled Hm "action" verb Hverb Lv.
    assert (Hamount : exists amount,
               match c !! "amount" with
               | Some t => exists d, Decimal.of_string t = Some d
                                     /\ amount = PDecimal d
               | None => amount = PNone
               end
               /\ match Decimal_of (c !! "amount") with
                  | Raise TypeError => Ok PNone
                  | Raise e => Raise e
                  | Ok d => Ok (PDecimal d)
                  end = Ok amount).
    { destruct (c !! "amount") as [t|] eqn:Ht; [|now exists PNone].
      destruct (match_group_text _ _ _ _ _ Hm Ht) as (body & Hb & L).
      vm_compute in Hb. repeat (destruct Hb as [<-|Hb]); try contradiction.
      apply number_text in L as (_ & d & Hd).
      exists (PDecimal d). split; [now exists d|].
      cbn [Decimal_of]. now rewrite Hd. }
    destruct Hamount as (amount & Hshape & Hconv).
    exists name, verb, amount. split; [exact Hname|]. split; [exact Hverb|].
    split; [exact Hshape|].
    unfold _parse_player_action. rewrite Hm.
    cbn [group mbind res_bind]. rewrite Hname, Hverb.
    cbn [default from_option id or_raise].
    destruct (Action verb) as [action|]; [|reflexivity].
    cbn [mbind res_bind]. rewrite Hconv. reflexivity.
  - unfold _parse_player_action. now rewrite Hm.
Qed.

(** X18.  [_parse_table] on the second piece of the text: when [_table_re]
    matches it, the method returns, the number of seats being digits
    that convert; when it does not, the method has assigned
    [_table_match = None] and fails with [AttributeError]. *)
Theorem table_line_decides (s : state) (splitted : list string)
    (line : string) :
  self s !! "_splitted" = Some (VStrings splitted) ->
  Py.getitem splitted 1 = Some line ->
  match Re.match_ _table_re line with
  | Some c =>
      exists name t n,
        c !! "1" = Some name /\ c !! "2" = Some t
        /\ Decimal.int t = Some n
        /\ _parse_table s
           = (State (<["max_players" := VInt n]>
                       (<["table_name" := VStr name]>
                          (<["_table_match" := VMatch (Some c)]> (self s))))
                    (logger_level s) (logged s), Ok tt)
  | None =>
      _parse_table s
      = (State (<["_table_match" := VMatch None]> (self s))
               (logger_level s) (logged s), Raise AttributeError)
  end.
Proof.
  intros Hsp Hline.
  assert (Hrun : _parse_table s
                 = (let table_match := Re.match_ _table_re line in
                    _ ← setattr "_table_match" (VMatch table_match);
                    table_name ← lift (group table_match "1");
                    _ ← setattr "table_name" (VGroup table_name);
                    g2 ← lift (group table_match "2");
                    n ← lift (int_of g2);
                    setattr "max_players" (VInt n)) s).
  { unfold _parse_table. rewrite (get_splitted_run splitted) by exact Hsp.
    unfold item. now rewrite Hline, lift_run. }
  rewrite Hrun. cbv zeta.
  destruct (Re.match_ _table_re line) as [c|] eqn:Hm; [|reflexivity].
  filled Hm "1" name Hname Ln. filled Hm "2" t Ht Lt.
  apply digits_text in Lt as (_ & _ & n & Hn).
  exists name, t, n. split; [exact Hname|]. split; [exact Ht|].
  split; [exact Hn|].
  rewrite setattr_run. cbn [group]. rewrite lift_run. cbv beta iota.
  rewrite Hname. cbn [VGroup]. rewrite setattr_run, lift_run.
  cbv beta iota. rewrite Ht. cbn [int_of]. rewrite Hn. reflexivity.
Qed.

(** X19.  The loop over the seat lines fails in one way only: the
    [IndexError] of a seat number outside the seat list.  The number
    and the stack of a matched seat line always convert. *)
Theorem seat_lines_raise_only_IndexError (lines : list string)
    (s s' : state) (players : list Player) (e : exn) :
  self s !! "players" = Some (VPlayers players) ->
  seat_lines lines s = (s', Raise e) ->
  e = IndexError.
Proof.
  revert s players. induction lines as [|line lines IH];
    intros s players Hp Hrun; cbn [seat_lines] in Hrun; [discriminate|].
  destruct (Re.match_ _seat_re line) as [c|] eqn:Hm; [|discriminate].
  filled Hm "seat" st Hst Ls. filled Hm "stack" stk Hstk Lk.
  apply digits_text in Ls as (_ & _ & n & Hn).
  apply number_text in Lk as (_ & d & Hd).
  cbv zeta in Hrun. cbn [group] in Hrun.
  rewrite lift_run in Hrun. cbv beta iota in Hrun.
  rewrite Hst in Hrun. cbn [int_of] in Hrun. rewrite Hn in Hrun.
  rewrite lift_run in Hrun. cbv beta iota in Hrun. cbn [or_raise] in Hrun.
  rewrite lift_run in Hrun. cbv beta iota in Hrun.
  rewrite lift_run in Hrun. cbv beta iota in Hrun.
  rewrite Hstk in Hrun. cbn [Decimal_of] in Hrun. rewrite Hd in Hrun.
  rewrite lift_run in Hrun. cbv beta iota in Hrun. cbn [or_raise] in Hrun.
  unfold get_players in Hrun. rewrite bind_assoc_run in Hrun.
  erewrite getattr_run in Hrun by exact Hp. cbv beta iota in Hrun.
  rewrite ret_run, lift_run in Hrun.
  destruct (Py.setitem players (n - 1) _) as [ps|]; cbn [or_raise] in Hrun.
  - rewrite setattr_run in Hrun.
    apply (IH _ ps) in Hrun; [exact Hrun|]. cbn [self].
    apply lookup_insert_eq.
  - now injection Hrun as _ <-.
Qed.

End MatchedGroups.

(** ** Names read without a pattern *)

Section PlainNames.
Context `{Externals}.

Lemma find_char_none (c : ascii) (s : string) :
  all_chars (is_not c) s = true -> Py.find (String c EmptyString) s = None.
Proof.
  induction s as [|x s IH]; intros Hs; [reflexivity|].
  cbn [all_chars] in Hs. apply andb_true_iff in Hs as [Hx Hs].
  cbn [Py.find Py.startswith]. rewrite Ascii.eqb_sym.
  unfold is_not in Hx. apply negb_true_iff in Hx. rewrite Hx.
  now rewrite (IH Hs).
Qed.

(** X20.  [_parse_muck] takes as the name what stands before the first
    colon of the line. *)
Theorem muck_name_before_first_colon (name rest : string) :
  all_chars (is_not ":") name = true ->
  _parse_muck (name +:+ String ":" rest) = Ok (name, MUCK, PNone).
Proof.
  intros Hname. unfold _parse_muck.
  rewrite (find_char ":" name rest) by exact Hname.
  now rewrite take_app.
Qed.

(** X21.  On a line without a colon [line.find(':')] is [-1], and the name
    [line[:-1]] is the line without its last character: the method
    does not fail, it returns a name that is none. *)
Theorem muck_without_colon_drops_last_char (line : string) :
  all_chars (is_not ":") line = true ->
  _parse_muck line
  = Ok (Py.take (String.length line - 1) line, MUCK, PNone).
Proof.
  intros Hline. unfold _parse_muck.
  rewrite (find_char_none ":" line) by exact Hline.
  unfold Py.slice_to, Py.bound. cbn [Z.ltb Z.compare].
  replace (Z.to_nat (Z.max 0 (Z.of_nat (String.length line) + -1)))
    with (String.length line - 1)%nat by lia.
  reflexivity.
Qed.

End PlainNames.

(** ** What a full parse assigns *)

(** The attributes the methods of [parse] assign or delete. *)
Definition parse_attrs : list string :=
  [ "_splitted"; "_sections"; "extra"; "header_parsed" ] ++ header_fields
  ++ [ "_table_match"; "table_name"; "max_players"; "players"; "button";
       "hero"; "preflop_actions"; "flop"; "flop_actions"; "turn";
       "turn_actions"; "river"; "river_actions"; "show_down";
       "show_down_actions"; "total_pot"; "winners"; "parsed" ].

Section Frame.
Context `{Externals}.

Lemma writes_mono {A} (m : M A) (attrs attrs' : list string) :
  writes m attrs -> attrs ⊆ attrs' -> writes m attrs'.
Proof.
  intros Hw Hsub s k Hk. apply Hw. intros Hin. apply Hk. now apply Hsub.
Qed.

Ltac within := apply (bool_decide_unpack _); vm_compute; exact I.

Lemma writes_parse : writes parse_ parse_attrs.
Proof.
  unfold parse_.
  apply writes_bind.
  { unfold get_bool. apply writes_bind; [apply writes_getattr|].
    intros []; first [apply writes_ret | apply writes_raise]. }
  intros header_parsed. apply writes_bind.
  { destruct (negb header_parsed); [|apply writes_ret].
    eapply writes_mono; [apply writes_parse_header | within]. }
  intros _. apply writes_bind.
  { eapply writes_mono; [apply writes_parse_table | within]. }
  intros _. apply writes_bind.
  { eapply writes_mono; [apply writes_parse_players | within]. }
  intros _. apply writes_bind.
  { eapply writes_mono; [apply writes_parse_button | within]. }
  intros _. apply writes_bind.
  { eapply writes_mono; [apply writes_parse_hero | within]. }
  intros _. apply writes_bind.
  { eapply writes_mono; [apply writes_parse_preflop | within]. }
  intros _. apply writes_bind.
  { eapply writes_mono; [apply writes_parse_flop | within]. }
  intros _. apply writes_bind.
  { eapply writes_mono; [apply (writes_parse_street "turn") | within]. }
  intros _. apply writes_bind.
  { eapply writes_mono; [apply (writes_parse_street "river") | within]. }
  intros _. apply writes_bind.
  { eapply writes_mono; [apply writes_parse_showdown | within]. }
  intros _. apply writes_bind.
  { eapply writes_mono; [apply writes_parse_pot | within]. }
  intros _. apply writes_bind.
  { eapply writes_mono; [apply writes_parse_board | within]. }
  intros _. apply writes_bind.
  { eapply writes_mono; [apply writes_parse_winners | within]. }
  intros _. apply writes_bind.
  { unfold _del_split_vars. apply writes_bind; [|intros _];
      apply writes_delattr; within. }
  intros _. apply writes_setattr. within.
Qed.

(** X22.  Whatever the outcome of [parse], an exception included, the
    attributes of the instance that are not among those its methods
    assign are as they were; the text kept in [raw] is one of them. *)
Theorem parse_touches_only_its_attributes (s : state) (k : string) :
  k ∉ parse_attrs -> self (fst (parse_ s)) !! k = self s !! k.
Proof. intros Hk. now apply writes_parse. Qed.

End Frame.

(** ** The rules that read a name before fixed words *)

Section StatusRules.
Context `{Externals}.

Lemma startswith_app (p s : string) :
  Py.startswith p s = true -> exists post, s = p +:+ post.
Proof.
  revert s. induction p as [|a p IH]; intros s Hs; [now exists s|].
  destruct s as [|b s]; [discriminate|]. cbn [Py.startswith] in Hs.
  destruct (Ascii.eqb a b) eqn:E; [|discriminate].
  apply Ascii.eqb_eq in E as ->. apply IH in Hs as [post ->].
  now exists post.
Qed.

Lemma startswith_refl_app (p post : string) :
  Py.startswith p (p +:+ post) = true.
Proof.
  induction p as [|a p IH]; [reflexivity|].
  change (String a p +:+ post) with (String a (p +:+ post)).
  cbn [Py.startswith]. now rewrite Ascii.eqb_refl.
Qed.

Lemma find_Some_lt (sub s : string) (i : nat) :
  Py.find sub s = Some i -> exists pre post,
    s = pre +:+ sub +:+ post /\ String.length pre = i.
Proof.
  revert i. induction s as [|a s IH]; intros i; cbn [Py.find].
  - destruct (Py.startswith sub EmptyString) eqn:E; [|discriminate].
    intros [= <-]. apply startswith_app in E as [post E].
    now exists EmptyString, post.
  - destruct (Py.startswith sub (String a s)) eqn:E.
    + intros [= <-]. apply startswith_app in E as [post E].
      now exists EmptyString, post.
    + destruct (Py.find sub s) as [j|]; [|discriminate].
      intros [= <-]. destruct (IH j eq_refl) as (pre & post & -> & <-).
      now exists (String a pre), post.
Qed.

Lemma find_prefix (sub post : string) :
  Py.find sub (sub +:+ post) = Some 0%nat.
Proof.
  pose proof (startswith_refl_app sub post) as Hs.
  destruct (sub +:+ post); cbn [Py.find]; now rewrite Hs.
Qed.

Lemma contains_app (pre sub post : string) :
  Py.contains sub (pre +:+ sub +:+ post) = true.
Proof.
  unfold Py.contains. induction pre as [|a pre IH].
  - change (EmptyString +:+ sub +:+ post) with (sub +:+ post).
    now rewrite find_prefix.
  - change (String a pre +:+ sub +:+ post)
      with (String a (pre +:+ sub +:+ post)).
    cbn [Py.find].
    destruct (Py.startswith sub (String a (pre +:+ sub +:+ post)));
      [reflexivity|].
    now destruct (Py.find sub (pre +:+ sub +:+ post)).
Qed.

Lemma lstrip_app (pre x : string) (c : ascii) :
  Py.is_strip_space c = false ->
  Py.lstrip (pre +:+ String c x) = Py.lstrip pre +:+ String c x.
Proof.
  intros Hc. induction pre as [|a pre IH].
  - change (EmptyString +:+ String c x) with (String c x).
    cbn [Py.lstrip]. now rewrite Hc.
  - change (String a pre +:+ String c x) with (String a (pre +:+ String c x)).
    cbn [Py.lstrip]. destruct (Py.is_strip_space a); [exact IH | reflexivity].
Qed.

Lemma rstrip_app (y post : string) (c : ascii) :
  Py.is_strip_space c = false ->
  Py.rstrip (y +:+ String c post) = y +:+ String c (Py.rstrip post).
Proof.
  intros Hc. induction y as [|a y IH].
  - change (EmptyString +:+ String c post) with (String c post).
    change (EmptyString +:+ String c (Py.rstrip post))
      with (String c (Py.rstrip post)).
    cbn [Py.rstrip]. destruct (Py.rstrip post); [now rewrite Hc | reflexivity].
  - change (String a y +:+ String c post) with (String a (y +:+ String c post)).
    cbn [Py.rstrip]. rewrite IH.
    change (String a y +:+ String c (Py.rstrip post))
      with (String a (y +:+ String c (Py.rstrip post))).
    now destruct y.
Qed.

Lemma wrap_assoc (L mid X : string) (c0 c1 : ascii) :
  (L +:+ String c0 mid) +:+ String c1 X
  = L +:+ String c0 (mid +:+ String c1 EmptyString) +:+ X.
Proof.
  rewrite app_assoc_string. f_equal.
  change (String c0 (mid +:+ String c1 X)
          = String c0 ((mid +:+ String c1 EmptyString) +:+ X)).
  now rewrite app_assoc_string.
Qed.

(** Words that neither start nor end with white space are still in
    the line once it is trimmed. *)
Lemma contains_strip (c0 c1 : ascii) (mid s : string) :
  Py.is_strip_space c0 = false -> Py.is_strip_space c1 = false ->
  Py.contains (String c0 (mid +:+ String c1 EmptyString)) s = true ->
  Py.contains (String c0 (mid +:+ String c1 EmptyString)) (Py.strip s) = true.
Proof.
  intros H0 H1 Hin. unfold Py.contains in Hin.
  destruct (Py.find _ s) as [i|] eqn:E; [|discriminate].
  apply find_Some_lt in E as (pre & post & -> & _).
  unfold Py.strip. rewrite <- wrap_assoc, app_assoc_string.
  change (String c0 mid +:+ String c1 post)
    with (String c0 (mid +:+ String c1 post)).
  rewrite lstrip_app by exact H0.
  change (Py.lstrip pre +:+ String c0 (mid +:+ String c1 post))
    with (Py.lstrip pre +:+ (String c0 mid +:+ String c1 post)).
  rewrite <- app_assoc_string, rstrip_app by exact H1.
  rewrite wrap_assoc. apply contains_app.
Qed.

(** X23.  The five rules that cut the name before fixed words ([leaves the
    table], [has timed out], [is connected], [is disconnected],
    [was removed]) never fail once [parse] has chosen them: the words
    found in the line as given are still there after the trimming, so
    [line.index] finds them, and the name is the trimmed text before
    them. *)
Theorem status_rules_never_fail (action_str : string) (i : nat)
    (sub : string) (f : string -> res parsed) :
  parse_methods !! i = Some (sub, f) ->
  (5 <= i <= 9)%nat ->
  Py.contains sub action_str = true ->
  (forall j sub' f', (j < i)%nat ->
     parse_methods !! j = Some (sub', f') ->
     Py.contains sub' action_str = false) ->
  exists k action,
    Py.find sub (Py.strip action_str) = Some k
    /\ entry_action i = Some action
    /\ parse action_str
       = Ok (_PlayerAction (Py.strip (Py.take k (Py.strip action_str)))
                           action PNone).
Proof.
  intros Hi Hrange Hin Hfirst.
  assert (Hfind : List.find (fun m => Py.contains (fst m) action_str)
                    parse_methods = Some (sub, f)).
  { apply (find_first _ _ i); [exact Hi | exact Hin |].
    intros j [sub' f'] Hj Hlook. exact (Hfirst j sub' f' Hj Hlook). }
  unfold parse, first_method. rewrite Hfind.
  cbn [or_raise mbind res_bind snd].
  assert (Hstrip : Py.contains sub (Py.strip action_str) = true).
  { destruct i as [|[|[|[|[|[|[|[|[|[|i]]]]]]]]]]; try lia;
      injection Hi as <- <-;
      first [ apply (contains_strip "l" "e" "eaves the tabl")
            | apply (contains_strip "h" "t" "as timed ou")
            | apply (contains_strip "i" "d" "s connecte")
            | apply (contains_strip "i" "d" "s disconnecte")
            | apply (contains_strip "w" "d" "as remove") ];
      first [ exact Hin | reflexivity ]. }
  unfold Py.contains in Hstrip.
  destruct (Py.find sub (Py.strip action_str)) as [k|] eqn:Ek;
    [|discriminate].
  exists k.
  destruct i as [|[|[|[|[|[|[|[|[|[|i]]]]]]]]]]; try lia;
    injection Hi as <- <-; eexists; (split; [reflexivity|]);
    (split; [reflexivity|]);
    unfold _parse_leave_table, _parse_timed_out, _parse_connected,
      _parse_disconnected, _parse_removed, str_index;
    rewrite Ek; reflexivity.
Qed.

End StatusRules.

(** ** The actions each method stores *)

Section StoredActions.
Context `{Externals}.

(** X24.  [_parse_preflop], when it returns, has assigned to
    [preflop_actions] the actions of the lines the classifier knows
    among the pieces from the third after the first section up to the
    second section, in their order -- [None] when there is none, never
    an empty tuple -- and nothing else. *)
Theorem preflop_actions_are_the_recognised_lines (s s' : state)
    (splitted : list string) (sections : list nat) :
  self s !! "_splitted" = Some (VStrings splitted) ->
  self s !! "_sections" = Some (VIndices sections) ->
  _parse_preflop s = (s', Ok tt) ->
  exists s0 s1,
    Py.getitem sections 0 = Some s0 /\ Py.getitem sections 1 = Some s1
    /\ self s'
       = <["preflop_actions" :=
             tuple_or_None (recognised (Py.lslice (s0 + 3) s1 splitted))]>
           (self s).
Proof.
  intros Hsp Hse. unfold _parse_preflop.
  rewrite (get_splitted_run splitted) by exact Hsp.
  rewrite (get_sections_run sections) by exact Hse. intros Hrun.
  apply bind_ok in Hrun as (s1' & s0 & E & Hrun).
  apply item_ok in E as (-> & Hs0). cbv zeta in Hrun.
  apply bind_ok in Hrun as (s1' & s1 & E & Hrun).
  apply item_ok in E as (-> & Hs1).
  apply bind_ok in Hrun as (s1' & actions & E & Hrun).
  apply parse_lines_ok in E as (-> & Hself & _).
  apply setattr_ok in Hrun as ->.
  exists s0, s1. split; [exact Hs0|]. split; [exact Hs1|].
  cbn [self]. now rewrite Hself.
Qed.

(** X25.  [_parse_street], when it finds its marker and no line of the
    street raises, assigns the actions of the street -- those of the
    recognised lines from the second piece after the marker up to the
    next empty piece, [None] when there is none -- and nothing else:
    the card of the street is not assigned here. *)
Theorem street_actions_are_the_recognised_lines (street : string)
    (s s' : state) (splitted : list string) (i stop : nat)
    (actions : list PlayerAction) :
  self s !! "_splitted" = Some (VStrings splitted) ->
  Py.index_from (Py.upper street) 0 splitted = Some i ->
  Py.index_from "" (i + 2) splitted = Some stop ->
  parse_lines (Py.lslice (i + 2) stop splitted) [] s = (s', Ok actions) ->
  actions = recognised (Py.lslice (i + 2) stop splitted)
  /\ _parse_street street s
     = (State (<[Py.lower street +:+ "_actions" := tuple_or_None actions]>
                 (self s))
              (logger_level s') (logged s'), Ok tt).
Proof.
  intros Hsp Hi Hstop Hlines.
  pose proof (parse_lines_ok _ _ _ _ _ Hlines)
    as (Hact & Hself & _).
  split; [exact Hact|].
  unfold _parse_street, try_except.
  rewrite (index_of_run _ _ splitted) by exact Hsp. rewrite Hi.
  cbv zeta. rewrite (index_of_run _ _ splitted) by exact Hsp. rewrite Hstop.
  rewrite (get_splitted_run splitted) by exact Hsp.
  rewrite (bind_run _ _ _ _ _ Hlines). unfold setattr.
  now rewrite Hself.
Qed.

(** X26.  [_parse_showdown], when it finds its marker and no line raises,
    sets [show_down] and stores the recognised lines as a tuple that
    may be empty: unlike the other action lists, [show_down_actions]
    is not [None] when no line was recognised. *)
Theorem showdown_actions_are_the_recognised_lines (s s' : state)
    (splitted : list string) (i stop : nat) (actions : list PlayerAction) :
  self s !! "_splitted" = Some (VStrings splitted) ->
  Py.index_from "SHOW DOWN" 0 splitted = Some i ->
  Py.index_from "" (i + 1) splitted = Some stop ->
  parse_lines (Py.lslice (i + 1) stop splitted) [] s = (s', Ok actions) ->
  actions = recognised (Py.lslice (i + 1) stop splitted)
  /\ _parse_showdown s
     = (State (<["show_down_actions" := VActions actions]>
                 (<["show_down" := VBool true]> (self s)))
              (logger_level s') (logged s'), Ok tt).
Proof.
  intros Hsp Hi Hstop Hlines.
  pose proof (parse_lines_ok _ _ _ _ _ Hlines)
    as (Hact & Hself & _).
  split; [exact Hact|].
  unfold _parse_showdown, try_except.
  rewrite (index_of_run _ _ splitted) by exact Hsp. rewrite Hi.
  cbv zeta. rewrite (index_of_run _ _ splitted) by exact Hsp. rewrite Hstop.
  rewrite (get_splitted_run splitted) by exact Hsp.
  rewrite (bind_run _ _ _ _ _ Hlines). rewrite setattr_run.
  unfold setattr. cbn [self logger_level logged]. now rewrite Hself.
Qed.

End StoredActions.

(** * The further properties on example inputs *)

(** A run that returns ends in the state of its first component. *)
Lemma ok_run `{Externals} {A} (m : M A) (s : state) (a : A) :
  snd (m s) = Ok a -> m s = (fst (m s), Ok a).
Proof. destruct (m s) as [t r]. cbn [fst snd]. now intros ->. Qed.

Ltac returns := apply ok_run; vm_compute; reflexivity.

(** An instance that holds nothing but the split text. *)
Definition pieces_only (pieces : list string) (level : Z) : state :=
  State {[ "_splitted" := VStrings pieces ]} level [].

(** An instance with split text, sections and the show-down flag. *)
Definition summary_state (pieces : list string) (sections : list nat)
    (show_down : bool) : state :=
  State (<["show_down" := VBool show_down]>
           (<["_sections" := VIndices sections]>
              {[ "_splitted" := VStrings pieces ]})) ERROR [].

(** An instance with a seat list only. *)
Definition seats_only (players : list Player) : state :=
  State {[ "players" := VPlayers players ]} ERROR [].

Definition fold_bob : PlayerAction := _PlayerAction "bob" Demo.FOLD PNone.
Definition check_bob : PlayerAction := _PlayerAction "bob" Demo.CHECK PNone.

Lemma parse_lines_skips_and_logs_witness :
  let lines := ["bob: folds"; "alice said hello"; "bob: checks"] in
  let s := State ∅ WARNING [] in
  let s' := State ∅ WARNING ["Unknown action: alice said hello."] in
  parse_lines lines [] s = (s', Ok [fold_bob; check_bob])
  /\ [fold_bob; check_bob] = [] ++ recognised lines
  /\ logged s'
     = logged s ++ (if logger_level s <=? WARNING then diagnostics lines
                    else []).
Proof.
  intros lines s s'.
  assert (H1 : parse_lines lines [] s = (s', Ok [fold_bob; check_bob]))
    by by_computation.
  destruct (parse_lines_skips_and_logs lines [] _ s s' H1)
    as (Ha & _ & _ & Hl).
  split; [exact H1|]. split; [exact Ha | exact Hl].
Defined.

Lemma parse_lines_first_error_witness :
  let l := "bob shows [Ac Jh]" in
  let s := State ∅ ERROR [] in
  parse "bob: folds" = Ok fold_bob
  /\ parse l = Raise ValueError
  /\ exists s',
       parse_lines (["bob: folds"] ++ l :: ["bob: checks"]) [] s
       = (s', Raise ValueError)
       /\ self s' = self s /\ logger_level s' = logger_level s.
Proof.
  intros l s.
  assert (H1 : Forall (fun x => match parse x with
                                | Ok _ | Raise (UnknownActionError _) => True
                                | Raise _ => False
                                end) ["bob: folds"]).
  { constructor; [vm_compute; exact I | constructor]. }
  assert (H2 : parse l = Raise ValueError) by by_computation.
  split; [by_computation|]. split; [exact H2|].
  exact (parse_lines_first_error ["bob: folds"] ["bob: checks"] l ValueError
           [] s H1 H2 eq_refl).
Defined.

Lemma street_value_error_is_no_street_witness :
  let splitted := ["TURN"; "[2s 6d 6h] [Kc]"; "bob shows [Kc Kd]"; ""] in
  let s := pieces_only splitted ERROR in
  parse_lines (Py.lslice (0 + 2) 3 splitted) [] s = (s, Raise ValueError)
  /\ _parse_street "turn" s
     = (State (<[Py.lower "turn" +:+ "_actions" := VNone]>
                 (<["turn" := VNone]> (self s)))
              (logger_level s) (logged s), Ok tt).
Proof.
  intros splitted s.
  assert (H1 : self s !! "_splitted" = Some (VStrings splitted))
    by reflexivity.
  assert (H2 : Py.index_from (Py.upper "turn") 0 splitted = Some 0%nat)
    by reflexivity.
  assert (H3 : Py.index_from "" (0 + 2) splitted = Some 3%nat)
    by reflexivity.
  assert (H4 : parse_lines (Py.lslice (0 + 2) 3 splitted) [] s
               = (s, Raise ValueError)) by by_computation.
  split; [exact H4|].
  exact (street_value_error_is_no_street "turn" s s splitted 0 3
           H1 H2 H3 H4).
Defined.

Lemma showdown_value_error_is_no_showdown_witness :
  let splitted := ["SHOW DOWN"; "bob shows [Kc Kd]"; ""] in
  let s := pieces_only splitted ERROR in
  parse_lines (Py.lslice (0 + 1) 2 splitted) [] s = (s, Raise ValueError)
  /\ _parse_showdown s
     = (State (<["show_down_actions" := VNone]>
                 (<["show_down" := VBool false]> (self s)))
              (logger_level s) (logged s), Ok tt).
Proof.
  intros splitted s.
  assert (H1 : self s !! "_splitted" = Some (VStrings splitted))
    by reflexivity.
  assert (H2 : Py.index_from "SHOW DOWN" 0 splitted = Some 0%nat)
    by reflexivity.
  assert (H3 : Py.index_from "" (0 + 1) splitted = Some 2%nat)
    by reflexivity.
  assert (H4 : parse_lines (Py.lslice (0 + 1) 2 splitted) [] s
               = (s, Raise ValueError)) by by_computation.
  split; [exact H4|].
  exact (showdown_value_error_is_no_showdown s s splitted 0 2 H1 H2 H3 H4).
Defined.

Lemma header_then_parse_witness :
  let s := fresh Demo.cash_hand ERROR [] in
  self s !! "header_parsed" = Some (VBool false)
  /\ (parse_header ≫= fun _ => parse_) s = parse_ s.
Proof.
  intros s.
  assert (H1 : self s !! "header_parsed" = Some (VBool false))
    by reflexivity.
  split; [exact H1|]. exact (header_then_parse s H1).
Defined.

Lemma seated_init_seats : seated (_init_seats 2).
Proof.
  intros i p Hi. destruct i as [|[|i]]; vm_compute in Hi;
    [injection Hi as <- | injection Hi as <- | discriminate];
    left; reflexivity.
Qed.

Lemma seat_lines_keep_seats_witness :
  let lines := ["Seat 2: bob ($2.50 in chips)"; "bob: posts big blind $0.02"] in
  let s := seats_only (_init_seats 2) in
  let s' := fst (seat_lines lines s) in
  seat_lines lines s = (s', Ok tt)
  /\ exists players',
       self s' !! "players" = Some (VPlayers players')
       /\ List.length players' = List.length (_init_seats 2)
       /\ seated players'.
Proof.
  intros lines s s'.
  assert (H1 : seat_lines lines s = (s', Ok tt)) by returns.
  assert (H2 : self s !! "players" = Some (VPlayers (_init_seats 2)))
    by reflexivity.
  split; [exact H1|].
  exact (seat_lines_keep_seats lines s s' (_init_seats 2) H1 H2
           seated_init_seats).
Defined.

Definition third_seat_line : string := "Seat 3: carol (100 in chips)".

Lemma seat_beyond_table_raises_witness :
  let c := default ∅ (Re.match_ _seat_re third_seat_line) in
  let s := seats_only (_init_seats 2) in
  Re.match_ _seat_re third_seat_line = Some c
  /\ int_of (c !! "seat") = Ok 3
  /\ seat_lines [third_seat_line] s = (s, Raise IndexError).
Proof.
  intros c s.
  assert (H1 : Re.match_ _seat_re third_seat_line = Some c) by by_computation.
  assert (H2 : int_of (c !! "seat") = Ok 3) by by_computation.
  assert (H3 : Decimal_of (c !! "stack") = Ok (Dec 100 0)) by by_computation.
  assert (H4 : self s !! "players" = Some (VPlayers (_init_seats 2)))
    by reflexivity.
  assert (H5 : Z.of_nat (List.length (_init_seats 2)) < 3)
    by (vm_compute; reflexivity).
  split; [exact H1|]. split; [exact H2|].
  exact (seat_beyond_table_raises third_seat_line [] c 3 (Dec 100 0)
           (_init_seats 2) s H1 H2 H3 H4 H5).
Defined.

Definition table_line : string :=
  "Table 'Bellona II' 2-max Seat #1 is the button".

Lemma button_seat_cases_witness :
  let tc := default ∅ (Re.match_ _table_re table_line) in
  let players := _init_seats 2 in
  let s := State (<["players" := VPlayers players]>
                    {[ "_table_match" := VMatch (Some tc) ]}) ERROR [] in
  int_of (tc !! "button") = Ok 1
  /\ _parse_button s
     = (State (<["button" := VPlayer (empty_seat 1)]> (self s))
              (logger_level s) (logged s), Ok tt).
Proof.
  intros tc players s.
  assert (H1 : self s !! "_table_match" = Some (VMatch (Some tc)))
    by reflexivity.
  assert (H2 : int_of (tc !! "button") = Ok 1) by by_computation.
  assert (H3 : self s !! "players" = Some (VPlayers players))
    by reflexivity.
  split; [exact H2|].
  destruct (button_seat_cases s tc 1 players H1 H2 H3) as (Hin & _ & _).
  apply Hin; [lia | reflexivity].
Defined.

Lemma no_dealt_line_no_hero_witness :
  let splitted := ["header"; "table"; ""; "HOLE CARDS"; "bob: folds"] in
  let s := State (<["_sections" := VIndices [2%nat]]>
                    {[ "_splitted" := VStrings splitted ]}) ERROR [] in
  Re.match_ _hero_re "bob: folds" = None
  /\ _parse_hero s
     = (State (<["hero" := VNone]> (self s)) (logger_level s) (logged s),
        Ok tt).
Proof.
  intros splitted s.
  assert (H1 : self s !! "_splitted" = Some (VStrings splitted))
    by reflexivity.
  assert (H2 : self s !! "_sections" = Some (VIndices [2%nat]))
    by reflexivity.
  assert (H3 : Py.getitem [2%nat] 0 = Some 2%nat) by reflexivity.
  assert (H4 : Py.getitem splitted (Z.of_nat 2 + 2) = Some "bob: folds")
    by reflexivity.
  assert (H5 : Re.match_ _hero_re "bob: folds" = None) by by_computation.
  split; [exact H5|].
  exact (no_dealt_line_no_hero s splitted [2%nat] 2 "bob: folds"
           H1 H2 H3 H4 H5).
Defined.

Definition summary_pieces (last_line : string) : list string :=
  [ ""; "SUMMARY"; "Total pot 150 | Rake 0"; "Board [2s 6d 6h]"; last_line ].

Lemma winners_are_the_policy_names_witness :
  let splitted := summary_pieces "Seat 1: bob collected (150)" in
  let s := summary_state splitted [0%nat] false in
  let s' := fst (_parse_winners s) in
  _parse_winners s = (s', Ok tt)
  /\ exists last names,
       Py.getitem [0%nat] (-1) = Some last
       /\ self s' !! "winners" = Some (VNames names)
       /\ NoDup names
       /\ forall n, n ∈ names <->
            exists line re c,
              line ∈ List.skipn (last + 4) splitted
              /\ winner_policy false line = Some re
              /\ Re.match_ re line = Some c
              /\ n = default "" (c !! "name").
Proof.
  intros splitted s s'.
  assert (H1 : self s !! "_splitted" = Some (VStrings splitted))
    by reflexivity.
  assert (H2 : self s !! "_sections" = Some (VIndices [0%nat]))
    by reflexivity.
  assert (H3 : self s !! "show_down" = Some (VBool false)) by reflexivity.
  assert (H4 : _parse_winners s = (s', Ok tt)) by returns.
  split; [exact H4|].
  exact (winners_are_the_policy_names s s' splitted [0%nat] false
           H1 H2 H3 H4).
Defined.

Lemma winners_unread_line_raises_witness :
  let line := "Seat 1: wonder folded before Flop" in
  let splitted := summary_pieces line in
  let s := summary_state splitted [0%nat] true in
  winner_policy true line = Some _showdown_re
  /\ Re.match_ _showdown_re line = None
  /\ _parse_winners s = (s, Raise AttributeError).
Proof.
  intros line splitted s.
  assert (H1 : self s !! "_splitted" = Some (VStrings splitted))
    by reflexivity.
  assert (H2 : self s !! "_sections" = Some (VIndices [0%nat]))
    by reflexivity.
  assert (H3 : self s !! "show_down" = Some (VBool true)) by reflexivity.
  assert (H4 : Py.getitem [0%nat] (-1) = Some 0%nat) by reflexivity.
  assert (H5 : List.skipn (0 + 4) splitted = [] ++ line :: [])
    by reflexivity.
  assert (H6 : winner_policy true line = Some _showdown_re)
    by by_computation.
  assert (H7 : Re.match_ _showdown_re line = None) by by_computation.
  split; [exact H6|]. split; [exact H7|].
  exact (winners_unread_line_raises s splitted [0%nat] 0 true [] [] line
           _showdown_re H1 H2 H3 H4 H5 (Forall_nil_2 _) H6 H7).
Defined.

Lemma show_line_gives_name_and_cards_witness :
  _parse_show ("alice" +:+ ": shows [" +:+ "Ac Jh" +:+ "]"
               +:+ " (a pair of Aces)")
  = Ok ("alice", SHOW, PCombo ["Ac"; "Jh"]).
Proof.
  exact (show_line_gives_name_and_cards "alice" "Ac Jh" " (a pair of Aces)"
           ["Ac"; "Jh"] eq_refl eq_refl eq_refl eq_refl eq_refl).
Defined.

Lemma table_line_decides_witness :
  let splitted := ["header"; table_line] in
  let s := pieces_only splitted ERROR in
  match Re.match_ _table_re table_line with
  | Some c =>
      exists name t n,
        c !! "1" = Some name /\ c !! "2" = Some t
        /\ Decimal.int t = Some n
        /\ _parse_table s
           = (State (<["max_players" := VInt n]>
                       (<["table_name" := VStr name]>
                          (<["_table_match" := VMatch (Some c)]> (self s))))
                    (logger_level s) (logged s), Ok tt)
  | None =>
      _parse_table s
      = (State (<["_table_match" := VMatch None]> (self s))
               (logger_level s) (logged s), Raise AttributeError)
  end.
Proof.
  intros splitted s.
  exact (table_line_decides s splitted table_line eq_refl eq_refl).
Defined.

Lemma seat_lines_raise_only_IndexError_witness :
  let s := seats_only (_init_seats 2) in
  seat_lines [third_seat_line] s = (s, Raise IndexError)
  /\ IndexError = IndexError.
Proof.
  intros s.
  assert (H1 : self s !! "players" = Some (VPlayers (_init_seats 2)))
    by reflexivity.
  assert (H2 : seat_lines [third_seat_line] s = (s, Raise IndexError))
    by by_computation.
  split; [exact H2|].
  exact (seat_lines_raise_only_IndexError [third_seat_line] s s
           (_init_seats 2) IndexError H1 H2).
Defined.

Lemma muck_name_before_first_colon_witness :
  _parse_muck ("bob" +:+ String ":" " mucks hand")
  = Ok ("bob", MUCK, PNone).
Proof.
  exact (muck_name_before_first_colon "bob" " mucks hand" eq_refl).
Defined.

Lemma muck_without_colon_drops_last_char_witness :
  _parse_muck "bob mucks hand"
  = Ok (Py.take (String.length "bob mucks hand" - 1) "bob mucks hand",
        MUCK, PNone)
  /\ Py.take (String.length "bob mucks hand" - 1) "bob mucks hand"
     = "bob mucks han".
Proof.
  split; [|reflexivity].
  exact (muck_without_colon_drops_last_char "bob mucks hand" eq_refl).
Defined.

Lemma parse_touches_only_its_attributes_witness :
  let s := fresh Demo.cash_hand ERROR [] in
  ("raw" ∉ parse_attrs)
  /\ self (fst (parse_ s)) !! "raw" = self s !! "raw".
Proof.
  intros s.
  assert (H1 : "raw" ∉ parse_attrs) by decided.
  split; [exact H1|].
  exact (parse_touches_only_its_attributes s "raw" H1).
Defined.

Lemma status_rules_never_fail_witness :
  let line := "  bob has timed out  " in
  parse_methods !! 6%nat = Some ("has timed out", _parse_timed_out)
  /\ Py.contains "has timed out" line = true
  /\ exists k action,
       Py.find "has timed out" (Py.strip line) = Some k
       /\ entry_action 6 = Some action
       /\ parse line
          = Ok (_PlayerAction (Py.strip (Py.take k (Py.strip line)))
                              action PNone).
Proof.
  intros line.
  assert (H1 : parse_methods !! 6%nat
               = Some ("has timed out", _parse_timed_out)) by reflexivity.
  assert (H2 : (5 <= 6 <= 9)%nat) by lia.
  assert (H3 : Py.contains "has timed out" line = true) by by_computation.
  assert (H4 : forall j sub' f', (j < 6)%nat ->
                 parse_methods !! j = Some (sub', f') ->
                 Py.contains sub' line = false).
  { intros j sub' f' Hj Hlook.
    do 6 (destruct j as [|j];
          [simpl in Hlook; injection Hlook as <- _; by_computation|]).
    lia. }
  split; [exact H1|]. split; [exact H3|].
  exact (status_rules_never_fail line 6 "has timed out" _parse_timed_out
           H1 H2 H3 H4).
Defined.

Lemma preflop_actions_are_the_recognised_lines_witness :
  let splitted := [ "header"; "table"; ""; "HOLE CARDS";
                    "Dealt to bob [Ac Jh]"; "bob: folds";
                    "alice said hello"; ""; "SUMMARY" ] in
  let sections := [2%nat; 7%nat] in
  let s := State (<["_sections" := VIndices sections]>
                    {[ "_splitted" := VStrings splitted ]}) ERROR [] in
  let s' := fst (_parse_preflop s) in
  _parse_preflop s = (s', Ok tt)
  /\ exists s0 s1,
       Py.getitem sections 0 = Some s0 /\ Py.getitem sections 1 = Some s1
       /\ self s'
          = <["preflop_actions" :=
                tuple_or_None (recognised (Py.lslice (s0 + 3) s1 splitted))]>
              (self s).
Proof.
  intros splitted sections s s'.
  assert (H1 : self s !! "_splitted" = Some (VStrings splitted))
    by reflexivity.
  assert (H2 : self s !! "_sections" = Some (VIndices sections))
    by reflexivity.
  assert (H3 : _parse_preflop s = (s', Ok tt)) by returns.
  split; [exact H3|].
  exact (preflop_actions_are_the_recognised_lines s s' splitted sections
           H1 H2 H3).
Defined.

Lemma street_actions_are_the_recognised_lines_witness :
  let splitted := ["TURN"; "[2s 6d 6h] [Kc]"; "bob: checks"; ""] in
  let s := pieces_only splitted ERROR in
  parse_lines (Py.lslice (0 + 2) 3 splitted) [] s = (s, Ok [check_bob])
  /\ [check_bob] = recognised (Py.lslice (0 + 2) 3 splitted)
  /\ _parse_street "turn" s
     = (State (<[Py.lower "turn" +:+ "_actions" := tuple_or_None [check_bob]]>
                 (self s))
              (logger_level s) (logged s), Ok tt).
Proof.
  intros splitted s.
  assert (H1 : self s !! "_splitted" = Some (VStrings splitted))
    by reflexivity.
  assert (H2 : Py.index_from (Py.upper "turn") 0 splitted = Some 0%nat)
    by reflexivity.
  assert (H3 : Py.index_from "" (0 + 2) splitted = Some 3%nat)
    by reflexivity.
  assert (H4 : parse_lines (Py.lslice (0 + 2) 3 splitted) [] s
               = (s, Ok [check_bob])) by by_computation.
  split; [exact H4|].
  exact (street_actions_are_the_recognised_lines "turn" s s splitted 0 3
           [check_bob] H1 H2 H3 H4).
Defined.

Lemma showdown_actions_are_the_recognised_lines_witness :
  let splitted := ["SHOW DOWN"; "alice said hello"; ""] in
  let s := pieces_only splitted ERROR in
  parse_lines (Py.lslice (0 + 1) 2 splitted) [] s = (s, Ok [])
  /\ [] = recognised (Py.lslice (0 + 1) 2 splitted)
  /\ _parse_showdown s
     = (State (<["show_down_actions" := VActions []]>
                 (<["show_down" := VBool true]> (self s)))
              (logger_level s) (logged s), Ok tt).
Proof.
  intros splitted s.
  assert (H1 : self s !! "_splitted" = Some (VStrings splitted))
    by reflexivity.
  assert (H2 : Py.index_from "SHOW DOWN" 0 splitted = Some 0%nat)
    by reflexivity.
  assert (H3 : Py.index_from "" (0 + 1) splitted = Some 2%nat)
    by reflexivity.
  assert (H4 : parse_lines (Py.lslice (0 + 1) 2 splitted) [] s = (s, Ok []))
    by by_computation.
  split; [exact H4|].
  exact (showdown_actions_are_the_recognised_lines s s splitted 0 2 []
           H1 H2 H3 H4).
Defined.
